(** * SATOSA plugin loader ([src/satosa/plugin_loader.py])

    A shallow embedding of the plugin-assembly layer: the capability
    filters, the configuration reader, the plugin loader with its code
    and declarative paths, the endpoint module assembler and the
    micro-service loader.

    Python objects are represented symbolically.  Everything the loader
    does not define itself (the plugin source, the file system, the YAML
    parser, [pydoc.locate], the constructors of plugin classes) is a
    field of a [World]; the loader is a function of that world. *)

From Stdlib Require Import ZArith String Ascii List Lia Bool.
From Stdlib Require DecimalPos.
From stdpp Require Import base strings gmap.
Import ListNotations.

Set Warnings "-register-all".
Local Open Scope Z_scope.
Local Open Scope list_scope.

(** ** Classes and objects *)

(** The six marker classes imported by the loader, and any other class. *)
Inductive class_id :=
| InterfaceModulePlugin
| BackendModulePlugin
| FrontendModulePlugin
| MicroService
| RequestMicroService
| ResponseMicroService
| UserClass (qualname : string).

#[global] Instance class_id_eq_dec : EqDecision class_id.
Proof. solve_decision. Defined.

(** [cls.__name__] of the marker classes (used as [filter_class]). *)
Definition class_name (c : class_id) : string :=
  match c with
  | InterfaceModulePlugin => "InterfaceModulePlugin"
  | BackendModulePlugin => "BackendModulePlugin"
  | FrontendModulePlugin => "FrontendModulePlugin"
  | MicroService => "MicroService"
  | RequestMicroService => "RequestMicroService"
  | ResponseMicroService => "ResponseMicroService"
  | UserClass q => q
  end.

(** Plain data, as [yaml.safe_load] and [json.loads] produce it, as far
    as it is modelled: [None], booleans, integers, strings, lists and
    string-keyed dictionaries (in insertion order).  Floats, dates and
    dictionaries with keys that are no strings, which a YAML file can
    also hold, are outside the model: what is proved of a parsed
    configuration is proved of the configurations built from these six
    kinds of value. *)
Inductive pyvalue :=
| VNone
| VBool (b : bool)
| VInt (z : Z)
| VStr (s : string)
| VList (items : list pyvalue)
| VDict (items : list (string * pyvalue)).

(** ** Exceptions *)

(** What [hasattr(exc, 'problem_mark')] and [exc.problem_mark] see on a
    [YAMLError]: no such attribute, the attribute set to [None], or a
    mark with a zero-based line and column. *)
Inductive problem_mark :=
| NoMarkAttribute
| MarkIsNone
| Mark (line column : Z).

Inductive exn :=
| ImportError (msg : string)
| IOError
| NameError (name : string)
| UnboundLocalError (name : string)
| TypeError
| ValueError (msg : string)
| KeyError (key : string)
| AttributeError
| YAMLError (mark : problem_mark)
| JSONDecodeError
| SATOSAConfigurationError (msg : string) (cause : exn)
| OtherException (what : string)
| KeyboardInterrupt.

(** [except Exception]: everything but the bare [BaseException]s. *)
Definition is_Exception (e : exn) : bool :=
  match e with KeyboardInterrupt => false | _ => true end.

Inductive result (A : Type) :=
| Ok (a : A)
| Raise (e : exn).
Arguments Ok {A} a.
Arguments Raise {A} e.

Definition rbind {A B} (r : result A) (k : A -> result B) : result B :=
  match r with
  | Ok a => k a
  | Raise e => Raise e
  end.

Declare Scope result_scope.
Delimit Scope result_scope with result.
Notation "x <-? r ; k" := (rbind r (fun x => k))
  (at level 100, r at next level, right associativity) : result_scope.

(** What the truth test of [and] and [if] makes of a value: true,
    false, or an exception (an array, say, has no truth value). *)
Inductive truth :=
| Truthy
| Falsy
| NoTruth (e : exn).

(** Objects the loader handles.  [OInst f args] is the object returned
    by the successful call of [callee] on [args]; [OOpaque] is an object of which
    only the identity matters (a function, a module, a callback).
    These compare as objects do by default.  [OCustom name cls ne] is
    an object that brings its own comparison: [ne marker] is what
    [member != marker] does, an exception or a value with its truth;
    [cls] is its class identity when it is a class (one whose metaclass
    defines the comparison), and [None] when it is no class. *)
Inductive pyobj :=
| OVal (v : pyvalue)
| OClass (c : class_id)
| OOpaque (name : string)
| OInst (callee : pyobj) (args : list pyobj)
| OCustom (name : string) (cls : option class_id)
          (ne : class_id -> result truth).

(** ** Capability filters *)

Section Filters.

(** [mro c] is [c.__mro__]: the class itself and all its ancestors. *)
Variable mro : class_id -> list class_id.

(** [inspect.isclass(member)] *)
Definition isclass (member : pyobj) : bool :=
  match member with
  | OClass _ | OCustom _ (Some _) _ => true
  | _ => false
  end.

(** [issubclass(member, base)]: a [TypeError] unless [member] is a class. *)
Definition issubclass (member : pyobj) (base : class_id) : result bool :=
  match member with
  | OClass c | OCustom _ (Some c) _ => Ok (bool_decide (base ∈ mro c))
  | _ => Raise TypeError
  end.

(** [member != marker]: the comparison of the member itself.  Classes
    and other objects compare by identity unless they bring their own
    comparison, which may answer anything or raise. *)
Definition py_ne (member : pyobj) (marker : class_id) : result truth :=
  match member with
  | OClass c => Ok (if bool_decide (c = marker) then Falsy else Truthy)
  | OCustom _ _ ne => ne marker
  | _ => Ok Truthy
  end.

(** [a and b] where [b] is only evaluated when [a] is true. *)
Definition and_then (a : result bool) (b : result bool) : result bool :=
  rbind a (fun x => if x then b else Ok false).

(** [a and b] on values of any kind: the truth of [a] is tested, which
    may raise; a false [a] is the result, otherwise [b] is, untested. *)
Definition and_also (a : result truth) (b : result truth) : result truth :=
  rbind a (fun x => match x with
                    | Truthy => b
                    | Falsy => Ok Falsy
                    | NoTruth e => Raise e
                    end).

(** [value and issubclass(member, base)]; a false [value] is returned
    as it is, and stands here as [false]. *)
Definition and_subclass (value : result truth) (member : pyobj)
           (base : class_id) : result bool :=
  rbind value (fun x => match x with
                        | Truthy => issubclass member base
                        | Falsy => Ok false
                        | NoTruth e => Raise e
                        end).

(** Lines 78 to 80.  The three comparisons of line 79 are evaluated
    whatever [is_module] is; line 80 returns [is_module] when it is
    false and the value of line 79 otherwise. *)
Definition _member_filter (member : pyobj) : result truth :=
  (is_module <-? and_then (Ok (isclass member))
                          (issubclass member InterfaceModulePlugin);
   is_correct_subclass <-?
     and_also (py_ne member InterfaceModulePlugin)
              (and_also (py_ne member BackendModulePlugin)
                        (py_ne member FrontendModulePlugin));
   Ok (if is_module : bool then is_correct_subclass else Falsy))%result.

Definition backend_filter (member : pyobj) : result bool :=
  and_subclass (_member_filter member) member BackendModulePlugin.

Definition frontend_filter (member : pyobj) : result bool :=
  and_subclass (_member_filter member) member FrontendModulePlugin.

(** Lines 122 to 124, as lines 78 to 80. *)
Definition _micro_service_filter (member : pyobj) : result truth :=
  (is_module <-? and_then (Ok (isclass member))
                          (issubclass member MicroService);
   is_correct_subclass <-?
     and_also (py_ne member MicroService)
              (and_also (py_ne member ResponseMicroService)
                        (py_ne member RequestMicroService));
   Ok (if is_module : bool then is_correct_subclass else Falsy))%result.

Definition _request_micro_service_filter (member : pyobj) : result bool :=
  and_subclass (_micro_service_filter member) member RequestMicroService.

Definition _response_micro_service_filter (member : pyobj) : result bool :=
  and_subclass (_micro_service_filter member) member ResponseMicroService.

(** The class a member is, if it is one. *)
Definition class_of (member : pyobj) : option class_id :=
  match member with
  | OClass c | OCustom _ (Some c) _ => Some c
  | _ => None
  end.

(** What the specification asks of a candidate: a class that has the
    family's base interface and the category marker among its
    ancestors and is none of the family's three abstract markers. *)
Definition concrete_class (family category m1 m2 m3 : class_id)
           (member : pyobj) : Prop :=
  exists c, class_of member = Some c
            /\ family ∈ mro c /\ category ∈ mro c
            /\ c <> m1 /\ c <> m2 /\ c <> m3.

(** What [member != marker] answers when the member compares by
    identity, as objects do by default. *)
Definition identity_ne (member : pyobj) (marker : class_id) : truth :=
  match class_of member with
  | Some c => if bool_decide (c = marker) then Falsy else Truthy
  | None => Truthy
  end.

Definition markers : list class_id :=
  [InterfaceModulePlugin; BackendModulePlugin; FrontendModulePlugin;
   MicroService; RequestMicroService; ResponseMicroService].

(** The member answers the comparison with each of the six markers as
    the identity test does. *)
Definition compares_by_identity (member : pyobj) : Prop :=
  Forall (fun marker => py_ne member marker = Ok (identity_ne member marker))
         markers.

End Filters.

(** ** Strings as Python sees them *)

(** The characters of a Python [str] (code points below 256). *)
Definition text := list ascii.

Definition text_of (s : string) : text := String.list_ascii_of_string s.
Definition str_of (t : text) : string := String.string_of_list_ascii t.

Definition chr (n : Z) : ascii := Ascii.ascii_of_N (Z.to_N n).
Definition ord (c : ascii) : Z := Z.of_N (Ascii.N_of_ascii c).

Definition ch_quote : ascii := chr 34.
Definition ch_backslash : ascii := chr 92.

Fixpoint is_prefix (p t : text) : bool :=
  match p, t with
  | [], _ => true
  | a :: p', b :: t' => Ascii.eqb a b && is_prefix p' t'
  | _ :: _, [] => false
  end.

(** [p in t] on two strings. *)
Fixpoint is_substring (p t : text) : bool :=
  is_prefix p t || match t with [] => false | _ :: t' => is_substring p t' end.

(** The scan of [str.replace] for a non-empty [old]: left to right,
    occurrences do not overlap.  [skip] counts the characters of the
    occurrence just replaced that are still to be dropped. *)
Fixpoint replace_go (old new : text) (skip : nat) (t : text) : text :=
  match t with
  | [] => []
  | c :: t' =>
      match skip with
      | S k => replace_go old new k t'
      | O => if is_prefix old t
             then new ++ replace_go old new (length old - 1) t'
             else c :: replace_go old new 0 t'
      end
  end.

(** [t.replace(old, new)]; an empty [old] matches between all characters. *)
Definition str_replace (old new t : text) : text :=
  match old with
  | [] => new ++ flat_map (fun c => c :: new) t
  | _ => replace_go old new 0 t
  end.

(** ** Operations on plain data *)

(** [bool(v)] *)
Definition truthy (v : pyvalue) : bool :=
  match v with
  | VNone => false
  | VBool b => b
  | VInt z => negb (z =? 0)
  | VStr s => negb (String.eqb s "")
  | VList l => match l with [] => false | _ => true end
  | VDict d => match d with [] => false | _ => true end
  end.

Fixpoint dict_get {V} (key : string) (d : list (string * V)) : option V :=
  match d with
  | [] => None
  | (k, v) :: d' => if String.eqb key k then Some v else dict_get key d'
  end.

(** [d[key] = v]: an existing key keeps its position. *)
Fixpoint dict_set {V} (key : string) (v : V) (d : list (string * V))
  : list (string * V) :=
  match d with
  | [] => [(key, v)]
  | (k, v') :: d' =>
      if String.eqb key k then (k, v) :: d' else (k, v') :: dict_set key v d'
  end.

(** [dict(pairs)] *)
Definition dict_of_pairs {V} (pairs : list (string * V)) : list (string * V) :=
  fold_left (fun d kv => dict_set (fst kv) (snd kv) d) pairs [].

Definition is_str (key : string) (v : pyvalue) : bool :=
  match v with VStr s => String.eqb s key | _ => false end.

(** [key in container] for a string [key]. *)
Definition py_contains (container : pyvalue) (key : string) : result bool :=
  match container with
  | VDict d => Ok (match dict_get key d with Some _ => true | None => false end)
  | VList l => Ok (existsb (is_str key) l)
  | VStr s => Ok (is_substring (text_of key) (text_of s))
  | VNone | VBool _ | VInt _ => Raise TypeError
  end.

(** [container[key]] for a string [key]. *)
Definition py_getitem (container : pyvalue) (key : string) : result pyvalue :=
  match container with
  | VDict d => match dict_get key d with
               | Some v => Ok v
               | None => Raise (KeyError key)
               end
  | _ => Raise TypeError
  end.

(** [bool(o)] on an object: only plain data can be false. *)
Definition truthy_obj (o : pyobj) : bool :=
  match o with OVal v => truthy v | _ => true end.

(** ** [json.dumps] *)

Definition hex_digit (n : Z) : ascii :=
  if n <? 10 then chr (48 + n) else chr (87 + n).

(** One character inside a JSON string, with [ensure_ascii]: the quote,
    the backslash and everything outside [' '..'~'] are escaped. *)
Definition escape_char (c : ascii) : text :=
  let n := ord c in
  if n =? 34 then [ch_backslash; ch_quote]
  else if n =? 92 then [ch_backslash; ch_backslash]
  else if n =? 10 then [ch_backslash; chr 110]
  else if n =? 13 then [ch_backslash; chr 114]
  else if n =? 9 then [ch_backslash; chr 116]
  else if n =? 8 then [ch_backslash; chr 98]
  else if n =? 12 then [ch_backslash; chr 102]
  else if (32 <=? n) && (n <=? 126) then [c]
  else [ch_backslash; chr 117; chr 48; chr 48;
        hex_digit (n / 16); hex_digit (n mod 16)].

Definition escape (s : text) : text := flat_map escape_char s.

Fixpoint render_uint (u : Decimal.uint) : text :=
  match u with
  | Decimal.Nil => []
  | Decimal.D0 u' => chr 48 :: render_uint u'
  | Decimal.D1 u' => chr 49 :: render_uint u'
  | Decimal.D2 u' => chr 50 :: render_uint u'
  | Decimal.D3 u' => chr 51 :: render_uint u'
  | Decimal.D4 u' => chr 52 :: render_uint u'
  | Decimal.D5 u' => chr 53 :: render_uint u'
  | Decimal.D6 u' => chr 54 :: render_uint u'
  | Decimal.D7 u' => chr 55 :: render_uint u'
  | Decimal.D8 u' => chr 56 :: render_uint u'
  | Decimal.D9 u' => chr 57 :: render_uint u'
  end.

(** [repr] of an [int]. *)
Definition render_int (z : Z) : text :=
  match Z.to_int z with
  | Decimal.Pos u => render_uint u
  | Decimal.Neg u => chr 45 :: render_uint u
  end.

Definition lit (s : string) : text := text_of s.

(** [sep.join(parts)] *)
Fixpoint join (sep : text) (parts : list text) : text :=
  match parts with
  | [] => []
  | [p] => p
  | p :: rest => p ++ sep ++ join sep rest
  end.

(** The serializer, parameterised by the rendering [body] of the
    characters between the quotes of a string. *)
Section Dumps.
Variable body : string -> text.

Definition dump_string (s : string) : text :=
  ch_quote :: body s ++ [ch_quote].

Fixpoint dumps_with (v : pyvalue) : text :=
  match v with
  | VNone => lit "null"
  | VBool true => lit "true"
  | VBool false => lit "false"
  | VInt z => render_int z
  | VStr s => dump_string s
  | VList l => lit "[" ++ join (lit ", ") (map dumps_with l) ++ lit "]"
  | VDict d =>
      lit "{"
      ++ join (lit ", ")
           (map (fun kv => dump_string (fst kv) ++ lit ": "
                           ++ dumps_with (snd kv)) d)
      ++ lit "}"
  end.
End Dumps.

(** [json.dumps(v)] with the default arguments. *)
Definition json_dumps (v : pyvalue) : text :=
  dumps_with (fun s => escape (text_of s)) v.

(** ** [json.loads] *)

(** The decoder is modelled on texts whose numbers are integers and
    whose [\u] escapes stay below U+0100, which is all [pyvalue] can
    hold; a float, [NaN], [Infinity] or a higher escape is refused. *)

Definition is_ws (c : ascii) : bool :=
  let n := ord c in (n =? 32) || (n =? 9) || (n =? 10) || (n =? 13).

Fixpoint skip_ws (t : text) : text :=
  match t with
  | c :: t' => if is_ws c then skip_ws t' else t
  | [] => []
  end.

Definition hex_value (c : ascii) : option Z :=
  let n := ord c in
  if (48 <=? n) && (n <=? 57) then Some (n - 48)
  else if (97 <=? n) && (n <=? 102) then Some (n - 87)
  else if (65 <=? n) && (n <=? 70) then Some (n - 55)
  else None.

(** The character named by a one-letter escape. *)
Definition unescape (c : ascii) : option ascii :=
  let n := ord c in
  if n =? 34 then Some ch_quote
  else if n =? 92 then Some ch_backslash
  else if n =? 47 then Some (chr 47)
  else if n =? 98 then Some (chr 8)
  else if n =? 102 then Some (chr 12)
  else if n =? 110 then Some (chr 10)
  else if n =? 114 then Some (chr 13)
  else if n =? 116 then Some (chr 9)
  else None.

Definition cons_to {A B} (a : A) (r : option (list A * B))
  : option (list A * B) :=
  match r with
  | Some (l, b) => Some (a :: l, b)
  | None => None
  end.

(** [scanstring], from just after the opening quote: the decoded
    characters and the text after the closing quote. *)
Fixpoint scan_string (t : text) : option (text * text) :=
  match t with
  | [] => None
  | c :: t1 =>
      let n := ord c in
      if n =? 34 then Some ([], t1)
      else if n =? 92 then
        match t1 with
        | [] => None
        | e :: t2 =>
            if ord e =? 117 then
              match t2 with
              | h1 :: h2 :: h3 :: h4 :: t3 =>
                  match hex_value h1, hex_value h2,
                        hex_value h3, hex_value h4 with
                  | Some a, Some b, Some c', Some d =>
                      let code := ((a * 16 + b) * 16 + c') * 16 + d in
                      if code <? 256
                      then cons_to (chr code) (scan_string t3)
                      else None
                  | _, _, _, _ => None
                  end
              | _ => None
              end
            else
              match unescape e with
              | Some x => cons_to x (scan_string t2)
              | None => None
              end
        end
      else if n <? 32 then None
      else cons_to c (scan_string t1)
  end.

Definition digit_of (c : ascii) : option (Decimal.uint -> Decimal.uint) :=
  let n := ord c in
  if n =? 48 then Some Decimal.D0
  else if n =? 49 then Some Decimal.D1
  else if n =? 50 then Some Decimal.D2
  else if n =? 51 then Some Decimal.D3
  else if n =? 52 then Some Decimal.D4
  else if n =? 53 then Some Decimal.D5
  else if n =? 54 then Some Decimal.D6
  else if n =? 55 then Some Decimal.D7
  else if n =? 56 then Some Decimal.D8
  else if n =? 57 then Some Decimal.D9
  else None.

(** The longest run of decimal digits at the head of the text. *)
Fixpoint lex_digits (t : text) : Decimal.uint * text :=
  match t with
  | [] => (Decimal.Nil, [])
  | c :: t' =>
      match digit_of c with
      | Some d => let '(u, r) := lex_digits t' in (d u, r)
      | None => (Decimal.Nil, t)
      end
  end.

(** A fraction or an exponent would start here. *)
Definition starts_float (t : text) : bool :=
  match t with
  | c :: _ => let n := ord c in (n =? 46) || (n =? 101) || (n =? 69)
  | [] => false
  end.

(** An integer literal: an optional sign, then [0] or a run of digits
    that does not start with [0], not followed by a fraction or an
    exponent. *)
Definition scan_number (t : text) : option (Z * text) :=
  let '(negative, t1) :=
    match t with
    | c :: t' => if ord c =? 45 then (true, t') else (false, t)
    | [] => (false, [])
    end in
  let '(u, r) := lex_digits t1 in
  match u with
  | Decimal.Nil => None
  | Decimal.D0 (Decimal.D0 _ | Decimal.D1 _ | Decimal.D2 _ | Decimal.D3 _
               | Decimal.D4 _ | Decimal.D5 _ | Decimal.D6 _ | Decimal.D7 _
               | Decimal.D8 _ | Decimal.D9 _) => None
  | _ =>
      if starts_float r then None
      else Some (if negative then - Z.of_uint u else Z.of_uint u, r)
  end.

Definition strip (p t : text) : option text :=
  if is_prefix p t then Some (drop (length p) t) else None.

(** [scan_once] and the array and object loops; [fuel] bounds the
    number of nested and successive calls, one character each at least. *)
Fixpoint scan_value (fuel : nat) (t : text) : option (pyvalue * text) :=
  match fuel with
  | O => None
  | S fuel' =>
      match t with
      | [] => None
      | c :: t1 =>
          let n := ord c in
          if n =? 34 then
            match scan_string t1 with
            | Some (s, r) => Some (VStr (str_of s), r)
            | None => None
            end
          else if n =? 123 then
            match skip_ws t1 with
            | c1 :: r =>
                if ord c1 =? 125 then Some (VDict [], r)
                else if ord c1 =? 34 then
                  match scan_members fuel' r with
                  | Some (pairs, r') => Some (VDict (dict_of_pairs pairs), r')
                  | None => None
                  end
                else None
            | [] => None
            end
          else if n =? 91 then
            match skip_ws t1 with
            | c1 :: r =>
                if ord c1 =? 93 then Some (VList [], r)
                else
                  match scan_items fuel' (c1 :: r) with
                  | Some (items, r') => Some (VList items, r')
                  | None => None
                  end
            | [] => None
            end
          else
            match strip (lit "null") t, strip (lit "true") t,
                  strip (lit "false") t with
            | Some r, _, _ => Some (VNone, r)
            | _, Some r, _ => Some (VBool true, r)
            | _, _, Some r => Some (VBool false, r)
            | None, None, None =>
                match scan_number t with
                | Some (z, r) => Some (VInt z, r)
                | None => None
                end
            end
      end
  end

(** The items of an array, from the first character of an item. *)
with scan_items (fuel : nat) (t : text) : option (list pyvalue * text) :=
  match fuel with
  | O => None
  | S fuel' =>
      match scan_value fuel' t with
      | Some (v, r) =>
          match skip_ws r with
          | c :: r1 =>
              if ord c =? 93 then Some ([v], r1)
              else if ord c =? 44 then
                cons_to v (scan_items fuel' (skip_ws r1))
              else None
          | [] => None
          end
      | None => None
      end
  end

(** The members of an object, from just after the opening quote of a
    key. *)
with scan_members (fuel : nat) (t : text)
  : option (list (string * pyvalue) * text) :=
  match fuel with
  | O => None
  | S fuel' =>
      match scan_string t with
      | Some (k, r) =>
          match skip_ws r with
          | c :: r1 =>
              if ord c =? 58 then
                match scan_value fuel' (skip_ws r1) with
                | Some (v, r2) =>
                    match skip_ws r2 with
                    | c2 :: r3 =>
                        if ord c2 =? 125 then Some ([(str_of k, v)], r3)
                        else if ord c2 =? 44 then
                          match skip_ws r3 with
                          | c3 :: r4 =>
                              if ord c3 =? 34
                              then cons_to (str_of k, v) (scan_members fuel' r4)
                              else None
                          | [] => None
                          end
                        else None
                    | [] => None
                    end
                | None => None
                end
              else None
          | [] => None
          end
      | None => None
      end
  end.

(** [json.loads(t)]: one value, white space around it, nothing else.
    This is [json.loads] on the texts that hold values of the model.
    A text with a number that has a fraction or an exponent, with [NaN]
    or [Infinity], or with an escape [\u] of a character from [0100]
    on is outside it: [json.loads] parses such a text to a float or to
    a character that a [pyvalue] does not have, and [json_loads]
    refuses it.  The serialization of a [pyvalue] is never such a
    text. *)
Definition json_loads (t : text) : result pyvalue :=
  match scan_value (S (length t)) (skip_ws t) with
  | Some (v, r) =>
      match skip_ws r with
      | [] => Ok v
      | _ :: _ => Raise JSONDecodeError
      end
  | None => Raise JSONDecodeError
  end.

(** ** Substitution at the source *)

(** [f] applied to every string of a value, keys included; a dictionary
    is rebuilt key by key, so keys that become equal collapse as they do
    in Python. *)
Fixpoint map_strings (f : string -> string) (v : pyvalue) : pyvalue :=
  match v with
  | VStr s => VStr (f s)
  | VList l => VList (map (map_strings f) l)
  | VDict d =>
      VDict (dict_of_pairs
               (map (fun kv => (f (fst kv), map_strings f (snd kv))) d))
  | _ => v
  end.

Definition replace_in_str (old new s : string) : string :=
  str_of (str_replace (text_of old) (text_of new) (text_of s)).

(** The two tokens replaced in every string of the configuration, in
    the order of the loader: [<base_url>], then [<name>]. *)
Definition substitute_tokens (base_url name : string) (cfg : pyvalue)
  : pyvalue :=
  map_strings
    (fun s => replace_in_str "<name>" name
                (replace_in_str "<base_url>" base_url s))
    cfg.

(** ** The world around the loader *)

(** An endpoint plugin as [_load_endpoint_modules] reads it: the
    attributes [module], [name] and [config]. *)
Record plugin_attributes := {
  module : pyobj;
  name : string;
  config : pyvalue
}.

Record World := {
  (** [cls.__mro__] *)
  class_mro : class_id -> list class_id;
  (** [plugin_source.load_plugin(name)] for a search path: the members
      of the module as [inspect.getmembers] lists them (name and value,
      sorted by name), or the exception of the import. *)
  load_plugin : list string -> string -> result (list (string * pyobj));
  (** The exception raised by a call, if it raises. *)
  call_raises : pyobj -> list pyobj -> option exn;
  (** [open(path)]: the exception it raises ([IOError] when there is no
      such file or it cannot be opened, [ValueError] for a path that
      holds a NUL character, ...), otherwise what [f.read()] gives. *)
  open_file : string -> result (result string);
  (** [pydoc.locate(path)]; [OVal VNone] when nothing is found. *)
  locate : string -> result pyobj;
  (** [yaml.safe_load(text)] *)
  safe_load : string -> result pyvalue;
  (** The attributes of a loaded endpoint plugin, if it has them. *)
  attributes : pyobj -> option plugin_attributes
}.

(** ** State, effects and exceptions *)

Inductive level := DEBUG | INFO | WARNING | ERROR.

(** What the loader does to the outside, in order: log records (the
    format string and the values formatted into it), files it tries to
    open, paths given to [pydoc.locate], attributes looked up in its own
    module, and calls. *)
Inductive event :=
| Logged (lvl : level) (format : string) (values : list string)
| Opened (path : string)
| Located (path : string)
| Resolved (attribute : string)
| Called (callee : pyobj) (args : list pyobj).

(** The local variables of [_load_plugins] that outlive one iteration,
    and the trace of effects. [local_config] is the local [config]:
    unbound until an endpoint plugin has been read from a file. *)
Record state := {
  loaded_plugins : list pyobj;
  loaded_plugin_names : list string;
  local_config : option pyvalue;
  trace : list event
}.

Definition M (A : Type) : Type := state -> result A * state.

Definition ret {A} (a : A) : M A := fun st => (Ok a, st).
Definition raise {A} (e : exn) : M A := fun st => (Raise e, st).
Definition bind {A B} (m : M A) (k : A -> M B) : M B :=
  fun st =>
    match m st with
    | (Ok a, st') => k a st'
    | (Raise e, st') => (Raise e, st')
    end.
Definition lift {A} (r : result A) : M A := fun st => (r, st).

Declare Scope loader_scope.
Delimit Scope loader_scope with loader.
Notation "x <- m ;; k" := (bind m (fun x => k))
  (at level 100, m at next level, right associativity) : loader_scope.
Notation "m ;;; k" := (bind m (fun _ => k))
  (at level 100, right associativity) : loader_scope.
Local Open Scope loader_scope.

Definition emit (e : event) : M unit :=
  fun st =>
    (Ok tt, {| loaded_plugins := loaded_plugins st;
               loaded_plugin_names := loaded_plugin_names st;
               local_config := local_config st;
               trace := trace st ++ [e] |}).

Definition append_plugin (o : pyobj) : M unit :=
  fun st =>
    (Ok tt, {| loaded_plugins := loaded_plugins st ++ [o];
               loaded_plugin_names := loaded_plugin_names st;
               local_config := local_config st;
               trace := trace st |}).

Definition append_name (n : string) : M unit :=
  fun st =>
    (Ok tt, {| loaded_plugins := loaded_plugins st;
               loaded_plugin_names := loaded_plugin_names st ++ [n];
               local_config := local_config st;
               trace := trace st |}).

Definition assign_config (v : pyvalue) : M unit :=
  fun st =>
    (Ok tt, {| loaded_plugins := loaded_plugins st;
               loaded_plugin_names := loaded_plugin_names st;
               local_config := Some v;
               trace := trace st |}).

Definition read_config : M pyvalue :=
  fun st =>
    match local_config st with
    | Some v => (Ok v, st)
    | None => (Raise (UnboundLocalError "config"), st)
    end.

Definition get_loaded_plugins : M (list pyobj) :=
  fun st => (Ok (loaded_plugins st), st).

Definition get_loaded_plugin_names : M (list string) :=
  fun st => (Ok (loaded_plugin_names st), st).

(** Fresh locals at the entry of [_load_plugins]. *)
Definition enter : M unit :=
  fun st =>
    (Ok tt, {| loaded_plugins := []; loaded_plugin_names := [];
               local_config := None; trace := trace st |}).

(** [try: body except ...: handler]; [handler e] is [None] when no
    clause matches [e].  What a handler raises is not caught by the
    other clauses of the same statement. *)
Definition try_except {A} (body : M A) (handler : exn -> option (M A)) : M A :=
  fun st =>
    match body st with
    | (Ok a, st') => (Ok a, st')
    | (Raise e, st') =>
        match handler e with
        | Some h => h st'
        | None => (Raise e, st')
        end
    end.

Fixpoint for_each {X} (l : list X) (f : X -> M unit) : M unit :=
  match l with
  | [] => ret tt
  | x :: l' => f x ;;; for_each l' f
  end.

(** A call of [f] on [args]: plain data is not callable; otherwise the world says
    whether the call raises, and the result is the instance. *)
Definition call (W : World) (f : pyobj) (args : list pyobj) : M pyobj :=
  match f with
  | OVal _ => raise TypeError
  | _ =>
      emit (Called f args) ;;;
      match call_raises W f args with
      | Some e => raise e
      | None => ret (OInst f args)
      end
  end.

Definition ostr (s : string) : pyobj := OVal (VStr s).

(** ** The configuration reader *)

Definition _load_plugin_config (W : World) (config : string) : M pyvalue :=
  match safe_load W config with
  | Ok v => ret v
  | Raise exc =>
      match exc with
      | YAMLError NoMarkAttribute => ret VNone
      | YAMLError MarkIsNone => raise AttributeError
      | YAMLError (Mark line column) =>
          emit (Logged ERROR "Error position: (%s:%s)"
                  [str_of (render_int (line + 1));
                   str_of (render_int (column + 1))]) ;;;
          raise (SATOSAConfigurationError "The configuration is corrupt." exc)
      | _ => raise exc
      end
  end.

(** ** The endpoint module assembler *)

(** The keys of a dictionary filled in the order of [names]. *)
Fixpoint key_order (names : list string) (seen : list string) : list string :=
  match names with
  | [] => seen
  | n :: rest =>
      key_order rest (if existsb (String.eqb n) seen then seen else seen ++ [n])
  end.

Fixpoint assemble (W : World) (base_url : string) (callback : pyobj)
         (internal_attributes : pyvalue) (plugins : list pyobj)
         (endpoint_modules : gmap string pyobj)
         (keys : list string) : M (gmap string pyobj * list string) :=
  match plugins with
  | [] => ret (endpoint_modules, keys)
  | plugin :: rest =>
      match attributes W plugin with
      | None => raise AttributeError
      | Some p =>
          module_inst <- call W (module p)
                           [callback; OVal internal_attributes;
                            OVal (config p); ostr base_url; ostr (name p)] ;;
          assemble W base_url callback internal_attributes rest
                   (<[name p := module_inst]> endpoint_modules)
                   (key_order [name p] keys)
      end
  end.

Definition _load_endpoint_modules (W : World) (base_url : string)
           (plugins : list pyobj) (callback : pyobj)
           (internal_attributes : pyvalue) : M (gmap string pyobj) :=
  r <- assemble W base_url callback internal_attributes plugins ∅ [] ;;
  emit (Logged INFO "Loaded modules: %s" (snd r)) ;;;
  ret (fst r).

(** ** The plugin loader *)

(** What the loader finds in the global scope of its module when it
    runs: the object bound to the free name [_config_loader], if any,
    and the attributes read by [getattr(sys.modules[__name__], ...)]. *)
Record Globals := {
  config_loader : option (string -> M pyvalue);
  module_attr : string -> option pyobj
}.

(** The attributes every module object has besides the names it binds:
    those of its own dictionary and those of its type. *)
Definition module_dunders : list (string * pyobj) :=
  [("__name__", OVal (VStr "satosa.plugin_loader"));
   ("__package__", OVal (VStr "satosa"));
   ("__doc__", OOpaque "__doc__"); ("__file__", OOpaque "__file__");
   ("__cached__", OOpaque "__cached__"); ("__loader__", OOpaque "__loader__");
   ("__spec__", OOpaque "__spec__"); ("__builtins__", OOpaque "__builtins__");
   ("__dict__", OOpaque "__dict__"); ("__class__", OOpaque "module");
   ("__delattr__", OOpaque "__delattr__"); ("__dir__", OOpaque "__dir__");
   ("__eq__", OOpaque "__eq__"); ("__format__", OOpaque "__format__");
   ("__ge__", OOpaque "__ge__");
   ("__getattribute__", OOpaque "__getattribute__");
   ("__gt__", OOpaque "__gt__"); ("__hash__", OOpaque "__hash__");
   ("__init__", OOpaque "__init__");
   ("__init_subclass__", OOpaque "__init_subclass__");
   ("__le__", OOpaque "__le__"); ("__lt__", OOpaque "__lt__");
   ("__ne__", OOpaque "__ne__"); ("__new__", OOpaque "__new__");
   ("__reduce__", OOpaque "__reduce__");
   ("__reduce_ex__", OOpaque "__reduce_ex__");
   ("__repr__", OOpaque "__repr__"); ("__setattr__", OOpaque "__setattr__");
   ("__sizeof__", OOpaque "__sizeof__"); ("__str__", OOpaque "__str__");
   ("__subclasshook__", OOpaque "__subclasshook__")].

(** The names bound at the top level of [plugin_loader.py]: its imports,
    its logger and its functions. *)
Definition module_namespace : list (string * pyobj) :=
  [("inspect", OOpaque "inspect"); ("json", OOpaque "json");
   ("logging", OOpaque "logging"); ("os", OOpaque "os");
   ("sys", OOpaque "sys"); ("locate", OOpaque "pydoc.locate");
   ("yaml", OOpaque "yaml"); ("PluginBase", OOpaque "PluginBase");
   ("YAMLError", OOpaque "YAMLError");
   ("SATOSAConfigurationError", OOpaque "SATOSAConfigurationError");
   ("MicroService", OClass MicroService);
   ("RequestMicroService", OClass RequestMicroService);
   ("ResponseMicroService", OClass ResponseMicroService);
   ("build_micro_service_queue", OOpaque "build_micro_service_queue");
   ("InterfaceModulePlugin", OClass InterfaceModulePlugin);
   ("BackendModulePlugin", OClass BackendModulePlugin);
   ("FrontendModulePlugin", OClass FrontendModulePlugin);
   ("logger", OOpaque "logger");
   ("load_backends", OOpaque "load_backends");
   ("load_frontends", OOpaque "load_frontends");
   ("_member_filter", OOpaque "_member_filter");
   ("backend_filter", OOpaque "backend_filter");
   ("frontend_filter", OOpaque "frontend_filter");
   ("_micro_service_filter", OOpaque "_micro_service_filter");
   ("_request_micro_service_filter", OOpaque "_request_micro_service_filter");
   ("_response_micro_service_filter", OOpaque "_response_micro_service_filter");
   ("_load_endpoint_modules", OOpaque "_load_endpoint_modules");
   ("_load_plugin_config", OOpaque "_load_plugin_config");
   ("_readfile", OOpaque "_readfile");
   ("_load_plugins", OOpaque "_load_plugins");
   ("load_micro_services", OOpaque "load_micro_services")].

(** The module as it is written: nothing binds [_config_loader]. *)
Definition plugin_loader_globals : Globals :=
  {| config_loader := None;
     module_attr := fun n => dict_get n (module_namespace ++ module_dunders) |}.

(** ["%s/%s" % (path, module_file_name)] *)
Definition file_of (path module_file_name : string) : string :=
  path +:+ "/" +:+ module_file_name.

(** [inspect.getmembers(module, predicate)] *)
Fixpoint getmembers (members : list (string * pyobj))
         (predicate : pyobj -> result bool) : result (list (string * pyobj)) :=
  match members with
  | [] => Ok []
  | m :: rest =>
      (keep <-? predicate (snd m);
       found <-? getmembers rest predicate;
       Ok (if keep then m :: found else found))%result
  end.

(** [all(k in container for k in keys)] *)
Fixpoint all_in (container : pyvalue) (keys : list string) : result bool :=
  match keys with
  | [] => Ok true
  | k :: rest =>
      (present <-? py_contains container k;
       if present then all_in container rest else Ok false)%result
  end.

(** Lines 292 and 293: any [Exception] raised while the parsed file is
    handled is logged with its traceback and dropped. *)
Definition cannot_create (module_file_name : string) : event :=
  Logged ERROR "Cannot create the module %s." [module_file_name].

Definition skip_handler (module_file_name : string) (e : exn) : option (M unit) :=
  if is_Exception e then Some (emit (cannot_create module_file_name)) else None.

Section Loader.

Variable W : World.
Variable G : Globals.
Variable plugin_path : list string.
Variable plugin_filter : pyobj -> result bool.
Variable filter_class : string.
Variable base_url : string.
Variable internal_attributes : pyvalue.
Variable args : list pyobj.

(** [pydoc.locate(v)] *)
Definition locate_value (v : pyvalue) : M pyobj :=
  match v with
  | VStr path => emit (Located path) ;;; lift (locate W path)
  | _ => raise AttributeError
  end.

(** [getattr(sys.modules[__name__], v)] *)
Definition getattr_module (v : pyvalue) : M pyobj :=
  match v with
  | VStr n =>
      emit (Resolved n) ;;;
      match module_attr G n with
      | Some o => ret o
      | None => raise AttributeError
      end
  | _ => raise TypeError
  end.

(** The text handed to [json.loads]: the serialized configuration
    with both tokens replaced. *)
Definition substituted_text (name : string) (cfg : pyvalue) : text :=
  str_replace (lit "<name>") (text_of name)
    (str_replace (lit "<base_url>") (text_of base_url) (json_dumps cfg)).

(** Lines 276 to 283: the local [config] goes from the serialized
    text through both replacements to the parsed value. *)
Definition render_config (name : pyvalue) (cfg : pyvalue) : M pyvalue :=
  let config0 := json_dumps cfg in
  assign_config (VStr (str_of config0)) ;;;
  let config1 := str_replace (lit "<base_url>") (text_of base_url) config0 in
  assign_config (VStr (str_of config1)) ;;;
  match name with
  | VStr n =>
      assign_config (VStr (str_of (substituted_text n cfg))) ;;;
      parsed <- lift (json_loads (substituted_text n cfg)) ;;
      assign_config parsed ;;;
      ret parsed
  | _ => raise TypeError
  end.

Definition load_micro_service_from (module_file_name : string)
           (_config : pyvalue) : M unit :=
  complete <- lift (all_in _config ["plugin"; "module"]) ;;
  if complete : bool then
    path <- lift (py_getitem _config "module") ;;
    module_class <- locate_value path ;;
    has_config <- lift (py_contains _config "config") ;;
    instance <-
      (if has_config : bool then
         cfg <- lift (py_getitem _config "config") ;;
         call W module_class [OVal internal_attributes; OVal cfg]
       else call W module_class [OVal internal_attributes]) ;;
    append_plugin instance
  else
    emit (Logged WARNING
            "Missing mandatory configuration parameters in the micro service plugin %s ('plugin', 'module')."
            [module_file_name]).

Definition load_endpoint_from (module_file_name : string)
           (_config : pyvalue) : M unit :=
  complete <- lift (all_in _config ["name"; "plugin"; "module"; "config"]) ;;
  if complete : bool then
    plugin <- lift (py_getitem _config "plugin") ;;
    plugin_class <- getattr_module plugin ;;
    path <- lift (py_getitem _config "module") ;;
    module_class <- locate_value path ;;
    if negb (truthy_obj module_class) then
      match path with
      | VStr p => raise (ValueError ("Can't find module '" +:+ p +:+ "'"))
      | _ => raise TypeError
      end
    else
      name <- lift (py_getitem _config "name") ;;
      cfg <- lift (py_getitem _config "config") ;;
      config <- render_config name cfg ;;
      module <- call W plugin_class [module_class; OVal name; OVal config] ;;
      append_plugin module ;;;
      append_name module_file_name
  else
    emit (Logged WARNING
            "Missing mandatory configuration parameters in the plugin %s (plugin, module, receiver and/or config)."
            [module_file_name]).

(** Lines 251 to 293: what is done with the parsed file. *)
Definition declarative_branch (module_file_name : string)
           (_config : pyvalue) : M unit :=
  if truthy _config then
    try_except
      (has_plugin <- lift (py_contains _config "plugin") ;;
       is_micro_service <-
         (if has_plugin : bool then
            plugin <- lift (py_getitem _config "plugin") ;;
            lift (py_contains plugin "MicroService")
          else ret false) ;;
       if is_micro_service : bool
       then load_micro_service_from module_file_name _config
       else load_endpoint_from module_file_name _config)
      (skip_handler module_file_name)
  else ret tt.

(** The test that ends the scan of the search path (line 248); it
    reads the local [config], not [_config]. *)
Definition found_config (_config : pyvalue) : M bool :=
  if truthy _config then
    has_plugin <- lift (py_contains _config "plugin") ;;
    if has_plugin : bool then
      config <- read_config ;;
      plugin <- lift (py_getitem config "plugin") ;;
      ret (is_str filter_class plugin)
    else ret false
  else ret false.

(** Lines 240 to 249: the scan of the search path.  Only the [IOError]
    of [open] moves on to the next directory; any other exception of
    [open] leaves the loop. *)
Fixpoint scan_paths (paths : list string) (module_file_name : string)
         (_config : pyvalue) : M pyvalue :=
  match paths with
  | [] => ret _config
  | path :: rest =>
      let file := file_of path module_file_name in
      emit (Opened file) ;;;
      match open_file W file with
      | Raise IOError => scan_paths rest module_file_name _config
      | Raise e => raise e
      | Ok content =>
          match config_loader G with
          | None => raise (NameError "_config_loader")
          | Some _config_loader =>
              data <- lift content ;;
              _config <- _config_loader data ;;
              stop <- found_config _config ;;
              if stop : bool then ret _config
              else scan_paths rest module_file_name _config
          end
      end
  end.

(** Lines 233 to 236: the members of a code module that pass the
    filter, each called with the base URL and the extra arguments. *)
Definition load_code_plugin (module_file_name : string) : M unit :=
  module <- lift (load_plugin W plugin_path module_file_name) ;;
  found <- lift (getmembers module plugin_filter) ;;
  for_each found
    (fun member =>
       instance <- call W (snd member) (ostr base_url :: args) ;;
       append_plugin instance ;;;
       append_name module_file_name).

(** Lines 238 to 293: the handler of [ImportError]. *)
Definition declarative_fallback (module_file_name reason : string) : M unit :=
  emit (Logged DEBUG "Not a py file or import error '%s': %s"
          [module_file_name; reason]) ;;;
  _config <- scan_paths plugin_path module_file_name VNone ;;
  declarative_branch module_file_name _config.

(** The body of the loop over the plugin identifiers. *)
Definition load_one (module_file_name : string) : M unit :=
  try_except
    (load_code_plugin module_file_name)
    (fun error =>
       match error with
       | ImportError reason =>
           Some (declarative_fallback module_file_name reason)
       | _ =>
           if is_Exception error then
             Some (emit (Logged ERROR "The configuration file %s is corrupt."
                           [module_file_name]) ;;;
                   raise (SATOSAConfigurationError
                            ("The configuration file " +:+ module_file_name
                             +:+ " is corrupt.") error))
           else None
       end).

Definition _load_plugins (plugins : list string) : M (list pyobj) :=
  enter ;;;
  for_each plugins load_one ;;;
  names <- get_loaded_plugin_names ;;
  emit (Logged DEBUG "Loaded plugins: {}" names) ;;;
  get_loaded_plugins.

End Loader.

(** ** The entry points *)

Record SATOSAConfig := {
  BASE : string;
  PLUGIN_PATH : list string;
  BACKEND_MODULES : list string;
  FRONTEND_MODULES : list string
}.

Definition load_backends (W : World) (G : Globals) (config : SATOSAConfig)
           (callback : pyobj) (internal_attributes : pyvalue)
  : M (gmap string pyobj) :=
  plugins <- _load_plugins W G (PLUGIN_PATH config)
               (backend_filter (class_mro W))
               (class_name BackendModulePlugin) (BASE config) VNone []
               (BACKEND_MODULES config) ;;
  _load_endpoint_modules W (BASE config) plugins callback internal_attributes.

Definition load_frontends (W : World) (G : Globals) (config : SATOSAConfig)
           (callback : pyobj) (internal_attributes : pyvalue)
  : M (gmap string pyobj) :=
  plugins <- _load_plugins W G (PLUGIN_PATH config)
               (frontend_filter (class_mro W))
               (class_name FrontendModulePlugin) (BASE config) VNone []
               (FRONTEND_MODULES config) ;;
  _load_endpoint_modules W (BASE config) plugins callback internal_attributes.

(** ** The micro-service chain *)

(** Modelled from the spec: [build_micro_service_queue], imported from
    [satosa/micro_service/service_base.py], which is not among the
    sources.  The chain is a linked traversal structure with forward
    links in the order of the list; the empty list gives the explicit
    null sentinel.  Invoking the chain invokes the first element, and
    each element invokes the next one it was handed. *)
Inductive chain :=
| Link (service : pyobj) (next : option chain).

(** Modelled from the spec: the forward links of the builder (spec 4.7),
    each service linked to the one declared after it. *)
Fixpoint link_services (first : pyobj) (others : list pyobj) : chain :=
  match others with
  | [] => Link first None
  | second :: rest => Link first (Some (link_services second rest))
  end.

(** Modelled from the spec: [build_micro_service_queue] itself, absent
    from the sources: the entry point of the chain, or the null
    sentinel for an empty list (spec 3 and 4.7). *)
Definition build_micro_service_queue (service_list : list pyobj)
  : option chain :=
  match service_list with
  | [] => None
  | first :: others => Some (link_services first others)
  end.

(** The services met when following the links from the entry point. *)
Fixpoint traverse (c : chain) : list pyobj :=
  match c with
  | Link service None => [service]
  | Link service (Some next) => service :: traverse next
  end.

Definition visited (entry : option chain) : list pyobj :=
  match entry with
  | None => []
  | Some c => traverse c
  end.

(** Modelled from the spec: invoking the chain (spec 4.7), where the
    processing done by a service [s] is [process s] and each service
    hands its result to the next one; no entry point, no change. *)
Fixpoint invoke {D} (process : pyobj -> D -> D) (c : chain) (data : D) : D :=
  match c with
  | Link service None => process service data
  | Link service (Some next) => invoke process next (process service data)
  end.

Definition invoke_queue {D} (process : pyobj -> D -> D)
           (entry : option chain) (data : D) : D :=
  match entry with
  | None => data
  | Some c => invoke process c data
  end.

(** [k.__class__.__name__] *)
Definition instance_class_name (o : pyobj) : string :=
  match o with
  | OInst (OClass c) _ | OInst (OCustom _ (Some c) _) _ => class_name c
  | OInst (OOpaque n) _ => n
  | _ => "object"
  end.

Definition load_micro_services (W : World) (G : Globals)
           (plugin_path : list string) (plugins : list string)
           (internal_attributes : pyvalue)
  : M (option chain * option chain) :=
  request_services <- _load_plugins W G plugin_path
                        (_request_micro_service_filter (class_mro W))
                        (class_name RequestMicroService) "" VNone []
                        plugins ;;
  response_services <- _load_plugins W G plugin_path
                         (_response_micro_service_filter (class_mro W))
                         (class_name ResponseMicroService) ""
                         internal_attributes [] plugins ;;
  emit (Logged INFO "Loaded request micro services: %s"
          (map instance_class_name request_services)) ;;;
  emit (Logged INFO "Loaded response micro services: %s"
          (map instance_class_name response_services)) ;;;
  ret (build_micro_service_queue request_services,
       build_micro_service_queue response_services).

(** A run starts with an empty trace. *)
Definition initial : state :=
  {| loaded_plugins := []; loaded_plugin_names := [];
     local_config := None; trace := [] |}.

(** ** Vocabulary of the statements *)

Definition callable (o : pyobj) : bool :=
  match o with OVal _ => false | _ => true end.

(** The arguments [_load_endpoint_modules] gives to the module type of a
    plugin, and the instance that comes back. *)
Definition endpoint_args (base_url : string) (callback : pyobj)
           (internal_attributes : pyvalue) (p : plugin_attributes)
  : list pyobj :=
  [callback; OVal internal_attributes; OVal (config p);
   ostr base_url; ostr (name p)].

Definition endpoint_instance (base_url : string) (callback : pyobj)
           (internal_attributes : pyvalue) (p : plugin_attributes) : pyobj :=
  OInst (module p) (endpoint_args base_url callback internal_attributes p).

(** The last plugin of the list that carries the name [n]. *)
Definition last_named (n : string) (l : list plugin_attributes)
  : option plugin_attributes :=
  last (filter (fun p => name p = n) l).

(** The table after the loop: one insertion per plugin, in list order. *)
Definition insert_all (base_url : string) (callback : pyobj)
           (internal_attributes : pyvalue) (l : list plugin_attributes)
           (table : gmap string pyobj) : gmap string pyobj :=
  fold_left
    (fun t p =>
       <[name p := endpoint_instance base_url callback internal_attributes p]> t)
    l table.

(** A call that returns. *)
Definition returns (W : World) (f : pyobj) (args : list pyobj) : bool :=
  callable f && match call_raises W f args with None => true | Some _ => false end.

(** No directory of the search path holds the file: every [open]
    fails with [IOError]. *)
Definition absent (W : World) (plugin_path : list string)
           (module_file_name : string) : bool :=
  forallb (fun path =>
             match open_file W (file_of path module_file_name) with
             | Raise IOError => true
             | _ => false
             end) plugin_path.

(** A directory of the search path holds the file, and every [open]
    before it failed with [IOError]: the scan comes to a file. *)
Fixpoint present (W : World) (plugin_path : list string)
         (module_file_name : string) : bool :=
  match plugin_path with
  | [] => false
  | path :: rest =>
      match open_file W (file_of path module_file_name) with
      | Ok _ => true
      | Raise IOError => present W rest module_file_name
      | Raise _ => false
      end
  end.

(** The exception that is no [IOError] and that [open] raises before
    the scan has come to a file, if there is one. *)
Fixpoint scan_failure (W : World) (plugin_path : list string)
         (module_file_name : string) : option exn :=
  match plugin_path with
  | [] => None
  | path :: rest =>
      match open_file W (file_of path module_file_name) with
      | Ok _ => None
      | Raise IOError => scan_failure W rest module_file_name
      | Raise e => Some e
      end
  end.

(** The plugins an identifier contributes when nothing goes wrong on
    the way: the instances of the accepted members of its code module,
    each built from the base URL and the extra arguments, or nothing
    when it is neither a code module nor a file of the search path. *)
Definition contribution (W : World) (plugin_path : list string)
           (plugin_filter : pyobj -> result bool) (base_url : string)
           (args : list pyobj) (module_file_name : string)
  : option (list pyobj) :=
  match load_plugin W plugin_path module_file_name with
  | Ok members =>
      match getmembers members plugin_filter with
      | Ok found =>
          if forallb (fun m => returns W (snd m) (ostr base_url :: args)) found
          then Some (map (fun m => OInst (snd m) (ostr base_url :: args)) found)
          else None
      | Raise _ => None
      end
  | Raise (ImportError _) =>
      if absent W plugin_path module_file_name then Some [] else None
  | Raise _ => None
  end.

(** The category of a parsed declarative file, as line 254 decides it. *)
Definition is_micro_service (_config : pyvalue) : result bool :=
  (has_plugin <-? py_contains _config "plugin";
   if has_plugin : bool then
     plugin <-? py_getitem _config "plugin";
     py_contains plugin "MicroService"
   else Ok false)%result.

Definition required_keys (micro_service : bool) : list string :=
  if micro_service then ["plugin"; "module"]
  else ["name"; "plugin"; "module"; "config"].

Definition is_lookup (e : event) : bool :=
  match e with
  | Located _ | Resolved _ | Called _ _ => true
  | _ => false
  end.

(** A character that may stand as it is between the quotes of a JSON
    string: no quote, no backslash, no control character. *)
Definition plain_char (c : ascii) : bool :=
  let n := ord c in negb (n =? 34) && negb (n =? 92) && (32 <=? n).

Definition json_safe (s : string) : bool := forallb plain_char (text_of s).

(** The instances built from the accepted members of a code module. *)
Definition instances (base_url : string) (args : list pyobj)
           (found : list (string * pyobj)) : list pyobj :=
  map (fun m => OInst (snd m) (ostr base_url :: args)) found.

(** [module_file_name] is a code module that imports, whose members
    accepted by the filter are [found], all of which can be built. *)
Definition loads_as_code (W : World) (plugin_path : list string)
           (plugin_filter : pyobj -> result bool) (base_url : string)
           (args : list pyobj) (module_file_name : string)
           (found : list (string * pyobj)) : Prop :=
  exists members,
    load_plugin W plugin_path module_file_name = Ok members
    /\ getmembers members plugin_filter = Ok found
    /\ forallb (fun m => returns W (snd m) (ostr base_url :: args)) found = true.

(** A state with some more events in its trace. *)
Definition logging (st : state) (events : list event) : state :=
  {| loaded_plugins := loaded_plugins st;
     loaded_plugin_names := loaded_plugin_names st;
     local_config := local_config st;
     trace := trace st ++ events |}.


(** A character [json.dumps] writes as it is. *)
Definition verbatim_char (c : ascii) : bool :=
  let n := ord c in
  (32 <=? n) && (n <=? 126) && negb (n =? 34) && negb (n =? 92).

(** [encodes t s]: the text [t] between two quotes stands for the
    characters [s]; a character is written as it is when that is
    allowed, or by its escape sequence when [json.dumps] would escape
    it. *)
Inductive encodes : text -> text -> Prop :=
| encodes_nil : encodes [] []
| encodes_plain c t s :
    plain_char c = true -> encodes t s -> encodes (c :: t) (c :: s)
| encodes_escape c t s :
    verbatim_char c = false -> encodes t s ->
    encodes (escape_char c ++ t) (c :: s).

(** The opening character of both tokens. *)
Definition ch_lt : ascii := chr 60.

(** What follows a value in a serialized document: nothing, a comma, or
    a closing bracket or brace. *)
Definition closes (rest : text) : bool :=
  match rest with
  | [] => true
  | c :: _ => let n := ord c in (n =? 44) || (n =? 93) || (n =? 125)
  end.

(** A run of digits as [repr] writes it: [0], or no leading zero. *)
Definition normal (u : Decimal.uint) : Prop :=
  match u with
  | Decimal.Nil => False
  | Decimal.D0 Decimal.Nil => True
  | Decimal.D0 _ => False
  | _ => True
  end.

(** The members of a serialized dictionary from just after the opening
    quote of the first key up to the closing brace. *)
Fixpoint members_text (body : string -> text) (d : list (string * pyvalue))
  : text :=
  match d with
  | [] => []
  | kv :: d' =>
      body (fst kv) ++ ch_quote :: lit ": " ++ dumps_with body (snd kv)
      ++ match d' with
         | [] => []
         | _ :: _ => lit ", " ++ ch_quote :: members_text body d'
         end
  end.

(** The first character of an integer literal. *)
Definition starts_int (c : ascii) : bool :=
  let n := ord c in (n =? 45) || ((48 <=? n) && (n <=? 57)).

(** [t.replace(old, new)] for a token [old] that opens with [<]. *)
Definition replace_token (old' new t : text) : text :=
  replace_go (ch_lt :: old') new 0 t.

(** [scan_once] reads back the serialization of [v], strings rendered by
    [enc] and read as [dec], whatever closes the value after it. *)
Definition parses (enc : string -> text) (dec : string -> string)
           (v : pyvalue) : Prop :=
  forall fuel rest,
    (length (dumps_with enc v) <= fuel)%nat -> closes rest = true ->
    scan_value fuel (dumps_with enc v ++ rest)
    = Some (map_strings dec v, rest).

Ltac filter_cases :=
  repeat match goal with
         | |- context [bool_decide ?P] => destruct (bool_decide_reflect P)
         end; simpl.

(** ** A small deployment *)

(** One search path, [/plugins].  The code module [backend_a] exports a
    concrete backend next to the marker it imports; the code module
    [services] exports two response micro-services and one request
    micro-service; [legacy_backend.conf] is a file of the search path
    and not a code module.  The YAML parser rejects the text [{] with a
    position and a text holding the character NUL without one. *)
Definition example_mro (c : class_id) : list class_id :=
  match c with
  | UserClass q =>
      if String.eqb q "BackendA"
      then [c; BackendModulePlugin; InterfaceModulePlugin]
      else if String.eqb q "AddAttributes" || String.eqb q "HashUserId"
      then [c; ResponseMicroService; MicroService]
      else if String.eqb q "FilterRequester"
      then [c; RequestMicroService; MicroService]
      else [c]
  | BackendModulePlugin | FrontendModulePlugin => [c; InterfaceModulePlugin]
  | RequestMicroService | ResponseMicroService => [c; MicroService]
  | _ => [c]
  end.

Definition nul_text : string := str_of [chr 0].

Definition example_world : World :=
  {| class_mro := example_mro;
     load_plugin := fun _ id =>
       if String.eqb id "backend_a" then
         Ok [("BackendA", OClass (UserClass "BackendA"));
             ("BackendModulePlugin", OClass BackendModulePlugin);
             ("logger", OOpaque "logger")]
       else if String.eqb id "services" then
         Ok [("AddAttributes", OClass (UserClass "AddAttributes"));
             ("FilterRequester", OClass (UserClass "FilterRequester"));
             ("HashUserId", OClass (UserClass "HashUserId"));
             ("ResponseMicroService", OClass ResponseMicroService)]
       else Raise (ImportError ("No module named " +:+ id));
     call_raises := fun _ _ => None;
     open_file := fun file =>
       if String.eqb file "/plugins/legacy_backend.conf"
       then Ok (Ok "{") else Raise IOError;
     locate := fun _ => Ok (OVal VNone);
     safe_load := fun s =>
       if String.eqb s "{" then Raise (YAMLError (Mark 0 1))
       else if String.eqb s nul_text then Raise (YAMLError NoMarkAttribute)
       else Ok (VStr s);
     attributes := fun o =>
       match o with
       | OInst _ [m; OVal (VStr n); OVal c] =>
           Some {| module := m; name := n; config := c |}
       | _ => None
       end |}.

Definition example_internal_attributes : pyvalue :=
  VDict [("attributes", VDict [("mail", VDict [("saml", VList [VStr "email"])])])].

(** The declarative file of a backend whose module path names nothing
    that can be found, and one that has lost its [module] key. *)
Definition legacy_config : pyvalue :=
  VDict [("name", VStr "legacy");
         ("plugin", VStr "BackendModulePlugin");
         ("module", VStr "pkg.Legacy");
         ("config", VDict [("x", VStr "<name>")])].

Definition incomplete_config : pyvalue :=
  VDict [("name", VStr "legacy");
         ("plugin", VStr "BackendModulePlugin");
         ("config", VDict [("x", VStr "<name>")])].

(** Three loaded endpoint plugins, two of them under the same name. *)
Definition example_plugin (path n : string) (x : Z) : pyobj :=
  OInst (OClass BackendModulePlugin)
        [OOpaque path; ostr n; OVal (VDict [("x", VInt x)])].

Definition example_plugins : list pyobj :=
  [example_plugin "pkg.Saml" "legacy" 1;
   example_plugin "pkg.Oidc" "oidc" 2;
   example_plugin "pkg.Legacy" "legacy" 3].

Definition example_descriptors : list plugin_attributes :=
  [{| module := OOpaque "pkg.Saml"; name := "legacy";
      config := VDict [("x", VInt 1)] |};
   {| module := OOpaque "pkg.Oidc"; name := "oidc";
      config := VDict [("x", VInt 2)] |};
   {| module := OOpaque "pkg.Legacy"; name := "legacy";
      config := VDict [("x", VInt 3)] |}].

(** A configuration that mentions both tokens, a base URL that holds a
    double quote, and a plugin name that holds a backslash. *)
Definition templated_config : pyvalue :=
  VDict [("entityid", VStr "<base_url>/<name>/proxy.xml");
         ("<name>", VList [VInt 8443; VBool true; VNone]);
         ("x", VStr "<name>")].

Definition quoted_url : string :=
  str_of (text_of "https://proxy.example.com/" ++ [ch_quote] ++ text_of "a").

Definition backslash_name : string := "corp\nidp".

(** ** The rest of the module *)

(** [_readfile(config)]; [isfile] is [os.path.isfile].  What the file
    holds is returned when the path names a file that opens and reads;
    every [Exception] on the way is dropped and [None] returned. *)
Definition _readfile (W : World) (isfile : string -> bool) (config : string)
  : M (option string) :=
  try_except
    (if isfile config then
       emit (Opened config) ;;;
       match open_file W config with
       | Raise e => raise e
       | Ok content => data <- lift content ;; ret (Some data)
       end
     else ret None)
    (fun e => if is_Exception e then Some (ret None) else None).

(** ** More vocabulary *)

(** The filter answers true. *)
Definition accepts (plugin_filter : pyobj -> result bool) (o : pyobj) : bool :=
  match plugin_filter o with
  | Ok true => true
  | _ => false
  end.

Fixpoint distinct (keys : list string) : bool :=
  match keys with
  | [] => true
  | k :: rest => negb (existsb (String.eqb k) rest) && distinct rest
  end.

(** Every dictionary of the value has each key once, as every Python
    dictionary does. *)
Fixpoint unique_keys (v : pyvalue) : bool :=
  match v with
  | VList l => forallb unique_keys l
  | VDict d =>
      distinct (map fst d) && forallb (fun kv => unique_keys (snd kv)) d
  | _ => true
  end.

Definition lacks_lt (s : string) : bool :=
  forallb (fun c => negb (Ascii.eqb c ch_lt)) (text_of s).

(** No string of the value, key or not, holds the character [<]. *)
Fixpoint token_free (v : pyvalue) : bool :=
  match v with
  | VStr s => lacks_lt s
  | VList l => forallb token_free l
  | VDict d => forallb (fun kv => lacks_lt (fst kv) && token_free (snd kv)) d
  | _ => true
  end.

(** The state with more plugins and the names logged for them. *)
Definition loading (st : state) (plugins : list pyobj) (names : list string)
           (events : list event) : state :=
  {| loaded_plugins := loaded_plugins st ++ plugins;
     loaded_plugin_names := loaded_plugin_names st ++ names;
     local_config := local_config st;
     trace := trace st ++ events |}.

(** The record of a failed import and of the files tried after it. *)
Definition import_failed (module_file_name reason : string) : event :=
  Logged DEBUG "Not a py file or import error '%s': %s"
         [module_file_name; reason].

Definition files_tried (plugin_path : list string) (module_file_name : string)
  : list event :=
  map (fun path => Opened (file_of path module_file_name)) plugin_path.

(** What [_load_plugins] raises when the code path of an identifier
    raises [e], which is no [ImportError]. *)
Definition wrapped (module_file_name : string) (e : exn) : exn :=
  if is_Exception e
  then SATOSAConfigurationError
         ("The configuration file " +:+ module_file_name +:+ " is corrupt.") e
  else e.

(** ** A second deployment *)

(** As the first one, but the module [broken] fails to import with a
    syntax error, the constructor of [HashUserId] fails on an import of
    its own, the constructor of [BackendA] rejects its arguments, and
    two module paths can be located. *)
Definition strict_world : World :=
  {| class_mro := example_mro;
     load_plugin := fun path id =>
       if String.eqb id "broken" then Raise (OtherException "SyntaxError")
       else load_plugin example_world path id;
     call_raises := fun f _ =>
       match f with
       | OClass (UserClass q) =>
           if String.eqb q "HashUserId"
           then Some (ImportError "No module named ldap")
           else if String.eqb q "BackendA"
           then Some (ValueError "missing entity id")
           else None
       | _ => None
       end;
     open_file := open_file example_world;
     locate := fun path =>
       if String.eqb path "pkg.Legacy" then Ok (OOpaque "pkg.Legacy")
       else if String.eqb path "pkg.HashService"
       then Ok (OClass (UserClass "HashService"))
       else Ok (OVal VNone);
     safe_load := safe_load example_world;
     attributes := attributes example_world |}.

(** ** A third deployment *)

(** As the first one, but a plugin built by a code module carries its
    three attributes, as the subclasses of the plugin markers set them
    in their constructor from the base URL. *)
Definition code_world : World :=
  {| class_mro := example_mro;
     load_plugin := load_plugin example_world;
     call_raises := call_raises example_world;
     open_file := open_file example_world;
     locate := locate example_world;
     safe_load := safe_load example_world;
     attributes := fun o =>
       match o with
       | OInst (OClass (UserClass q)) [OVal (VStr base_url)] =>
           Some {| module := OOpaque ("pkg." +:+ q); name := q;
                   config := VDict [("base", VStr base_url)] |}
       | _ => attributes example_world o
       end |}.

Definition example_config : SATOSAConfig :=
  {| BASE := "https://proxy.example.com";
     PLUGIN_PATH := ["/plugins"];
     BACKEND_MODULES := ["backend_a"; "missing"];
     FRONTEND_MODULES := ["missing"; "legacy_backend.conf"; "backend_a"] |}.

(** The arguments a declarative micro-service is built from (lines 259
    to 262): the internal attributes, and the [config] entry of the
    file when it has one. *)
Definition service_args (internal_attributes : pyvalue) (_config : pyvalue)
  : list pyobj :=
  OVal internal_attributes
  :: match py_getitem _config "config" with
     | Ok cfg => [OVal cfg]
     | Raise _ => []
     end.

Definition is_string (v : pyvalue) : bool :=
  match v with VStr _ => true | _ => false end.

(** A declarative micro-service and a declarative backend; the second
    backend file gives a number for its name. *)
Definition hash_service_config : pyvalue :=
  VDict [("plugin", VStr "ResponseMicroService");
         ("module", VStr "pkg.HashService");
         ("config", VDict [("salt", VStr "<name>")])].

Definition numbered_config : pyvalue :=
  VDict [("name", VInt 7);
         ("plugin", VStr "BackendModulePlugin");
         ("module", VStr "pkg.Legacy");
         ("config", VDict [("x", VStr "<base_url>/<name>")])].

(** What a step can do to the loaded plugins: leave them and their
    names as they are, or add one instance, built by the last call of
    the trace, with or without the identifier among the names. *)
Definition keeps_plugins (st st' : state) : Prop :=
  loaded_plugins st' = loaded_plugins st
  /\ loaded_plugin_names st' = loaded_plugin_names st.

Definition adds_one (module_file_name : string) (st st' : state) : Prop :=
  exists callee args,
    loaded_plugins st' = loaded_plugins st ++ [OInst callee args]
    /\ last (trace st') = Some (Called callee args)
    /\ (loaded_plugin_names st' = loaded_plugin_names st
        \/ loaded_plugin_names st'
           = loaded_plugin_names st ++ [module_file_name]).

(** A computation that leaves the loaded plugins alone, and one that
    adds at most one instance and none when it fails. *)
Definition quiet {A} (m : M A) : Prop :=
  forall st, keeps_plugins st (snd (m st)).

Definition body_ok (module_file_name : string) (m : M unit) : Prop :=
  forall st,
    match m st with
    | (Ok _, st') => keeps_plugins st st' \/ adds_one module_file_name st st'
    | (Raise _, st') => keeps_plugins st st'
    end.

(** ** Vocabulary of the declarative branch and of partial loads *)

(** The two warnings of lines 265 and 289. *)
Definition missing_parameters (micro_service : bool) : string :=
  if micro_service
  then "Missing mandatory configuration parameters in the micro service plugin %s ('plugin', 'module')."
  else "Missing mandatory configuration parameters in the plugin %s (plugin, module, receiver and/or config).".

(** The one record a parsed file leaves when it is not handled further:
    the warning of its category when the check of the keys answers no,
    the error record of the handler when deciding the category or
    checking the keys raises. *)
Definition skip_record (module_file_name : string) (_config : pyvalue)
  : event :=
  match is_micro_service _config with
  | Ok micro_service =>
      match all_in _config (required_keys micro_service) with
      | Ok false =>
          Logged WARNING (missing_parameters micro_service) [module_file_name]
      | _ => cannot_create module_file_name
      end
  | Raise _ => cannot_create module_file_name
  end.

(** The instances the loop of line 234 appends before it is left: one
    for every accepted member, up to the first whose call does not
    return. *)
Fixpoint built (W : World) (call_args : list pyobj)
         (found : list (string * pyobj)) : list pyobj :=
  match found with
  | [] => []
  | m :: rest =>
      if returns W (snd m) call_args
      then OInst (snd m) call_args :: built W call_args rest
      else []
  end.

(** What an identifier adds to the loaded plugins with the module as
    it is written: the instances built from its code module, and
    nothing when it is no code module. *)
Definition loaded_from (W : World) (plugin_path : list string)
           (plugin_filter : pyobj -> result bool) (base_url : string)
           (args : list pyobj) (module_file_name : string) : list pyobj :=
  match load_plugin W plugin_path module_file_name with
  | Ok members =>
      match getmembers members plugin_filter with
      | Ok found => built W (ostr base_url :: args) found
      | Raise _ => []
      end
  | Raise _ => []
  end.

(** ** Members with a comparison of their own *)

(** An array, as a numeric library has them: its comparison with
    anything is an array again, which has no truth value. *)
Definition array_member : pyobj :=
  OCustom "weights" None
          (fun _ => Ok (NoTruth (ValueError "The truth value of an array with more than one element is ambiguous."))).

(** A backend class whose metaclass makes it equal to everything, so
    that its inequality with anything is false. *)
Definition equal_to_all_class : pyobj :=
  OCustom "BackendA" (Some (UserClass "BackendA")) (fun _ => Ok Falsy).

(** ** A deployment with declarative files *)

(** The files of [/plugins], written in YAML: two endpoint plugins (one
    with a module path that names nothing), two micro-services (one
    with a module path that names nothing), a file that has lost its
    [module] key and an empty mapping. *)
Definition saml_backend_text : string :=
  "{name: saml, plugin: BackendModulePlugin, module: pkg.Saml, config: {entityid: <base_url>/<name>/proxy.xml}}".

Definition saml_backend_config : pyvalue :=
  VDict [("name", VStr "saml");
         ("plugin", VStr "BackendModulePlugin");
         ("module", VStr "pkg.Saml");
         ("config", VDict [("entityid", VStr "<base_url>/<name>/proxy.xml")])].

Definition lost_backend_text : string :=
  "{name: lost, plugin: BackendModulePlugin, module: pkg.Missing, config: {x: y}}".

Definition lost_backend_config : pyvalue :=
  VDict [("name", VStr "lost");
         ("plugin", VStr "BackendModulePlugin");
         ("module", VStr "pkg.Missing");
         ("config", VDict [("x", VStr "y")])].

Definition hash_service_text : string :=
  "{plugin: ResponseMicroService, module: pkg.HashService, config: {salt: <name>}}".

Definition lost_service_text : string :=
  "{plugin: RequestMicroService, module: pkg.Missing}".

Definition lost_service_config : pyvalue :=
  VDict [("plugin", VStr "RequestMicroService");
         ("module", VStr "pkg.Missing")].

Definition incomplete_text : string :=
  "{name: legacy, plugin: BackendModulePlugin, config: {x: <name>}}".

Definition has_nul (file : string) : bool :=
  existsb (fun c => Ascii.eqb c (chr 0)) (text_of file).

(** The code modules of the first deployment, and [numeric], which
    exports an array next to a backend.  [open] refuses a path that
    holds the character NUL with [ValueError]. *)
Definition declarative_world : World :=
  {| class_mro := example_mro;
     load_plugin := fun path id =>
       if String.eqb id "numeric" then
         Ok [("BackendA", OClass (UserClass "BackendA"));
             ("weights", array_member)]
       else load_plugin example_world path id;
     call_raises := fun _ _ => None;
     open_file := fun file =>
       if has_nul file then Raise (ValueError "embedded null byte")
       else if String.eqb file "/plugins/saml_backend.yaml"
       then Ok (Ok saml_backend_text)
       else if String.eqb file "/plugins/lost_backend.yaml"
       then Ok (Ok lost_backend_text)
       else if String.eqb file "/plugins/hash_service.yaml"
       then Ok (Ok hash_service_text)
       else if String.eqb file "/plugins/lost_service.yaml"
       then Ok (Ok lost_service_text)
       else if String.eqb file "/plugins/incomplete.yaml"
       then Ok (Ok incomplete_text)
       else if String.eqb file "/plugins/empty.yaml"
       then Ok (Ok "{}")
       else Raise IOError;
     locate := fun path =>
       if String.eqb path "pkg.Saml" then Ok (OOpaque "pkg.Saml")
       else if String.eqb path "pkg.HashService"
       then Ok (OClass (UserClass "HashService"))
       else Ok (OVal VNone);
     safe_load := fun s =>
       if String.eqb s saml_backend_text then Ok saml_backend_config
       else if String.eqb s lost_backend_text then Ok lost_backend_config
       else if String.eqb s hash_service_text then Ok hash_service_config
       else if String.eqb s lost_service_text then Ok lost_service_config
       else if String.eqb s incomplete_text then Ok incomplete_config
       else if String.eqb s "{}" then Ok (VDict [])
       else safe_load example_world s;
     attributes := attributes example_world |}.

Definition declarative_config (backends : list string) : SATOSAConfig :=
  {| BASE := "https://proxy.example.com";
     PLUGIN_PATH := ["/plugins"];
     BACKEND_MODULES := backends;
     FRONTEND_MODULES := [] |}.

(** * Properties *)

(** ** Capability filters *)

Lemma family_filter_value mro base m1 m2 m3 category member :
  py_ne member m1 = Ok (identity_ne member m1) ->
  py_ne member m2 = Ok (identity_ne member m2) ->
  py_ne member m3 = Ok (identity_ne member m3) ->
  exists b,
    and_subclass mro
      (is_module <-? and_then (Ok (isclass member)) (issubclass mro member base);
       is_correct_subclass <-?
         and_also (py_ne member m1)
                  (and_also (py_ne member m2) (py_ne member m3));
       Ok (if is_module : bool then is_correct_subclass else Falsy))%result
      member category
    = Ok b
    /\ (b = true <-> concrete_class mro base category m1 m2 m3 member).
Proof.
  intros H1 H2 H3. rewrite H1, H2, H3. clear H1 H2 H3.
  unfold identity_ne, concrete_class.
  destruct member as [v | c | n | f a | n [c |] ne]; simpl.
  1,3,4,6: exists false; (split; [reflexivity |]);
    (split; [discriminate | intros (c & Hc & _); discriminate]).
  all: do 3 filter_cases; eexists; (split; [reflexivity |]);
    (split; [ try discriminate; intros _; exists c; tauto
            | intros (c' & Hc & H); inversion Hc; subst c';
              try reflexivity; exfalso; tauto ]).
Qed.

Lemma endpoint_filter_value mro category member :
  compares_by_identity member ->
  exists b,
    and_subclass mro (_member_filter mro member) member category = Ok b
    /\ (b = true <->
        concrete_class mro InterfaceModulePlugin category
                       InterfaceModulePlugin BackendModulePlugin
                       FrontendModulePlugin member).
Proof.
  intros H. unfold compares_by_identity, markers in H.
  repeat (apply Forall_cons in H as [? H]).
  apply family_filter_value; assumption.
Qed.

Lemma micro_service_filter_value mro category member :
  compares_by_identity member ->
  exists b,
    and_subclass mro (_micro_service_filter mro member) member category = Ok b
    /\ (b = true <->
        concrete_class mro MicroService category
                       MicroService ResponseMicroService
                       RequestMicroService member).
Proof.
  intros H. unfold compares_by_identity, markers in H.
  repeat (apply Forall_cons in H as [? H]).
  apply family_filter_value; assumption.
Qed.




(** ** The endpoint module assembler *)

Lemma call_returns W f args st :
  returns W f args = true ->
  call W f args st
  = (Ok (OInst f args),
     {| loaded_plugins := loaded_plugins st;
        loaded_plugin_names := loaded_plugin_names st;
        local_config := local_config st;
        trace := trace st ++ [Called f args] |}).
Proof.
  unfold returns, call. intros H. apply andb_true_iff in H as [Hc Hr].
  destruct (call_raises W f args); [discriminate |].
  destruct f; simpl in Hc; try discriminate; reflexivity.
Qed.

Lemma assemble_runs W base_url callback ia plugins descs :
  Forall2 (fun o p => attributes W o = Some p) plugins descs ->
  Forall (fun p => returns W (module p)
                     (endpoint_args base_url callback ia p) = true) descs ->
  forall table keys st,
  exists keys' st',
    assemble W base_url callback ia plugins table keys st
    = (Ok (insert_all base_url callback ia descs table, keys'), st').
Proof.
  induction 1 as [| o p plugins descs Ho _ IH]; intros Hret table keys st.
  - simpl. eauto.
  - apply Forall_cons in Hret as [Hp Hret]. simpl. rewrite Ho.
    unfold bind at 1. rewrite (call_returns _ _ _ _ Hp).
    apply (IH Hret).
Qed.

Lemma insert_all_lookup base_url callback ia descs :
  forall (table : gmap string pyobj) n,
    insert_all base_url callback ia descs table !! n
    = match last_named n descs with
      | Some p => Some (endpoint_instance base_url callback ia p)
      | None => table !! n
      end.
Proof.
  unfold last_named.
  induction descs as [| p descs IH]; intros table n; simpl; [reflexivity |].
  unfold insert_all in *. simpl. rewrite IH.
  rewrite filter_cons. destruct (decide (name p = n)) as [Heq | Hne].
  - rewrite last_cons.
    destruct (last (filter _ descs)); [reflexivity |].
    rewrite <- Heq. rewrite lookup_insert_eq. reflexivity.
  - destruct (last (filter _ descs)); [reflexivity |].
    apply lookup_insert_ne. exact Hne.
Qed.

Lemma last_named_Some n descs p :
  last_named n descs = Some p -> name p = n /\ p ∈ descs.
Proof.
  unfold last_named. intros H. apply last_Some in H as [l' Hl].
  assert (Hin : p ∈ filter (fun p => name p = n) descs).
  { rewrite Hl. apply elem_of_app. right. apply list_elem_of_singleton.
    reflexivity. }
  apply list_elem_of_filter in Hin. tauto.
Qed.

Lemma last_named_None n descs :
  last_named n descs = None -> n ∉ map name descs.
Proof.
  unfold last_named. intros H Hin. apply last_None in H.
  apply list_elem_of_fmap in Hin as (p & -> & Hp).
  assert (Hf : p ∈ filter (fun q => name q = name p) descs)
    by (apply list_elem_of_filter; auto).
  rewrite H in Hf. inversion Hf.
Qed.

(** C4: when every plugin of the list carries its three attributes and
    every call of a module type returns, the assembler returns a table
    whose keys are exactly the names in the list; a name maps to the
    instance obtained by calling the module type of the last plugin
    with that name on (callback, internal attributes, config, base URL,
    name). *)
Theorem endpoint_table_by_name
        (W : World) (base_url : string) (callback : pyobj)
        (internal_attributes : pyvalue)
        (plugins : list pyobj) (descs : list plugin_attributes) (st : state) :
  Forall2 (fun o p => attributes W o = Some p) plugins descs ->
  Forall (fun p => returns W (module p)
                     (endpoint_args base_url callback internal_attributes p)
                   = true) descs ->
  exists table st',
    _load_endpoint_modules W base_url plugins callback internal_attributes st
    = (Ok table, st')
    /\ dom table = list_to_set (map name descs)
    /\ (forall n,
          table !! n
          = match last_named n descs with
            | Some p => Some (OInst (module p)
                                [callback; OVal internal_attributes;
                                 OVal (config p); ostr base_url; ostr n])
            | None => None
            end).
Proof.
  intros Hattr Hret.
  destruct (assemble_runs W base_url callback internal_attributes
              plugins descs Hattr Hret ∅ [] st) as (keys & st1 & Hrun).
  unfold _load_endpoint_modules, bind. rewrite Hrun. simpl.
  eexists _, _. split; [reflexivity |].
  assert (Hlook : forall n,
    insert_all base_url callback internal_attributes descs ∅ !! n
    = match last_named n descs with
      | Some p => Some (OInst (module p)
                          [callback; OVal internal_attributes;
                           OVal (config p); ostr base_url; ostr n])
      | None => None
      end).
  { intros n. rewrite insert_all_lookup.
    destruct (last_named n descs) as [p |] eqn:Hl.
    - apply last_named_Some in Hl as [<- _]. reflexivity.
    - apply lookup_empty. }
  split; [| exact Hlook].
  apply set_eq. intros n. rewrite elem_of_dom, elem_of_list_to_set, Hlook.
  destruct (last_named n descs) as [p |] eqn:Hl.
  - apply last_named_Some in Hl as [<- Hin]. split; [intros _ | eauto].
    apply list_elem_of_fmap. eauto.
  - apply last_named_None in Hl. split; [intros [x Hx]; discriminate | tauto].
Qed.

Lemma endpoint_table_by_name_witness :
  exists table st',
    _load_endpoint_modules example_world "https://proxy.example.com"
                           example_plugins (OOpaque "callback")
                           example_internal_attributes initial
    = (Ok table, st')
    /\ dom table = list_to_set (map name example_descriptors)
    /\ (forall n,
          table !! n
          = match last_named n example_descriptors with
            | Some p => Some (OInst (module p)
                                [OOpaque "callback";
                                 OVal example_internal_attributes;
                                 OVal (config p);
                                 ostr "https://proxy.example.com"; ostr n])
            | None => None
            end).
Proof.
  apply (endpoint_table_by_name example_world "https://proxy.example.com"
           (OOpaque "callback") example_internal_attributes
           example_plugins example_descriptors initial).
  - repeat constructor.
  - repeat constructor.
Defined.

(** ** Running the loader *)

Lemma for_each_app {X} (f : X -> M unit) l1 l2 st :
  for_each (l1 ++ l2) f st
  = match for_each l1 f st with
    | (Ok _, st1) => for_each l2 f st1
    | (Raise e, st1) => (Raise e, st1)
    end.
Proof.
  revert st. induction l1 as [| x l1 IH]; intros st; simpl; [reflexivity |].
  unfold bind. destruct (f x st) as [[[] | e] st1]; [apply IH | reflexivity].
Qed.

Lemma instantiate_members W (module_file_name : string) call_args found :
  forallb (fun m : string * pyobj => returns W (snd m) call_args) found = true ->
  forall st, exists st',
    for_each found
      (fun member =>
         instance <- call W (snd member) call_args ;;
         append_plugin instance ;;;
         append_name module_file_name) st
    = (Ok tt, st')
    /\ loaded_plugins st'
       = loaded_plugins st ++ map (fun m => OInst (snd m) call_args) found
    /\ local_config st' = local_config st.
Proof.
  induction found as [| m found IH]; simpl; intros H st.
  - exists st. rewrite app_nil_r. auto.
  - apply andb_true_iff in H as [Hm H].
    unfold bind at 1. unfold bind at 1. rewrite (call_returns _ _ _ _ Hm).
    simpl. unfold bind at 1. simpl.
    edestruct (IH H) as (st' & -> & Hl & Hc). eexists. split; [reflexivity |].
    rewrite Hl, Hc. simpl. rewrite <- app_assoc. auto.
Qed.

Lemma scan_paths_absent W G filter_class module_file_name _config paths :
  absent W paths module_file_name = true ->
  forall st, exists st',
    scan_paths W G filter_class paths module_file_name _config st
    = (Ok _config, st')
    /\ loaded_plugins st' = loaded_plugins st
    /\ local_config st' = local_config st.
Proof.
  unfold absent.
  induction paths as [| path paths IH]; simpl; intros H st.
  - eauto.
  - apply andb_true_iff in H as [Hp H].
    destruct (open_file W (file_of path module_file_name)) as [content | e];
      [discriminate |].
    destruct e; try discriminate.
    unfold bind. simpl. edestruct (IH H) as (st' & -> & Hl & Hc).
    eexists. split; [reflexivity |]. rewrite Hl, Hc. auto.
Qed.

Lemma load_one_contribution W G plugin_path plugin_filter filter_class
      base_url internal_attributes args module_file_name l :
  contribution W plugin_path plugin_filter base_url args module_file_name
  = Some l ->
  forall st, exists st',
    load_one W G plugin_path plugin_filter filter_class base_url
             internal_attributes args module_file_name st
    = (Ok tt, st')
    /\ loaded_plugins st' = loaded_plugins st ++ l
    /\ local_config st' = local_config st.
Proof.
  unfold contribution, load_one, load_code_plugin, try_except. intros H st.
  destruct (load_plugin W plugin_path module_file_name) as [members | e].
  - unfold bind at 1. simpl. unfold bind at 1. simpl.
    destruct (getmembers members plugin_filter) as [found | e]; [| discriminate].
    destruct (forallb _ found) eqn:Hf; [| discriminate].
    injection H as <-.
    destruct (instantiate_members W module_file_name _ found Hf st)
      as (st' & -> & Hl & Hc).
    eauto.
  - unfold bind at 1. simpl. destruct e; try discriminate.
    destruct (absent W plugin_path module_file_name) eqn:Ha; [| discriminate].
    injection H as <-.
    unfold declarative_fallback, bind. simpl.
    edestruct (scan_paths_absent W G filter_class module_file_name VNone
                 plugin_path Ha) as (st' & -> & Hl & Hc).
    simpl. eexists. split; [reflexivity |].
    rewrite Hl, Hc, app_nil_r. auto.
Qed.

Lemma for_each_contributions W G plugin_path plugin_filter filter_class
      base_url internal_attributes args plugins ls :
  mapM (contribution W plugin_path plugin_filter base_url args) plugins
  = Some ls ->
  forall st, exists st',
    for_each plugins
      (load_one W G plugin_path plugin_filter filter_class base_url
                internal_attributes args) st
    = (Ok tt, st')
    /\ loaded_plugins st' = loaded_plugins st ++ concat ls
    /\ local_config st' = local_config st.
Proof.
  intros H. apply mapM_Some in H.
  induction H as [| id l plugins ls Hid _ IH]; intros st; simpl.
  - exists st. rewrite app_nil_r. auto.
  - unfold bind.
    destruct (load_one_contribution W G plugin_path plugin_filter filter_class
                base_url internal_attributes args id l Hid st)
      as (st1 & -> & Hl1 & Hc1).
    destruct (IH st1) as (st2 & -> & Hl2 & Hc2).
    eexists. split; [reflexivity |].
    rewrite Hl2, Hl1, Hc2, Hc1, <- app_assoc. auto.
Qed.

Lemma load_plugins_contributions W G plugin_path plugin_filter filter_class
      base_url internal_attributes args plugins ls :
  mapM (contribution W plugin_path plugin_filter base_url args) plugins
  = Some ls ->
  forall st, exists st',
    _load_plugins W G plugin_path plugin_filter filter_class base_url
                  internal_attributes args plugins st
    = (Ok (concat ls), st').
Proof.
  intros H st. unfold _load_plugins. unfold bind at 1. simpl.
  unfold bind at 1.
  edestruct (for_each_contributions W G plugin_path plugin_filter filter_class
               base_url internal_attributes args plugins ls H)
    as (st1 & -> & Hl & Hc).
  unfold bind, get_loaded_plugin_names, get_loaded_plugins, emit. simpl.
  rewrite Hl. simpl. eauto.
Qed.

(** ** The configuration reader *)

Lemma load_plugin_config_marked W text line column st :
  safe_load W text = Raise (YAMLError (Mark line column)) ->
  exists st',
    _load_plugin_config W text st
    = (Raise (SATOSAConfigurationError "The configuration is corrupt."
                (YAMLError (Mark line column))), st').
Proof. intros H. unfold _load_plugin_config. rewrite H. eexists. reflexivity. Qed.

Lemma load_plugin_config_unmarked W text st :
  safe_load W text = Raise (YAMLError NoMarkAttribute) ->
  _load_plugin_config W text st = (Ok VNone, st).
Proof. intros H. unfold _load_plugin_config. rewrite H. reflexivity. Qed.

(** C10: the claim fails on the code.  When the parser rejects a text
    with an error that has no [problem_mark] attribute (a text holding
    the character NUL), the reader returns [None] and logs nothing,
    where the claim asks for a configuration error. *)
Theorem reader_returns_None_on_unmarked_error :
  safe_load example_world nul_text = Raise (YAMLError NoMarkAttribute)
  /\ _load_plugin_config example_world nul_text initial = (Ok VNone, initial).
Proof. split; reflexivity. Qed.

(** ** The fallback to declarative files *)

(** The module binds [_load_plugin_config] and never [_config_loader]. *)
Lemma module_binds_no_config_loader :
  dict_get "_config_loader" (module_namespace ++ module_dunders) = None
  /\ dict_get "_load_plugin_config" (module_namespace ++ module_dunders)
     = Some (OOpaque "_load_plugin_config")
  /\ config_loader plugin_loader_globals = None.
Proof. repeat split. Qed.

(** The scan of the search path ends in one of three ways: no file,
    a file, or an [open] that fails with something else than
    [IOError]. *)
Lemma scan_cases W paths module_file_name :
  (absent W paths module_file_name = true
   /\ present W paths module_file_name = false
   /\ scan_failure W paths module_file_name = None)
  \/ (absent W paths module_file_name = false
      /\ present W paths module_file_name = true
      /\ scan_failure W paths module_file_name = None)
  \/ (exists e path,
        absent W paths module_file_name = false
        /\ present W paths module_file_name = false
        /\ scan_failure W paths module_file_name = Some e
        /\ e <> IOError
        /\ path ∈ paths
        /\ open_file W (file_of path module_file_name) = Raise e).
Proof.
  unfold absent.
  induction paths as [| path paths IH]; simpl; [auto |].
  destruct (open_file W (file_of path module_file_name)) as [content | e] eqn:Ho.
  - right. left. auto.
  - destruct e;
      try (right; right; eexists _, path;
           split; [reflexivity |]; split; [reflexivity |];
           split; [reflexivity |]; split; [discriminate |];
           split; [apply elem_of_cons; auto | exact Ho]).
    simpl. destruct IH as [H | [H | (e & p & H1 & H2 & H3 & H4 & H5 & H6)]];
      [auto | auto |].
    right. right. exists e, p.
    repeat split; try assumption. apply elem_of_cons. auto.
Qed.

Lemma scan_paths_as_written W filter_class module_file_name paths :
  forall _config st, exists r st',
    scan_paths W plugin_loader_globals filter_class paths module_file_name
               _config st = (r, st')
    /\ loaded_plugins st' = loaded_plugins st
    /\ filter (fun e => is_lookup e = true) (trace st')
       = filter (fun e => is_lookup e = true) (trace st)
    /\ r = (if absent W paths module_file_name then Ok _config
            else if present W paths module_file_name
                 then Raise (NameError "_config_loader")
                 else match scan_failure W paths module_file_name with
                      | Some e => Raise e
                      | None => Ok _config
                      end).
Proof.
  unfold absent.
  induction paths as [| path paths IH]; intros _config st; simpl.
  - eexists _, _. split; [reflexivity |]. auto.
  - unfold bind. simpl.
    destruct (open_file W (file_of path module_file_name)) as [content | e].
    + eexists _, _. split; [reflexivity |]. simpl.
      rewrite filter_app. simpl. rewrite app_nil_r. auto.
    + destruct e;
        try (eexists _, _; split; [reflexivity |]; simpl;
             rewrite filter_app; simpl; rewrite app_nil_r; auto).
      edestruct IH as (r & st' & -> & Hl & Ht & Hr).
      eexists _, _. split; [reflexivity |]. rewrite Hl, Ht. simpl.
      rewrite filter_app. simpl. rewrite app_nil_r. auto.
Qed.

Lemma fallback_as_written W plugin_path filter_class base_url
      internal_attributes module_file_name reason st :
  exists r st',
    declarative_fallback W plugin_loader_globals plugin_path filter_class
                         base_url internal_attributes module_file_name reason st
    = (r, st')
    /\ loaded_plugins st' = loaded_plugins st
    /\ filter (fun e => is_lookup e = true) (trace st')
       = filter (fun e => is_lookup e = true) (trace st)
    /\ ((r = Ok tt /\ absent W plugin_path module_file_name = true)
        \/ (r = Raise (NameError "_config_loader")
            /\ present W plugin_path module_file_name = true)
        \/ (exists e path,
              r = Raise e
              /\ absent W plugin_path module_file_name = false
              /\ present W plugin_path module_file_name = false
              /\ e <> IOError
              /\ path ∈ plugin_path
              /\ open_file W (file_of path module_file_name) = Raise e)).
Proof.
  unfold declarative_fallback. unfold bind at 1. simpl. unfold bind at 1.
  edestruct (scan_paths_as_written W filter_class module_file_name plugin_path)
    as (r & st' & Hrun & Hl & Ht & Hr); rewrite Hrun.
  assert (Hkeep : filter (fun e => is_lookup e = true)
                    (trace st
                     ++ [Logged DEBUG "Not a py file or import error '%s': %s"
                           [module_file_name; reason]])
                  = filter (fun e => is_lookup e = true) (trace st))
    by (rewrite filter_app; simpl; apply app_nil_r).
  simpl in Ht. rewrite Hkeep in Ht. simpl in Hl.
  destruct (scan_cases W plugin_path module_file_name)
    as [(Ha & Hp & Hf) | [(Ha & Hp & Hf) | (e & p & Ha & Hp & Hf & He & Hin & Ho)]];
    rewrite Ha, ?Hp, ?Hf in Hr; subst r.
  - simpl. eexists _, _. split; [reflexivity |].
    split; [exact Hl | split; [exact Ht | left; auto]].
  - eexists _, _. split; [reflexivity |].
    split; [exact Hl | split; [exact Ht | right; left; auto]].
  - eexists _, _. split; [reflexivity |]. split; [exact Hl |].
    split; [exact Ht |]. right. right. exists e, p.
    repeat split; assumption.
Qed.

Lemma fallback_present W plugin_path filter_class base_url
      internal_attributes module_file_name reason st :
  present W plugin_path module_file_name = true ->
  exists st',
    declarative_fallback W plugin_loader_globals plugin_path filter_class
                         base_url internal_attributes module_file_name reason st
    = (Raise (NameError "_config_loader"), st')
    /\ loaded_plugins st' = loaded_plugins st
    /\ filter (fun e => is_lookup e = true) (trace st')
       = filter (fun e => is_lookup e = true) (trace st).
Proof.
  intros Hpresent.
  destruct (fallback_as_written W plugin_path filter_class base_url
              internal_attributes module_file_name reason st)
    as (r & st' & Hrun & Hl & Ht
        & [[_ Ha] | [[-> _] | (e & p & _ & _ & Hp & _)]]);
    [| eauto | congruence].
  destruct (scan_cases W plugin_path module_file_name)
    as [(_ & Hp & _) | [(Ha' & _) | (e & p & Ha' & _)]]; congruence.
Qed.

Lemma load_one_import_error W G plugin_path plugin_filter filter_class base_url
      internal_attributes args module_file_name reason st :
  load_plugin W plugin_path module_file_name = Raise (ImportError reason) ->
  load_one W G plugin_path plugin_filter filter_class base_url
           internal_attributes args module_file_name st
  = declarative_fallback W G plugin_path filter_class base_url
                         internal_attributes module_file_name reason st.
Proof.
  intros H. unfold load_one, try_except, load_code_plugin. unfold bind at 1.
  rewrite H. reflexivity.
Qed.

(** C2: with the module as it is written, once the loop reaches an
    identifier that fails to import and has a same-named file in the
    search path, [_load_plugins] raises [NameError] for
    [_config_loader]: no handler of the loop catches it, nothing is
    read, parsed or instantiated, and the plugins loaded so far are
    lost with the call.  The fallback never adds a plugin to the list,
    whatever the identifier and the state.  The test that follows the
    undefined call reads the local [config], which nothing has bound
    yet: on a file with a [plugin] key it could only raise
    [UnboundLocalError]. *)
Theorem fallback_raises_NameError
        (W : World) (plugin_path : list string)
        (plugin_filter : pyobj -> result bool) (filter_class base_url : string)
        (internal_attributes : pyvalue) (args : list pyobj)
        (earlier : list string) (module_file_name : string)
        (later : list string) (reason : string) (st st1 : state) :
  for_each earlier
    (load_one W plugin_loader_globals plugin_path plugin_filter filter_class
              base_url internal_attributes args) (snd (enter st))
  = (Ok tt, st1) ->
  load_plugin W plugin_path module_file_name = Raise (ImportError reason) ->
  present W plugin_path module_file_name = true ->
  (exists st',
     _load_plugins W plugin_loader_globals plugin_path plugin_filter
                   filter_class base_url internal_attributes args
                   (earlier ++ module_file_name :: later) st
     = (Raise (NameError "_config_loader"), st')
     /\ loaded_plugins st' = loaded_plugins st1
     /\ filter (fun e => is_lookup e = true) (trace st')
        = filter (fun e => is_lookup e = true) (trace st1))
  /\ (forall id why st0 r st2,
        declarative_fallback W plugin_loader_globals plugin_path filter_class
                             base_url internal_attributes id why st0 = (r, st2) ->
        loaded_plugins st2 = loaded_plugins st0)
  /\ (forall _config st0,
        truthy _config = true -> py_contains _config "plugin" = Ok true ->
        local_config st0 = None ->
        found_config filter_class _config st0
        = (Raise (UnboundLocalError "config"), st0)).
Proof.
  intros Hearlier Himport Hpresent. split; [| split].
  - unfold _load_plugins. unfold bind at 1. simpl. unfold bind at 1.
    rewrite for_each_app. simpl in Hearlier. rewrite Hearlier.
    simpl. unfold bind at 1.
    rewrite (load_one_import_error _ _ _ _ _ _ _ _ _ _ _ Himport).
    edestruct (fallback_present W plugin_path filter_class base_url
                 internal_attributes module_file_name reason st1 Hpresent)
      as (st2 & -> & Hl2 & Ht2).
    eexists. split; [reflexivity |]. auto.
  - intros id why st0 r st2 Hrun.
    edestruct (fallback_as_written W plugin_path filter_class base_url
                 internal_attributes id why st0)
      as (r' & st' & Hrun' & Hl & _).
    rewrite Hrun in Hrun'. injection Hrun' as _ <-. exact Hl.
  - intros _config st0 Ht Hp Hc. unfold found_config, bind, lift, read_config.
    rewrite Ht, Hp, Hc. reflexivity.
Qed.

Lemma fallback_raises_NameError_witness :
  exists st',
    _load_plugins example_world plugin_loader_globals ["/plugins"]
                  (backend_filter example_mro) "BackendModulePlugin"
                  "https://proxy.example.com" VNone []
                  (["backend_a"] ++ "legacy_backend.conf" :: ["backend_a"])
                  initial
    = (Raise (NameError "_config_loader"), st')
    /\ loaded_plugins st'
       = [OInst (OClass (UserClass "BackendA"))
            [ostr "https://proxy.example.com"]]
    /\ filter (fun e => is_lookup e = true) (trace st')
       = [Called (OClass (UserClass "BackendA"))
            [ostr "https://proxy.example.com"]].
Proof.
  apply (proj1 (fallback_raises_NameError example_world ["/plugins"]
           (backend_filter example_mro) "BackendModulePlugin"
           "https://proxy.example.com" VNone [] ["backend_a"]
           "legacy_backend.conf" ["backend_a"]
           "No module named legacy_backend.conf" initial
           {| loaded_plugins := [OInst (OClass (UserClass "BackendA"))
                                   [ostr "https://proxy.example.com"]];
              loaded_plugin_names := ["backend_a"];
              local_config := None;
              trace := [Called (OClass (UserClass "BackendA"))
                          [ostr "https://proxy.example.com"]] |}
           ltac:(vm_compute; reflexivity) ltac:(vm_compute; reflexivity)
           ltac:(vm_compute; reflexivity))).
Defined.

(** C1: the claim fails on the code.  With [legacy_backend.conf] a
    present and corrupt file (the parser rejects it with a position, and
    the configuration reader would raise the configuration error for
    it), loading the batch raises [NameError] for [_config_loader], not
    [SATOSAConfigurationError]: the fallback calls a name the module
    never binds in place of the configuration reader. *)
Theorem corrupt_file_raises_NameError :
  fst (_load_plugin_config example_world "{" initial)
  = Raise (SATOSAConfigurationError "The configuration is corrupt."
             (YAMLError (Mark 0 1)))
  /\ open_file example_world (file_of "/plugins" "legacy_backend.conf")
     = Ok (Ok "{")
  /\ fst (_load_plugins example_world plugin_loader_globals ["/plugins"]
            (backend_filter example_mro) "BackendModulePlugin"
            "https://proxy.example.com" VNone []
            ["backend_a"; "legacy_backend.conf"] initial)
     = Raise (NameError "_config_loader").
Proof. repeat split; reflexivity. Qed.

(** ** Declarative files and the program as it is written *)

(** C3: the claim fails on the code.  [saml_backend.yaml] is a file of
    the search path that the configuration reader parses, and lines
    276 to 283 taken alone turn its configuration into the one with
    both tokens replaced; but [load_backends] never comes to them: the
    fallback raises [NameError] for [_config_loader] as soon as the
    file opens.  Nothing is serialized, replaced or parsed, the local
    [config] is never bound and no plugin is built. *)
Theorem templated_file_is_never_substituted :
  open_file declarative_world (file_of "/plugins" "saml_backend.yaml")
  = Ok (Ok saml_backend_text)
  /\ _load_plugin_config declarative_world saml_backend_text initial
     = (Ok saml_backend_config, initial)
  /\ fst (render_config "https://proxy.example.com" (VStr "saml")
            (VDict [("entityid", VStr "<base_url>/<name>/proxy.xml")])
            initial)
     = Ok (VDict [("entityid",
                   VStr "https://proxy.example.com/saml/proxy.xml")])
  /\ load_backends declarative_world plugin_loader_globals
                   (declarative_config ["saml_backend.yaml"])
                   (OOpaque "callback") example_internal_attributes initial
     = (Raise (NameError "_config_loader"),
        {| loaded_plugins := [];
           loaded_plugin_names := [];
           local_config := None;
           trace := [import_failed "saml_backend.yaml"
                       "No module named saml_backend.yaml";
                     Opened "/plugins/saml_backend.yaml"] |}).
Proof. repeat split; vm_compute; reflexivity. Qed.

(** C5: the claim fails on the code.  The module path of
    [lost_backend.yaml] and of [lost_service.yaml] names nothing.
    Lines 251 to 293 taken alone log that the module cannot be created
    and go on, for the endpoint plugin as for the micro-service; but
    the program never comes to them.  [load_backends] raises
    [NameError] for [_config_loader], which names no identifier and is
    raised for every file, resolvable or not; [load_micro_services]
    raises the same error where the claim has a logged skip, and the
    code module [services] that follows in the list is not loaded. *)
Theorem unresolvable_module_raises_NameError :
  locate declarative_world "pkg.Missing" = Ok (OVal VNone)
  /\ _load_plugin_config declarative_world lost_backend_text initial
     = (Ok lost_backend_config, initial)
  /\ _load_plugin_config declarative_world lost_service_text initial
     = (Ok lost_service_config, initial)
  /\ declarative_branch declarative_world plugin_loader_globals
                        "https://proxy.example.com" VNone
                        "lost_backend.yaml" lost_backend_config initial
     = (Ok tt, logging initial [Resolved "BackendModulePlugin";
                                Located "pkg.Missing";
                                cannot_create "lost_backend.yaml"])
  /\ declarative_branch declarative_world plugin_loader_globals
                        "" example_internal_attributes
                        "lost_service.yaml" lost_service_config initial
     = (Ok tt, logging initial [Located "pkg.Missing";
                                cannot_create "lost_service.yaml"])
  /\ load_backends declarative_world plugin_loader_globals
                   (declarative_config ["lost_backend.yaml"; "backend_a"])
                   (OOpaque "callback") example_internal_attributes initial
     = (Raise (NameError "_config_loader"),
        logging initial [import_failed "lost_backend.yaml"
                           "No module named lost_backend.yaml";
                         Opened "/plugins/lost_backend.yaml"])
  /\ load_micro_services declarative_world plugin_loader_globals ["/plugins"]
                         ["lost_service.yaml"; "services"]
                         example_internal_attributes initial
     = (Raise (NameError "_config_loader"),
        logging initial [import_failed "lost_service.yaml"
                           "No module named lost_service.yaml";
                         Opened "/plugins/lost_service.yaml"]).
Proof. repeat split; vm_compute; reflexivity. Qed.

(** C6: the claim fails on the code.  With the micro-service list
    [services; hash_service.yaml], whose second identifier is served
    by a declarative file that the reader parses and whose module path
    resolves to a class, no chain is built at all: the pass for the
    request services builds the request service of [services], comes
    to the file and raises [NameError] for [_config_loader]; the
    service built is lost with the call and the pass for the response
    services never starts. *)
Theorem declarative_service_breaks_the_chain :
  open_file declarative_world (file_of "/plugins" "hash_service.yaml")
  = Ok (Ok hash_service_text)
  /\ _load_plugin_config declarative_world hash_service_text initial
     = (Ok hash_service_config, initial)
  /\ locate declarative_world "pkg.HashService"
     = Ok (OClass (UserClass "HashService"))
  /\ load_micro_services declarative_world plugin_loader_globals ["/plugins"]
                         ["services"; "hash_service.yaml"]
                         example_internal_attributes initial
     = (Raise (NameError "_config_loader"),
        {| loaded_plugins :=
             [OInst (OClass (UserClass "FilterRequester")) [ostr ""]];
           loaded_plugin_names := ["services"];
           local_config := None;
           trace := [Called (OClass (UserClass "FilterRequester")) [ostr ""];
                     import_failed "hash_service.yaml"
                       "No module named hash_service.yaml";
                     Opened "/plugins/hash_service.yaml"] |}).
Proof. repeat split; vm_compute; reflexivity. Qed.

(** C8: the claim fails on the code.  [incomplete.yaml] has lost its
    [module] key and [empty.yaml] holds an empty mapping.  Lines 251
    to 293 taken alone warn about the first and pass the second over;
    but the program never comes to them: for either file
    [_load_plugins] raises [NameError] for [_config_loader], where the
    claim has a skip of that plugin only and never a crash, and the
    code module [backend_a] that follows in the list is not loaded. *)
Theorem incomplete_file_raises_NameError :
  _load_plugin_config declarative_world incomplete_text initial
  = (Ok incomplete_config, initial)
  /\ all_in incomplete_config (required_keys false) = Ok false
  /\ declarative_branch declarative_world plugin_loader_globals
                        "https://proxy.example.com" VNone
                        "incomplete.yaml" incomplete_config initial
     = (Ok tt, logging initial [Logged WARNING (missing_parameters false)
                                       ["incomplete.yaml"]])
  /\ _load_plugins declarative_world plugin_loader_globals ["/plugins"]
                   (backend_filter example_mro) "BackendModulePlugin"
                   "https://proxy.example.com" VNone []
                   ["incomplete.yaml"; "backend_a"] initial
     = (Raise (NameError "_config_loader"),
        logging initial [import_failed "incomplete.yaml"
                           "No module named incomplete.yaml";
                         Opened "/plugins/incomplete.yaml"])
  /\ _load_plugins declarative_world plugin_loader_globals ["/plugins"]
                   (backend_filter example_mro) "BackendModulePlugin"
                   "https://proxy.example.com" VNone []
                   ["empty.yaml"; "backend_a"] initial
     = (Raise (NameError "_config_loader"),
        logging initial [import_failed "empty.yaml"
                           "No module named empty.yaml";
                         Opened "/plugins/empty.yaml"]).
Proof. repeat split; vm_compute; reflexivity. Qed.

(** ** Code plugins and the micro-service chains *)

Lemma loads_as_code_contribution W plugin_path plugin_filter base_url args
      plugins modules :
  Forall2 (loads_as_code W plugin_path plugin_filter base_url args)
          plugins modules ->
  mapM (contribution W plugin_path plugin_filter base_url args) plugins
  = Some (map (instances base_url args) modules).
Proof.
  intros H. apply mapM_Some. induction H as [| id found ? ? Hid _ IH]; simpl.
  - constructor.
  - constructor; [| exact IH].
    destruct Hid as (members & Hm & Hg & Hr).
    unfold contribution. rewrite Hm, Hg, Hr. reflexivity.
Qed.

Lemma load_micro_services_contributions W G plugin_path plugins
      internal_attributes lq lr st :
  mapM (contribution W plugin_path
          (_request_micro_service_filter (class_mro W)) "" []) plugins
  = Some lq ->
  mapM (contribution W plugin_path
          (_response_micro_service_filter (class_mro W)) "" []) plugins
  = Some lr ->
  exists st',
    load_micro_services W G plugin_path plugins internal_attributes st
    = (Ok (build_micro_service_queue (concat lq),
           build_micro_service_queue (concat lr)), st').
Proof.
  intros Hq Hr. unfold load_micro_services. unfold bind at 1.
  edestruct (load_plugins_contributions W G plugin_path
               (_request_micro_service_filter (class_mro W))
               (class_name RequestMicroService) "" VNone [] plugins lq Hq)
    as (st1 & ->).
  unfold bind at 1.
  edestruct (load_plugins_contributions W G plugin_path
               (_response_micro_service_filter (class_mro W))
               (class_name ResponseMicroService) "" internal_attributes []
               plugins lr Hr) as (st2 & ->).
  eexists. reflexivity.
Qed.

Lemma traverse_link_services first others :
  traverse (link_services first others) = first :: others.
Proof.
  revert first. induction others as [| second rest IH]; intros first; simpl.
  - reflexivity.
  - rewrite IH. reflexivity.
Qed.

Lemma visited_build service_list :
  visited (build_micro_service_queue service_list) = service_list.
Proof.
  destruct service_list as [| first others]; simpl;
    [reflexivity | apply traverse_link_services].
Qed.

Lemma invoke_link_services {D} (process : pyobj -> D -> D) first others data :
  invoke process (link_services first others) data
  = fold_left (fun d s => process s d) (first :: others) data.
Proof.
  revert first data.
  induction others as [| second rest IH]; intros first data; simpl.
  - reflexivity.
  - rewrite IH. reflexivity.
Qed.

Lemma invoke_queue_build {D} (process : pyobj -> D -> D) service_list data :
  invoke_queue process (build_micro_service_queue service_list) data
  = fold_left (fun d s => process s d) service_list data.
Proof.
  destruct service_list as [| first others];
    [reflexivity | exact (invoke_link_services process first others data)].
Qed.

Lemma built_by_loop W (module_file_name : string) call_args found :
  forall st,
    loaded_plugins
      (snd (for_each found
              (fun member =>
                 instance <- call W (snd member) call_args ;;
                 append_plugin instance ;;;
                 append_name module_file_name) st))
    = loaded_plugins st ++ built W call_args found.
Proof.
  induction found as [| m found IH]; intros st; simpl.
  - symmetry. apply app_nil_r.
  - unfold bind at 1. unfold bind at 1. unfold call, returns.
    destruct (snd m) eqn:Hm; simpl;
      try (symmetry; apply app_nil_r);
      unfold bind at 1; simpl;
      (destruct (call_raises W _ call_args); simpl;
       [symmetry; apply app_nil_r |]);
      unfold bind at 1; simpl; rewrite IH; simpl;
      rewrite <- app_assoc; reflexivity.
Qed.

Lemma load_one_loaded W plugin_path plugin_filter filter_class base_url
      internal_attributes args module_file_name st :
  loaded_plugins
    (snd (load_one W plugin_loader_globals plugin_path plugin_filter
                   filter_class base_url internal_attributes args
                   module_file_name st))
  = loaded_plugins st
    ++ loaded_from W plugin_path plugin_filter base_url args module_file_name.
Proof.
  assert (Hhandler : forall e st1,
    loaded_plugins
      (snd (match
              match e with
              | ImportError reason =>
                  Some (declarative_fallback W plugin_loader_globals
                          plugin_path filter_class base_url
                          internal_attributes module_file_name reason)
              | _ =>
                  if is_Exception e then
                    Some (emit (Logged ERROR
                                  "The configuration file %s is corrupt."
                                  [module_file_name]) ;;;
                          raise (SATOSAConfigurationError
                                   ("The configuration file "
                                    +:+ module_file_name
                                    +:+ " is corrupt.") e))
                  else None
              end
            with
            | Some h => h st1
            | None => (Raise e, st1)
            end))
    = loaded_plugins st1).
  { intros e st1. destruct e; try reflexivity.
    destruct (fallback_as_written W plugin_path filter_class base_url
                internal_attributes module_file_name msg st1)
      as (r & st2 & -> & Hl & _). exact Hl. }
  unfold load_one, try_except, load_code_plugin, loaded_from.
  unfold bind at 1. unfold lift at 1.
  destruct (load_plugin W plugin_path module_file_name) as [members | e];
    [| rewrite Hhandler; symmetry; apply app_nil_r].
  unfold bind at 1. unfold lift at 1.
  destruct (getmembers members plugin_filter) as [found | e];
    [| rewrite Hhandler; symmetry; apply app_nil_r].
  pose proof (built_by_loop W module_file_name (ostr base_url :: args)
                found st) as Hbuilt.
  destruct (for_each found _ st) as [[u | e] st1]; simpl in Hbuilt.
  - exact Hbuilt.
  - rewrite Hhandler. exact Hbuilt.
Qed.

Lemma for_each_loaded W plugin_path plugin_filter filter_class base_url
      internal_attributes args plugins :
  forall st st',
    for_each plugins
      (load_one W plugin_loader_globals plugin_path plugin_filter
                filter_class base_url internal_attributes args) st
    = (Ok tt, st') ->
    loaded_plugins st'
    = loaded_plugins st
      ++ concat (map (loaded_from W plugin_path plugin_filter base_url args)
                     plugins).
Proof.
  induction plugins as [| id plugins IH]; intros st st'; simpl.
  - intros [= <-]. symmetry. apply app_nil_r.
  - unfold bind.
    pose proof (load_one_loaded W plugin_path plugin_filter filter_class
                  base_url internal_attributes args id st) as Hone.
    destruct (load_one W plugin_loader_globals plugin_path plugin_filter
                filter_class base_url internal_attributes args id st)
      as [[u | e] st1]; [| discriminate].
    simpl in Hone. intros Hrest.
    rewrite (IH st1 st' Hrest), Hone, <- app_assoc. reflexivity.
Qed.

Lemma load_plugins_loaded W plugin_path plugin_filter filter_class base_url
      internal_attributes args plugins st l st' :
  _load_plugins W plugin_loader_globals plugin_path plugin_filter filter_class
                base_url internal_attributes args plugins st
  = (Ok l, st') ->
  l = concat (map (loaded_from W plugin_path plugin_filter base_url args)
                  plugins).
Proof.
  unfold _load_plugins. unfold bind at 1. simpl. unfold bind at 1.
  match goal with
  | |- context [for_each plugins ?f ?s] =>
      pose proof (for_each_loaded W plugin_path plugin_filter filter_class
                    base_url internal_attributes args plugins s) as H;
      destruct (for_each plugins f s) as [[[] | e'] st1]
  end; [| discriminate].
  specialize (H st1 eq_refl). simpl in H.
  unfold bind, get_loaded_plugin_names, get_loaded_plugins, emit. simpl.
  intros [= <- _]. exact H.
Qed.

(** X19: what the chains hold whenever [load_micro_services] returns,
    with the module as it is written and whatever the world and the
    identifiers are.  Following the links of either chain from its
    entry point meets exactly the instances built for the identifiers,
    those of the first identifier first and so on in the order of the
    list, and for one identifier in the order of its members: all the
    accepted members of a code module, or those before the first member
    whose constructor failed, and nothing for an identifier that is no
    code module.  Invoking the chain runs them in that order; a chain
    built from no service has no entry point and hands the data back
    unchanged.  (The chain is the one the specification describes for
    [build_micro_service_queue], which is defined outside this
    module.) *)
Theorem chains_visit_what_was_loaded
        (W : World) (plugin_path plugins : list string)
        (internal_attributes : pyvalue)
        (q r : option chain) (st st' : state) :
  load_micro_services W plugin_loader_globals plugin_path plugins
                      internal_attributes st
  = (Ok (q, r), st') ->
  visited q
  = concat (map (loaded_from W plugin_path
                   (_request_micro_service_filter (class_mro W)) "" [])
                plugins)
  /\ visited r
     = concat (map (loaded_from W plugin_path
                      (_response_micro_service_filter (class_mro W)) "" [])
                   plugins)
  /\ (forall D (process : pyobj -> D -> D) data,
        invoke_queue process q data
        = fold_left (fun d s => process s d) (visited q) data
        /\ invoke_queue process r data
           = fold_left (fun d s => process s d) (visited r) data)
  /\ (visited q = [] ->
      q = None /\ forall D (process : pyobj -> D -> D) data,
                    invoke_queue process q data = data).
Proof.
  unfold load_micro_services. unfold bind at 1.
  destruct (_load_plugins W plugin_loader_globals plugin_path
              (_request_micro_service_filter (class_mro W))
              (class_name RequestMicroService) "" VNone [] plugins st)
    as [[lq | e] st1] eqn:Hq; [| discriminate].
  unfold bind at 1.
  destruct (_load_plugins W plugin_loader_globals plugin_path
              (_response_micro_service_filter (class_mro W))
              (class_name ResponseMicroService) "" internal_attributes []
              plugins st1)
    as [[lr | e] st2] eqn:Hr; [| discriminate].
  apply load_plugins_loaded in Hq, Hr.
  unfold bind, emit, ret. simpl. intros [= <- <- _].
  rewrite !visited_build.
  split; [exact Hq |]. split; [exact Hr |]. split.
  - intros D process data. split; apply invoke_queue_build.
  - intros ->. split; reflexivity.
Qed.

Lemma chains_visit_what_was_loaded_witness :
  visited (build_micro_service_queue
             [OInst (OClass (UserClass "FilterRequester")) [ostr ""];
              OInst (OClass (UserClass "FilterRequester")) [ostr ""]])
  = concat (map (loaded_from strict_world ["/plugins"]
                   (_request_micro_service_filter (class_mro strict_world))
                   "" [])
                ["services"; "no_such_plugin"; "services"])
  /\ visited (build_micro_service_queue
                [OInst (OClass (UserClass "AddAttributes")) [ostr ""];
                 OInst (OClass (UserClass "AddAttributes")) [ostr ""]])
     = concat (map (loaded_from strict_world ["/plugins"]
                      (_response_micro_service_filter (class_mro strict_world))
                      "" [])
                   ["services"; "no_such_plugin"; "services"]).
Proof.
  destruct (chains_visit_what_was_loaded
              strict_world ["/plugins"]
              ["services"; "no_such_plugin"; "services"]
              example_internal_attributes
              (build_micro_service_queue
                 [OInst (OClass (UserClass "FilterRequester")) [ostr ""];
                  OInst (OClass (UserClass "FilterRequester")) [ostr ""]])
              (build_micro_service_queue
                 [OInst (OClass (UserClass "AddAttributes")) [ostr ""];
                  OInst (OClass (UserClass "AddAttributes")) [ostr ""]])
              initial
              (snd (load_micro_services strict_world plugin_loader_globals
                      ["/plugins"] ["services"; "no_such_plugin"; "services"]
                      example_internal_attributes initial))
              ltac:(vm_compute; reflexivity))
    as (Hq & Hr & _).
  split; assumption.
Defined.




(** ** The declarative branch *)

Lemma dict_get_truthy (d : list (string * pyvalue)) key v :
  dict_get key d = Some v -> truthy (VDict d) = true.
Proof. destruct d; [discriminate | reflexivity]. Qed.

Lemma branch_category W G base_url internal_attributes module_file_name
      _config st :
  truthy _config = true ->
  declarative_branch W G base_url internal_attributes module_file_name _config st
  = try_except
      (micro_service <- lift (is_micro_service _config) ;;
       if micro_service : bool
       then load_micro_service_from W internal_attributes module_file_name _config
       else load_endpoint_from W G base_url module_file_name _config)
      (skip_handler module_file_name) st.
Proof.
  intros Ht. unfold declarative_branch. rewrite Ht.
  unfold try_except, is_micro_service, bind, lift, rbind, ret.
  destruct (py_contains _config "plugin") as [[] | e]; try reflexivity.
  destruct (py_getitem _config "plugin") as [p | e]; try reflexivity.
Qed.

Lemma py_contains_raises c key e :
  py_contains c key = Raise e -> is_Exception e = true.
Proof. destruct c; simpl; intros H; inversion H; reflexivity. Qed.

Lemma py_getitem_raises c key e :
  py_getitem c key = Raise e -> is_Exception e = true.
Proof.
  destruct c; simpl; intros H; try (inversion H; reflexivity).
  destruct (dict_get key items); inversion H; reflexivity.
Qed.

Lemma all_in_raises c keys e :
  all_in c keys = Raise e -> is_Exception e = true.
Proof.
  induction keys as [| k keys IH]; simpl; [discriminate |].
  destruct (py_contains c k) as [[] | e'] eqn:Hc; simpl; intros H.
  - auto.
  - discriminate.
  - inversion H; subst. eapply py_contains_raises; eauto.
Qed.

Lemma is_micro_service_raises c e :
  is_micro_service c = Raise e -> is_Exception e = true.
Proof.
  unfold is_micro_service.
  destruct (py_contains c "plugin") as [[] | e1] eqn:H1; simpl.
  - destruct (py_getitem c "plugin") as [p | e2] eqn:H2; simpl.
    + apply py_contains_raises.
    + intros H; inversion H; subst. eapply py_getitem_raises; eauto.
  - discriminate.
  - intros H; inversion H; subst. eapply py_contains_raises; eauto.
Qed.

Lemma try_lift_ok {A} (r : result A) a (k : A -> M unit) h st :
  r = Ok a ->
  try_except (x <- lift r ;; k x) h st = try_except (k a) h st.
Proof. intros ->. reflexivity. Qed.

Lemma try_lift_raise {A} (r : result A) e (k : A -> M unit) id st :
  r = Raise e -> is_Exception e = true ->
  try_except (x <- lift r ;; k x) (skip_handler id) st
  = (Ok tt, logging st [cannot_create id]).
Proof.
  intros -> He. unfold try_except, bind, lift, skip_handler. rewrite He.
  reflexivity.
Qed.

Lemma guarded_skip keys (body : M unit) warning id _config st :
  all_in _config keys <> Ok true ->
  try_except
    (complete <- lift (all_in _config keys) ;;
     if complete : bool then body
     else emit (Logged WARNING warning [id]))
    (skip_handler id) st
  = (Ok tt,
     logging st [match all_in _config keys with
                 | Ok false => Logged WARNING warning [id]
                 | _ => cannot_create id
                 end]).
Proof.
  intros Hkeys. destruct (all_in _config keys) as [[] | e] eqn:Hall.
  - congruence.
  - rewrite (try_lift_ok _ false) by reflexivity. reflexivity.
  - apply (try_lift_raise _ e); [reflexivity |]. eapply all_in_raises; eauto.
Qed.

(** X18: lines 251 to 267 and 269 to 291 on a parsed file that lacks
    keys.  For a parsed configuration Python treats as true, unless its
    category can be decided and all the keys required for that category
    are found, the branch ends normally with exactly one log record and
    nothing else: no lookup of a module or an attribute, no call, no
    plugin added.  The record is the warning about missing parameters
    of the category when the check of the keys answers no, and the
    error record of the handler when deciding the category or checking
    the keys raises. *)
Theorem incomplete_configuration_skipped
        (W : World) (G : Globals) (base_url : string)
        (internal_attributes : pyvalue) (module_file_name : string)
        (_config : pyvalue) (st : state) :
  truthy _config = true ->
  (forall micro_service,
      is_micro_service _config = Ok micro_service ->
      all_in _config (required_keys micro_service) <> Ok true) ->
  declarative_branch W G base_url internal_attributes module_file_name
                     _config st
  = (Ok tt, logging st [skip_record module_file_name _config]).
Proof.
  intros Ht Hkeys. rewrite (branch_category _ _ _ _ _ _ _ Ht).
  unfold skip_record.
  destruct (is_micro_service _config) as [ms | e] eqn:Hms.
  - specialize (Hkeys ms eq_refl).
    rewrite (try_lift_ok _ ms) by reflexivity.
    destruct ms; unfold load_micro_service_from, load_endpoint_from;
      rewrite guarded_skip by exact Hkeys; reflexivity.
  - apply (try_lift_raise _ e); [reflexivity |].
    eapply is_micro_service_raises; eauto.
Qed.

Lemma incomplete_configuration_skipped_witness :
  declarative_branch example_world plugin_loader_globals
                     "https://proxy.example.com" VNone
                     "legacy_backend.conf" incomplete_config initial
  = (Ok tt,
     logging initial
       [Logged WARNING
          "Missing mandatory configuration parameters in the plugin %s (plugin, module, receiver and/or config)."
          ["legacy_backend.conf"]]).
Proof.
  apply (incomplete_configuration_skipped example_world plugin_loader_globals
           "https://proxy.example.com" VNone "legacy_backend.conf"
           incomplete_config initial).
  - reflexivity.
  - intros ms Hms. vm_compute in Hms. injection Hms as <-.
    vm_compute. discriminate.
Defined.

(** An empty configuration lacks every required key, and the branch
    ends without a log record: the guard of line 251 passes it over. *)
Lemma empty_configuration_skipped_silently :
  is_micro_service (VDict []) = Ok false
  /\ all_in (VDict []) (required_keys false) = Ok false
  /\ declarative_branch example_world plugin_loader_globals
                        "https://proxy.example.com" VNone
                        "legacy_backend.conf" (VDict []) initial
     = (Ok tt, initial).
Proof. repeat split; vm_compute; reflexivity. Qed.

Lemma is_micro_service_dict d p :
  dict_get "plugin" d = Some (VStr p) ->
  is_micro_service (VDict d)
  = Ok (is_substring (text_of "MicroService") (text_of p)).
Proof. intros H. unfold is_micro_service. simpl. rewrite H. reflexivity. Qed.

(** X17: lines 251 to 293 on a parsed file whose module path names
    nothing.  When [pydoc.locate] finds nothing for the module path,
    the plugin is skipped in both categories.  For a micro-service the
    call of the missing type fails; for an endpoint plugin the explicit
    [ValueError] is raised; either is caught by the handler of the
    branch, which logs that the module of this identifier cannot be
    created.  The branch ends normally and no plugin is added. *)
Theorem unresolvable_module_skipped
        (W : World) (G : Globals) (base_url : string)
        (internal_attributes : pyvalue) (module_file_name : string)
        (d : list (string * pyvalue)) (p path : string) (st : state) :
  dict_get "plugin" d = Some (VStr p) ->
  dict_get "module" d = Some (VStr path) ->
  locate W path = Ok (OVal VNone) ->
  (is_substring (text_of "MicroService") (text_of p) = true ->
   declarative_branch W G base_url internal_attributes module_file_name
                      (VDict d) st
   = (Ok tt, logging st [Located path; cannot_create module_file_name]))
  /\ (is_substring (text_of "MicroService") (text_of p) = false ->
      forall n c cls,
        dict_get "name" d = Some n ->
        dict_get "config" d = Some c ->
        module_attr G p = Some cls ->
        declarative_branch W G base_url internal_attributes module_file_name
                           (VDict d) st
        = (Ok tt, logging st [Resolved p; Located path;
                              cannot_create module_file_name])).
Proof.
  intros Hp Hm Hloc.
  assert (Ht : truthy (VDict d) = true) by (eapply dict_get_truthy; eauto).
  split.
  - intros Hms. rewrite (branch_category _ _ _ _ _ _ _ Ht).
    rewrite (try_lift_ok _ true) by (rewrite (is_micro_service_dict _ _ Hp); congruence).
    unfold load_micro_service_from, try_except, bind, lift, locate_value,
      skip_handler. simpl. rewrite Hp, Hm. simpl. rewrite Hloc.
    destruct (dict_get "config" d); unfold call, raise, emit, logging; simpl;
      rewrite <- ?app_assoc; reflexivity.
  - intros Hms n c cls Hn Hc Hcls. rewrite (branch_category _ _ _ _ _ _ _ Ht).
    rewrite (try_lift_ok _ false) by (rewrite (is_micro_service_dict _ _ Hp); congruence).
    unfold load_endpoint_from, try_except, bind, lift, locate_value,
      getattr_module, skip_handler. simpl. rewrite Hn, Hp, Hm, Hc. simpl.
    rewrite Hcls. simpl. rewrite Hloc. unfold raise, emit, logging. simpl.
    rewrite <- ?app_assoc. reflexivity.
Qed.

Lemma unresolvable_module_skipped_witness :
  declarative_branch example_world plugin_loader_globals
                     "https://proxy.example.com" VNone "hash_service.conf"
                     (VDict [("plugin", VStr "ResponseMicroService");
                             ("module", VStr "pkg.HashService")]) initial
  = (Ok tt, logging initial [Located "pkg.HashService";
                             cannot_create "hash_service.conf"]).
Proof.
  apply (unresolvable_module_skipped example_world plugin_loader_globals
           "https://proxy.example.com" VNone "hash_service.conf"
           [("plugin", VStr "ResponseMicroService");
            ("module", VStr "pkg.HashService")]
           "ResponseMicroService" "pkg.HashService" initial);
    reflexivity.
Defined.

(** The module path of [legacy_config] names nothing, and the branch
    ends normally with a log record; no exception leaves it. *)
Lemma unresolvable_endpoint_not_fatal :
  locate example_world "pkg.Legacy" = Ok (OVal VNone)
  /\ is_micro_service legacy_config = Ok false
  /\ declarative_branch example_world plugin_loader_globals
                        "https://proxy.example.com" VNone
                        "legacy_backend.conf" legacy_config initial
     = (Ok tt, logging initial [Resolved "BackendModulePlugin";
                                Located "pkg.Legacy";
                                cannot_create "legacy_backend.conf"]).
Proof. repeat split; vm_compute; reflexivity. Qed.

(** ** [str.replace] *)

Lemma is_prefix_spec p t :
  is_prefix p t = true <-> exists r, t = p ++ r.
Proof.
  revert t. induction p as [| a p IH]; intros t; simpl.
  - split; eauto.
  - destruct t as [| b t].
    + split; [discriminate | intros [r Hr]; discriminate].
    + rewrite andb_true_iff, Ascii.eqb_eq, IH. split.
      * intros [-> [r ->]]. eauto.
      * intros [r Hr]. injection Hr as -> ->. eauto.
Qed.

Lemma is_prefix_app p r : is_prefix p (p ++ r) = true.
Proof. apply is_prefix_spec. eauto. Qed.

Lemma is_prefix_app_l p a b :
  is_prefix p a = true -> is_prefix p (a ++ b) = true.
Proof.
  rewrite !is_prefix_spec. intros [r ->]. exists (r ++ b).
  symmetry. apply app_assoc.
Qed.

Lemma is_prefix_before p a c b :
  c ∉ p -> is_prefix p (a ++ c :: b) = true -> is_prefix p a = true.
Proof.
  revert a. induction p as [| x p IH]; intros a Hc; simpl; [reflexivity |].
  destruct a as [| y a]; simpl.
  - rewrite andb_true_iff, Ascii.eqb_eq. intros [-> _].
    exfalso. apply Hc. left.
  - rewrite !andb_true_iff. intros [Hxy Hp]. split; [exact Hxy |].
    apply IH; [| exact Hp]. intros Hin. apply Hc. right. exact Hin.
Qed.

Lemma replace_go_skip old new a b :
  replace_go old new (length a) (a ++ b) = replace_go old new 0 b.
Proof. induction a as [| x a IH]; simpl; [reflexivity | exact IH]. Qed.

Lemma replace_go_match old new rest :
  old <> [] ->
  replace_go old new 0 (old ++ rest) = new ++ replace_go old new 0 rest.
Proof.
  destruct old as [| c old]; [congruence | intros _].
  change (replace_go (c :: old) new 0 ((c :: old) ++ rest))
    with (if is_prefix (c :: old) ((c :: old) ++ rest)
          then new ++ replace_go (c :: old) new (length (c :: old) - 1)
                        (old ++ rest)
          else c :: replace_go (c :: old) new 0 (old ++ rest)).
  rewrite is_prefix_app. f_equal.
  replace (length (c :: old) - 1)%nat with (length old) by (simpl; lia).
  apply replace_go_skip.
Qed.

Lemma replace_go_miss old new c t :
  is_prefix old (c :: t) = false ->
  replace_go old new 0 (c :: t) = c :: replace_go old new 0 t.
Proof. intros H. simpl replace_go. rewrite H. reflexivity. Qed.

Lemma replace_go_nil old new : replace_go old new 0 [] = [].
Proof. reflexivity. Qed.

(** No occurrence starts in a text that lacks the first character of
    [old]. *)
Lemma replace_go_without_head h old new a b :
  h ∉ a ->
  replace_go (h :: old) new 0 (a ++ b)
  = a ++ replace_go (h :: old) new 0 b.
Proof.
  induction a as [| x a IH]; intros Hh; [reflexivity |].
  rewrite <- !app_comm_cons. rewrite replace_go_miss.
  - f_equal. apply IH. intros Hin. apply Hh. right. exact Hin.
  - simpl. destruct (Ascii.eqb_spec h x) as [-> |]; [| reflexivity].
    exfalso. apply Hh. left.
Qed.

(** No occurrence runs over a character that [old] does not hold. *)
Lemma replace_go_through old new c :
  old <> [] -> c ∉ old ->
  forall a b,
    replace_go old new 0 (a ++ c :: b)
    = replace_go old new 0 a ++ c :: replace_go old new 0 b.
Proof.
  intros Hold Hc a.
  induction a as [a IH] using (induction_ltof1 _ (@length ascii)).
  unfold ltof in IH. intros b.
  destruct (is_prefix old (a ++ c :: b)) eqn:Hp.
  - pose proof (is_prefix_before _ _ _ _ Hc Hp) as Ha.
    apply is_prefix_spec in Ha as [a' ->].
    rewrite <- app_assoc, !replace_go_match, <- app_assoc by assumption.
    f_equal. apply IH. rewrite length_app.
    destruct old; [congruence | simpl; lia].
  - destruct a as [| x a].
    + rewrite app_nil_l in *. rewrite replace_go_miss by exact Hp. reflexivity.
    + rewrite <- !app_comm_cons in *. rewrite replace_go_miss by exact Hp.
      rewrite replace_go_miss.
      * rewrite <- app_comm_cons. f_equal. apply IH. simpl. lia.
      * destruct (is_prefix old (x :: a)) eqn:Hpa; [| reflexivity].
        apply (is_prefix_app_l _ _ (c :: b)) in Hpa.
        rewrite <- app_comm_cons in Hpa. congruence.
Qed.

(** ** Replacement inside a serialized value *)

Lemma pyvalue_induction (P : pyvalue -> Prop) :
  P VNone ->
  (forall b, P (VBool b)) ->
  (forall z, P (VInt z)) ->
  (forall s, P (VStr s)) ->
  (forall l, Forall P l -> P (VList l)) ->
  (forall d, Forall (fun kv => P (snd kv)) d -> P (VDict d)) ->
  forall v, P v.
Proof.
  intros HN HB HI HS HL HD. fix IH 1. intros [| b | z | s | l | d].
  - exact HN.
  - apply HB.
  - apply HI.
  - apply HS.
  - apply HL. induction l as [| v l IHl]; constructor; [apply IH | exact IHl].
  - apply HD. induction d as [| [k v] d IHd]; constructor;
      [apply IH | exact IHd].
Qed.

Lemma lacks_char c t :
  forallb (fun x => negb (Ascii.eqb x c)) t = true -> c ∉ t.
Proof.
  induction t as [| x t IH]; simpl; intros H Hin.
  - inversion Hin.
  - apply andb_true_iff in H as [Hx Ht]. inversion Hin; subst.
    + rewrite Ascii.eqb_refl in Hx. discriminate.
    + apply IH; assumption.
Qed.

Lemma render_uint_lacks_lt u : ch_lt ∉ render_uint u.
Proof.
  induction u; simpl; intros Hin;
    [inversion Hin | apply elem_of_cons in Hin as [Heq | Hin] ..];
    try discriminate Heq; auto.
Qed.

Lemma render_int_lacks_lt z : ch_lt ∉ render_int z.
Proof.
  unfold render_int. destruct (Z.to_int z) as [u | u].
  - apply render_uint_lacks_lt.
  - intros Hin. apply elem_of_cons in Hin as [Heq | Hin]; [discriminate |].
    eapply render_uint_lacks_lt; eauto.
Qed.

Lemma join_cons2 sep (p q : text) rest :
  join sep (p :: q :: rest) = p ++ sep ++ join sep (q :: rest).
Proof. reflexivity. Qed.

Lemma dumps_list_app body l rest :
  dumps_with body (VList l) ++ rest
  = lit "[" ++ (join (lit ", ") (map (dumps_with body) l) ++ (lit "]" ++ rest)).
Proof. simpl. rewrite <- app_assoc. reflexivity. Qed.

Lemma dumps_dict_app body d rest :
  dumps_with body (VDict d) ++ rest
  = lit "{"
    ++ (join (lit ", ")
          (map (fun kv => dump_string body (fst kv)
                          ++ (lit ": " ++ dumps_with body (snd kv))) d)
        ++ (lit "}" ++ rest)).
Proof. simpl. rewrite <- app_assoc. reflexivity. Qed.

Section ReplaceDumps.

Variables (old' new : text).
Variable body : string -> text.
Hypothesis quote_free : ch_quote ∉ ch_lt :: old'.

Local Abbreviation R := (replace_token old' new).

Lemma R_without_lt t rest : ch_lt ∉ t -> R (t ++ rest) = t ++ R rest.
Proof. apply replace_go_without_head. Qed.

Lemma R_literal t rest :
  forallb (fun x => negb (Ascii.eqb x ch_lt)) t = true ->
  R (t ++ rest) = t ++ R rest.
Proof. intros H. apply R_without_lt, lacks_char, H. Qed.

Lemma replace_dump_string s rest :
  R (dump_string body s ++ rest)
  = dump_string (fun s => R (body s)) s ++ R rest.
Proof.
  unfold dump_string, replace_token.
  change ((ch_quote :: body s ++ [ch_quote]) ++ rest)
    with ([ch_quote] ++ ((body s ++ [ch_quote]) ++ rest)).
  rewrite replace_go_without_head.
  - rewrite <- app_assoc. simpl.
    rewrite replace_go_through by (try discriminate; exact quote_free).
    rewrite <- app_assoc. reflexivity.
  - apply lacks_char. reflexivity.
Qed.

Lemma replace_join {X} (f f' : X -> text) sep l :
  ch_lt ∉ sep ->
  Forall (fun x => forall rest, R (f x ++ rest) = f' x ++ R rest) l ->
  forall rest,
    R (join sep (map f l) ++ rest) = join sep (map f' l) ++ R rest.
Proof.
  intros Hsep H. induction H as [| x l Hx Hl IH]; intros rest.
  - reflexivity.
  - destruct l as [| y l].
    + simpl. apply Hx.
    + simpl map in *. rewrite !join_cons2, <- !app_assoc, Hx.
      rewrite R_without_lt by exact Hsep. rewrite IH. reflexivity.
Qed.

Lemma replace_dumps v :
  forall rest,
    R (dumps_with body v ++ rest)
    = dumps_with (fun s => R (body s)) v ++ R rest.
Proof.
  induction v as [| b | z | s | l IH | d IH] using pyvalue_induction;
    intros rest.
  - apply R_literal. reflexivity.
  - destruct b; apply R_literal; reflexivity.
  - apply R_without_lt, render_int_lacks_lt.
  - apply replace_dump_string.
  - rewrite !dumps_list_app.
    rewrite R_literal by reflexivity.
    rewrite (replace_join (dumps_with body)
                       (dumps_with (fun s => R (body s))))
      by (try exact IH; apply lacks_char; reflexivity).
    rewrite R_literal by reflexivity.
    reflexivity.
  - rewrite !dumps_dict_app.
    rewrite R_literal by reflexivity.
    fold R.
    rewrite (replace_join
               (fun kv => dump_string body (fst kv)
                          ++ (lit ": " ++ dumps_with body (snd kv)))
               (fun kv => dump_string (fun s => R (body s)) (fst kv)
                          ++ (lit ": "
                              ++ dumps_with (fun s => R (body s)) (snd kv)))).
    + rewrite R_literal by reflexivity.
      reflexivity.
    + apply lacks_char. reflexivity.
    + eapply Forall_impl; [exact IH |]. intros [k v] Hv rest'.
      cbv beta. unfold fst, snd in *.
      rewrite <- !app_assoc, replace_dump_string.
      rewrite R_literal by reflexivity.
    rewrite Hv. reflexivity.
Qed.

End ReplaceDumps.

(** ** String bodies *)

Lemma escape_char_verbatim c :
  verbatim_char c = true -> escape_char c = [c].
Proof.
  destruct c as [[] [] [] [] [] [] [] []]; intros H;
    try discriminate H; reflexivity.
Qed.

Lemma escape_char_escaped c :
  verbatim_char c = false ->
  (exists t, escape_char c = ch_backslash :: t)
  /\ forallb (fun x => negb (Ascii.eqb x ch_lt)) (escape_char c) = true
  /\ forall r, scan_string (escape_char c ++ r) = cons_to c (scan_string r).
Proof.
  destruct c as [[] [] [] [] [] [] [] []]; intros H;
    try discriminate H;
    (split; [eexists; reflexivity | split; [reflexivity | intros r; reflexivity]]).
Qed.

Lemma verbatim_plain c : verbatim_char c = true -> plain_char c = true.
Proof.
  destruct c as [[] [] [] [] [] [] [] []]; intros H;
    try discriminate H; reflexivity.
Qed.

Lemma scan_string_plain c r :
  plain_char c = true -> scan_string (c :: r) = cons_to c (scan_string r).
Proof.
  destruct c as [[] [] [] [] [] [] [] []]; intros H;
    try discriminate H; reflexivity.
Qed.

Lemma encodes_escape_text s : encodes (escape s) s.
Proof.
  induction s as [| c s IH]; [constructor |].
  unfold escape. simpl. fold (escape s).
  destruct (verbatim_char c) eqn:Hc.
  - rewrite (escape_char_verbatim _ Hc). simpl.
    apply encodes_plain; [apply verbatim_plain, Hc | exact IH].
  - apply encodes_escape; assumption.
Qed.

Lemma encodes_decodes t s :
  encodes t s ->
  forall rest, scan_string (t ++ ch_quote :: rest) = Some (s, rest).
Proof.
  induction 1 as [| c t s Hc _ IH | c t s Hc _ IH]; intros rest.
  - reflexivity.
  - rewrite <- app_comm_cons, (scan_string_plain _ _ Hc), IH. reflexivity.
  - destruct (escape_char_escaped _ Hc) as (_ & _ & Hscan).
    rewrite <- app_assoc, Hscan, IH. reflexivity.
Qed.

Lemma encodes_app_plain new t s :
  forallb plain_char new = true ->
  encodes t s -> encodes (new ++ t) (new ++ s).
Proof.
  induction new as [| c new IH]; simpl; intros H Hts; [exact Hts |].
  apply andb_true_iff in H as [Hc H]. apply encodes_plain; auto.
Qed.

Lemma verbatim_not_backslash c : verbatim_char c = true -> c <> ch_backslash.
Proof. intros H ->. discriminate H. Qed.

Lemma encodes_head_verbatim h t1 s :
  verbatim_char h = true -> encodes (h :: t1) s ->
  exists s1, s = h :: s1 /\ encodes t1 s1.
Proof.
  intros Hh H. inversion H as [| c t s0 Hc Hts | c t s0 Hc Hts]; subst.
  - eauto.
  - destruct (escape_char_escaped _ Hc) as ([e He] & _).
    rewrite He in *. simpl in *.
    match goal with
    | E : _ :: _ = _ :: _ |- _ => injection E as E1 E2
    end.
    exfalso. eapply verbatim_not_backslash; eauto.
Qed.

Lemma encodes_is_prefix old t s :
  forallb verbatim_char old = true ->
  encodes t s -> is_prefix old t = is_prefix old s.
Proof.
  revert t s. induction old as [| h old IH]; intros t s Hold Hts;
    [reflexivity |].
  simpl in Hold. apply andb_true_iff in Hold as [Hh Hold].
  inversion Hts as [| c t0 s0 Hc Ht0 | c t0 s0 Hc Ht0]; subst.
  - reflexivity.
  - simpl. rewrite (IH _ _ Hold Ht0). reflexivity.
  - destruct (escape_char_escaped _ Hc) as ([e He] & _).
    rewrite He. simpl.
    destruct (Ascii.eqb_spec h ch_backslash) as [-> |]; [discriminate Hh |].
    destruct (Ascii.eqb_spec h c) as [-> |]; [congruence | reflexivity].
Qed.

Lemma encodes_strip old :
  forallb verbatim_char old = true ->
  forall t s,
    encodes t s -> is_prefix old t = true ->
    exists t' s', t = old ++ t' /\ s = old ++ s' /\ encodes t' s'.
Proof.
  induction old as [| h old IH]; intros Hold t s Hts Hp.
  - exists t, s. auto.
  - simpl in Hold. apply andb_true_iff in Hold as [Hh Hold].
    destruct t as [| x t]; [discriminate Hp |].
    simpl in Hp. apply andb_true_iff in Hp as [Hx Hp].
    apply Ascii.eqb_eq in Hx as <-.
    destruct (encodes_head_verbatim _ _ _ Hh Hts) as (s1 & -> & Hts1).
    destruct (IH Hold _ _ Hts1 Hp) as (t' & s' & -> & -> & H').
    exists t', s'. auto.
Qed.

(** Replacing a token on both sides keeps the encoding: the token
    starts with [<], which no escape sequence holds, and the new text
    needs no escape. *)
Lemma encodes_replace old' new :
  forallb verbatim_char (ch_lt :: old') = true ->
  forallb plain_char new = true ->
  forall t s,
    encodes t s ->
    encodes (replace_go (ch_lt :: old') new 0 t)
            (replace_go (ch_lt :: old') new 0 s).
Proof.
  intros Hold Hnew t s. revert t.
  induction s as [s IH] using (induction_ltof1 _ (@length ascii)).
  unfold ltof in IH. intros t Hts.
  destruct (is_prefix (ch_lt :: old') s) eqn:Hp.
  - pose proof Hp as Hpt. rewrite <- (encodes_is_prefix _ _ _ Hold Hts) in Hpt.
    destruct (encodes_strip _ Hold _ _ Hts Hpt) as (t' & s' & -> & -> & H').
    rewrite !replace_go_match by discriminate.
    apply encodes_app_plain; [exact Hnew |].
    apply IH; [| exact H']. rewrite length_app. simpl. lia.
  - pose proof Hp as Hpt. rewrite <- (encodes_is_prefix _ _ _ Hold Hts) in Hpt.
    inversion Hts as [| c t0 s0 Hc Ht0 | c t0 s0 Hc Ht0]; subst.
    + constructor.
    + rewrite !replace_go_miss by assumption.
      apply encodes_plain; [exact Hc |]. apply IH; [simpl; lia | exact Ht0].
    + rewrite (replace_go_miss _ _ _ _ Hp).
      destruct (escape_char_escaped _ Hc) as (_ & Hlt & _).
      rewrite replace_go_without_head by (apply lacks_char, Hlt).
      apply encodes_escape; [exact Hc |]. apply IH; [simpl; lia | exact Ht0].
Qed.

(** ** Integer literals *)

Lemma closes_head c rest :
  closes (c :: rest) = true ->
  digit_of c = None /\ starts_float (c :: rest) = false /\ is_ws c = false
  /\ (ord c =? 45) = false.
Proof.
  destruct c as [[] [] [] [] [] [] [] []]; intros H;
    try discriminate H; repeat split; reflexivity.
Qed.

Lemma closes_skip_ws rest : closes rest = true -> skip_ws rest = rest.
Proof.
  destruct rest as [| c rest]; [reflexivity |]. intros H.
  destruct (closes_head _ _ H) as (_ & _ & Hws & _). simpl. rewrite Hws.
  reflexivity.
Qed.

Lemma lex_digits_render u rest :
  closes rest = true -> lex_digits (render_uint u ++ rest) = (u, rest).
Proof.
  intros H. induction u; simpl;
    try (change (digit_of (chr 48)) with (Some Decimal.D0);
         change (digit_of (chr 49)) with (Some Decimal.D1);
         change (digit_of (chr 50)) with (Some Decimal.D2);
         change (digit_of (chr 51)) with (Some Decimal.D3);
         change (digit_of (chr 52)) with (Some Decimal.D4);
         change (digit_of (chr 53)) with (Some Decimal.D5);
         change (digit_of (chr 54)) with (Some Decimal.D6);
         change (digit_of (chr 55)) with (Some Decimal.D7);
         change (digit_of (chr 56)) with (Some Decimal.D8);
         change (digit_of (chr 57)) with (Some Decimal.D9);
         cbv iota beta; rewrite IHu; reflexivity).
  destruct rest as [| c rest]; [reflexivity |].
  destruct (closes_head _ _ H) as (Hd & _). simpl. rewrite Hd. reflexivity.
Qed.

Lemma nzhead_not_D0 d u : Decimal.nzhead d <> Decimal.D0 u.
Proof. induction d; simpl; try discriminate; exact IHd. Qed.

Lemma to_uint_normal p : Decimal.unorm (Pos.to_uint p) = Pos.to_uint p.
Proof.
  rewrite <- (DecimalPos.Unsigned.to_of (Pos.to_uint p)).
  rewrite DecimalPos.Unsigned.of_to. reflexivity.
Qed.

Lemma to_uint_head p :
  match Pos.to_uint p with
  | Decimal.Nil | Decimal.D0 _ => False
  | _ => True
  end.
Proof.
  pose proof (to_uint_normal p) as Hn.
  pose proof (DecimalPos.Unsigned.to_uint_nonzero p) as Hz.
  pose proof (DecimalPos.Unsigned.to_uint_nonnil p) as Hnil.
  destruct (Pos.to_uint p) as [| u | | | | | | | | |]; try exact I.
  - congruence.
  - unfold Decimal.unorm in Hn. simpl in Hn.
    destruct (Decimal.nzhead u) eqn:Hu.
    + injection Hn as <-. apply Hz. reflexivity.
    + eapply nzhead_not_D0. rewrite Hu, Hn. reflexivity.
    + discriminate.
    + discriminate.
    + discriminate.
    + discriminate.
    + discriminate.
    + discriminate.
    + discriminate.
    + discriminate.
    + discriminate.
Qed.

Lemma of_uint_to_uint p : Z.of_uint (Pos.to_uint p) = Z.pos p.
Proof.
  unfold Z.of_uint. rewrite DecimalPos.Unsigned.of_to. reflexivity.
Qed.

Lemma scan_number_uint negative u rest :
  closes rest = true -> normal u ->
  (let '(u', r) := lex_digits (render_uint u ++ rest) in
   match u' with
   | Decimal.Nil => None
   | Decimal.D0 (Decimal.D0 _ | Decimal.D1 _ | Decimal.D2 _ | Decimal.D3 _
                | Decimal.D4 _ | Decimal.D5 _ | Decimal.D6 _ | Decimal.D7 _
                | Decimal.D8 _ | Decimal.D9 _) => None
   | _ =>
       if starts_float r then None
       else Some (if negative : bool then - Z.of_uint u' else Z.of_uint u', r)
   end)
  = Some (if negative then - Z.of_uint u else Z.of_uint u, rest).
Proof.
  intros Hc Hu. rewrite (lex_digits_render _ _ Hc).
  assert (Hf : starts_float rest = false).
  { destruct rest as [| c rest]; [reflexivity |].
    apply (closes_head _ _ Hc). }
  destruct u as [| [] | | | | | | | | |]; try contradiction;
    rewrite Hf; reflexivity.
Qed.

Lemma render_uint_head u :
  normal u ->
  exists c t, render_uint u = c :: t /\ (ord c =? 45) = false.
Proof.
  destruct u; intros H; try contradiction; eexists _, _; split; reflexivity.
Qed.

Lemma scan_number_digits u rest :
  closes rest = true -> normal u ->
  scan_number (render_uint u ++ rest) = Some (Z.of_uint u, rest)
  /\ scan_number (chr 45 :: render_uint u ++ rest) = Some (- Z.of_uint u, rest).
Proof.
  intros Hc Hu. split.
  - destruct (render_uint_head _ Hu) as (c & t & Hr & Hminus).
    unfold scan_number. rewrite Hr, <- app_comm_cons, Hminus.
    rewrite app_comm_cons, <- Hr.
    apply (scan_number_uint false _ _ Hc Hu).
  - unfold scan_number. change (ord (chr 45) =? 45) with true. cbv iota.
    apply (scan_number_uint true _ _ Hc Hu).
Qed.

Lemma to_uint_normal_form p : normal (Pos.to_uint p).
Proof.
  pose proof (to_uint_head p) as H. unfold normal.
  destruct (Pos.to_uint p); auto. contradiction.
Qed.

Lemma scan_number_render z rest :
  closes rest = true ->
  scan_number (render_int z ++ rest) = Some (z, rest).
Proof.
  intros Hc. unfold render_int, Z.to_int. destruct z as [| p | p].
  - apply (scan_number_digits (Decimal.D0 Decimal.Nil) rest Hc I).
  - destruct (scan_number_digits _ rest Hc (to_uint_normal_form p)) as [-> _].
    rewrite of_uint_to_uint. reflexivity.
  - destruct (scan_number_digits _ rest Hc (to_uint_normal_form p)) as [_ H].
    rewrite <- app_comm_cons, H, of_uint_to_uint. reflexivity.
Qed.

(** ** Parsing a serialized value *)

Lemma starts_int_head c :
  starts_int c = true ->
  is_ws c = false /\ (ord c =? 93) = false
  /\ forall fuel t,
      scan_value (S fuel) (c :: t)
      = match scan_number (c :: t) with
        | Some (z, r) => Some (VInt z, r)
        | None => None
        end.
Proof.
  destruct c as [[] [] [] [] [] [] [] []]; intros H;
    try discriminate H; repeat split; reflexivity.
Qed.

Lemma render_int_head z :
  exists c t, render_int z = c :: t /\ starts_int c = true.
Proof.
  unfold render_int, Z.to_int. destruct z as [| p | p].
  - eexists _, _. split; reflexivity.
  - pose proof (to_uint_head p) as H.
    destruct (Pos.to_uint p); try contradiction;
      eexists _, _; split; reflexivity.
  - eexists _, _. split; reflexivity.
Qed.

Lemma scan_value_string fuel t :
  scan_value (S fuel) (ch_quote :: t)
  = match scan_string t with
    | Some (s, r) => Some (VStr (str_of s), r)
    | None => None
    end.
Proof. reflexivity. Qed.

Lemma scan_value_list fuel t :
  scan_value (S fuel) (chr 91 :: t)
  = match skip_ws t with
    | c1 :: r =>
        if ord c1 =? 93 then Some (VList [], r)
        else match scan_items fuel (c1 :: r) with
             | Some (items, r') => Some (VList items, r')
             | None => None
             end
    | [] => None
    end.
Proof. reflexivity. Qed.

Lemma scan_value_dict fuel t :
  scan_value (S fuel) (chr 123 :: t)
  = match skip_ws t with
    | c1 :: r =>
        if ord c1 =? 125 then Some (VDict [], r)
        else if ord c1 =? 34 then
          match scan_members fuel r with
          | Some (pairs, r') => Some (VDict (dict_of_pairs pairs), r')
          | None => None
          end
        else None
    | [] => None
    end.
Proof. reflexivity. Qed.

Lemma scan_items_step fuel t :
  scan_items (S fuel) t
  = match scan_value fuel t with
    | Some (v, r) =>
        match skip_ws r with
        | c :: r1 =>
            if ord c =? 93 then Some ([v], r1)
            else if ord c =? 44 then cons_to v (scan_items fuel (skip_ws r1))
            else None
        | [] => None
        end
    | None => None
    end.
Proof. reflexivity. Qed.

Lemma scan_members_step fuel t :
  scan_members (S fuel) t
  = match scan_string t with
    | Some (k, r) =>
        match skip_ws r with
        | c :: r1 =>
            if ord c =? 58 then
              match scan_value fuel (skip_ws r1) with
              | Some (v, r2) =>
                  match skip_ws r2 with
                  | c2 :: r3 =>
                      if ord c2 =? 125 then Some ([(str_of k, v)], r3)
                      else if ord c2 =? 44 then
                        match skip_ws r3 with
                        | c3 :: r4 =>
                            if ord c3 =? 34
                            then cons_to (str_of k, v) (scan_members fuel r4)
                            else None
                        | [] => None
                        end
                      else None
                  | [] => None
                  end
              | None => None
              end
            else None
        | [] => None
        end
    | None => None
    end.
Proof. reflexivity. Qed.

Lemma str_of_text_of s : str_of (text_of s) = s.
Proof. apply String.string_of_list_ascii_of_string. Qed.

Lemma text_of_str_of t : text_of (str_of t) = t.
Proof. apply String.list_ascii_of_string_of_list_ascii. Qed.

Section ParseDumps.

Variable enc : string -> text.
Variable dec : string -> string.
Hypothesis enc_dec : forall s, encodes (enc s) (text_of (dec s)).

Lemma dumps_head v :
  exists c t, dumps_with enc v = c :: t
              /\ is_ws c = false /\ (ord c =? 93) = false.
Proof.
  destruct v as [| [] | z | s | l | d];
    try (eexists _, _; repeat split; reflexivity).
  destruct (render_int_head z) as (c & t & Hr & Hc).
  destruct (starts_int_head _ Hc) as (Hws & Hb & _).
  exists c, t. simpl. auto.
Qed.

Lemma skip_ws_dumps v r : skip_ws (dumps_with enc v ++ r) = dumps_with enc v ++ r.
Proof.
  destruct (dumps_head v) as (c & t & -> & Hws & _).
  simpl. rewrite Hws. reflexivity.
Qed.

Lemma join_head v l :
  exists c t, join (lit ", ") (map (dumps_with enc) (v :: l)) = c :: t
              /\ is_ws c = false /\ (ord c =? 93) = false.
Proof.
  destruct (dumps_head v) as (c & t & Hv & Hws & Hb).
  destruct l as [| w l].
  - exists c, t. simpl. auto.
  - simpl map. rewrite join_cons2, Hv. eexists c, _. split; [reflexivity | auto].
Qed.

Local Abbreviation parses := (parses enc dec).

Lemma join_cons_nonempty sep (p : text) l :
  l <> [] -> join sep (p :: l) = p ++ sep ++ join sep l.
Proof. destruct l; [congruence | reflexivity]. Qed.

Lemma scan_item v :
  parses v ->
  forall fuel tail,
    (length (dumps_with enc v) <= fuel)%nat -> closes tail = true ->
    scan_items (S fuel) (dumps_with enc v ++ tail)
    = match tail with
      | c :: r1 =>
          if ord c =? 93 then Some ([map_strings dec v], r1)
          else if ord c =? 44
               then cons_to (map_strings dec v)
                            (scan_items fuel (skip_ws r1))
               else None
      | [] => None
      end.
Proof.
  intros Hv fuel tail Hfuel Htail. rewrite scan_items_step.
  rewrite Hv by assumption. rewrite (closes_skip_ws _ Htail). reflexivity.
Qed.

Lemma scan_items_join l :
  Forall parses l -> l <> [] ->
  forall fuel rest,
    (length (join (lit ", ") (map (dumps_with enc) l)) < fuel)%nat ->
    scan_items fuel
      (join (lit ", ") (map (dumps_with enc) l) ++ chr 93 :: rest)
    = Some (map (map_strings dec) l, rest).
Proof.
  induction 1 as [| v l Hv Hl IH]; [congruence | intros _ fuel rest Hfuel].
  destruct fuel as [| fuel]; [lia |].
  destruct l as [| w l].
  - change (join (lit ", ") (map (dumps_with enc) [v]))
      with (dumps_with enc v) in *.
    rewrite (scan_item _ Hv) by (try reflexivity; lia). reflexivity.
  - change (map (dumps_with enc) (v :: w :: l))
      with (dumps_with enc v :: map (dumps_with enc) (w :: l)) in *.
    rewrite join_cons_nonempty in Hfuel |- * by discriminate.
    rewrite !length_app in Hfuel.
    change (length (lit ", ")) with 2%nat in Hfuel.
    rewrite <- !app_assoc.
    rewrite (scan_item _ Hv) by (try reflexivity; lia).
    change (lit ", " ++ ?x) with (chr 44 :: chr 32 :: x). cbv iota.
    change (ord (chr 44) =? 93) with false.
    change (ord (chr 44) =? 44) with true. cbv iota.
    change (skip_ws (chr 32 :: ?x)) with (skip_ws x).
    destruct (join_head w l) as (c & t & Hj & Hws & _).
    assert (Hskip : forall r,
               skip_ws (join (lit ", ") (map (dumps_with enc) (w :: l)) ++ r)
               = join (lit ", ") (map (dumps_with enc) (w :: l)) ++ r).
    { intros r. rewrite Hj. simpl. rewrite Hws. reflexivity. }
    rewrite Hskip, IH by (try discriminate; lia). reflexivity.
Qed.

Lemma members_text_single kv :
  members_text enc [kv]
  = enc (fst kv) ++ ch_quote :: lit ": " ++ dumps_with enc (snd kv) ++ [].
Proof. reflexivity. Qed.

Lemma member_length k v tail :
  length (enc k ++ ch_quote :: lit ": " ++ dumps_with enc v ++ tail)
  = (length (enc k) + 3 + length (dumps_with enc v) + length tail)%nat.
Proof.
  rewrite length_app. change (lit ": ") with [chr 58; chr 32].
  simpl. rewrite length_app. lia.
Qed.

Lemma members_text_cons kv kv' d :
  members_text enc (kv :: kv' :: d)
  = enc (fst kv) ++ ch_quote :: lit ": " ++ dumps_with enc (snd kv)
    ++ lit ", " ++ ch_quote :: members_text enc (kv' :: d).
Proof. reflexivity. Qed.

Lemma entry_text kv rest :
  (dump_string enc (fst kv) ++ lit ": " ++ dumps_with enc (snd kv)) ++ rest
  = ch_quote :: enc (fst kv) ++ ch_quote :: lit ": "
    ++ dumps_with enc (snd kv) ++ rest.
Proof.
  unfold dump_string. simpl. rewrite <- !app_assoc. reflexivity.
Qed.

Lemma join_entries d :
  d <> [] ->
  join (lit ", ")
       (map (fun kv => dump_string enc (fst kv) ++ lit ": "
                       ++ dumps_with enc (snd kv)) d)
  = ch_quote :: members_text enc d.
Proof.
  induction d as [| kv d IH]; [congruence | intros _].
  destruct d as [| kv' d].
  - rewrite members_text_single.
    transitivity ((dump_string enc (fst kv) ++ lit ": "
                   ++ dumps_with enc (snd kv)) ++ []);
      [rewrite app_nil_r; reflexivity |].
    rewrite entry_text. reflexivity.
  - rewrite members_text_cons, map_cons.
    rewrite join_cons_nonempty by discriminate.
    rewrite IH by discriminate. rewrite entry_text. reflexivity.
Qed.

Lemma scan_member k v :
  parses v ->
  forall fuel tail,
    (length (dumps_with enc v) <= fuel)%nat -> closes tail = true ->
    scan_members (S fuel)
      (enc k ++ ch_quote :: lit ": " ++ dumps_with enc v ++ tail)
    = match tail with
      | c2 :: r3 =>
          if ord c2 =? 125 then Some ([(dec k, map_strings dec v)], r3)
          else if ord c2 =? 44 then
            match skip_ws r3 with
            | c3 :: r4 =>
                if ord c3 =? 34
                then cons_to (dec k, map_strings dec v) (scan_members fuel r4)
                else None
            | [] => None
            end
          else None
      | [] => None
      end.
Proof.
  intros Hv fuel tail Hfuel Htail. rewrite scan_members_step.
  rewrite (encodes_decodes _ _ (enc_dec k)).
  change (skip_ws (lit ": " ++ ?x)) with (skip_ws (chr 58 :: chr 32 :: x)).
  change (skip_ws (chr 58 :: chr 32 :: ?x)) with (chr 58 :: chr 32 :: x).
  change (ord (chr 58) =? 58) with true. cbv iota.
  change (skip_ws (chr 32 :: ?x)) with (skip_ws x).
  rewrite skip_ws_dumps, Hv by assumption.
  rewrite (closes_skip_ws _ Htail), str_of_text_of. reflexivity.
Qed.

Lemma scan_members_text d :
  Forall (fun kv => parses (snd kv)) d -> d <> [] ->
  forall fuel rest,
    (length (members_text enc d) < fuel)%nat ->
    scan_members fuel (members_text enc d ++ chr 125 :: rest)
    = Some (map (fun kv => (dec (fst kv), map_strings dec (snd kv))) d, rest).
Proof.
  induction 1 as [| kv d Hv Hd IH]; [congruence | intros _ fuel rest Hfuel].
  destruct fuel as [| fuel]; [lia |].
  destruct d as [| kv' d].
  - rewrite members_text_single in *. rewrite member_length in Hfuel.
    rewrite app_nil_r. rewrite <- app_assoc, <- app_comm_cons.
    rewrite <- app_assoc.
    rewrite (scan_member _ _ Hv) by (try reflexivity; lia). reflexivity.
  - rewrite members_text_cons in *. rewrite member_length in Hfuel.
    change (lit ", " ++ ch_quote :: ?x) with (chr 44 :: chr 32 :: ch_quote :: x)
      in Hfuel.
    change (length (chr 44 :: chr 32 :: ch_quote :: ?x))
      with (S (S (S (length x)))) in Hfuel.
    rewrite <- app_assoc, <- app_comm_cons. rewrite <- !app_assoc.
    rewrite (scan_member _ _ Hv) by (try reflexivity; lia).
    change (lit ", " ++ ?x) with (chr 44 :: chr 32 :: x). cbv iota.
    change (ord (chr 44) =? 125) with false.
    change (ord (chr 44) =? 44) with true. cbv iota.
    rewrite <- app_comm_cons.
    change (skip_ws (chr 32 :: ch_quote :: ?x)) with (ch_quote :: x).
    change (ord ch_quote =? 34) with true. cbv iota.
    rewrite IH by (try discriminate; lia). reflexivity.
Qed.

Lemma dumps_list_length l :
  length (dumps_with enc (VList l))
  = S (S (length (join (lit ", ") (map (dumps_with enc) l)))).
Proof.
  rewrite <- (app_nil_r (dumps_with enc (VList l))), dumps_list_app.
  change (lit "[") with [chr 91]. change (lit "]") with [chr 93].
  rewrite !length_app. simpl length. lia.
Qed.

Lemma dumps_dict_length d :
  d <> [] ->
  length (dumps_with enc (VDict d)) = S (S (S (length (members_text enc d)))).
Proof.
  intros Hd.
  rewrite <- (app_nil_r (dumps_with enc (VDict d))), dumps_dict_app.
  rewrite (join_entries d Hd).
  change (lit "{") with [chr 123]. change (lit "}") with [chr 125].
  rewrite !length_app. simpl length. lia.
Qed.

Lemma dumps_length_pos v : (0 < length (dumps_with enc v))%nat.
Proof. destruct (dumps_head v) as (c & t & -> & _). simpl. lia. Qed.

Lemma parses_all v : parses v.
Proof.
  induction v as [| b | z | s | l IH | d IH] using pyvalue_induction;
    intros fuel rest Hfuel Hrest;
    (destruct fuel as [| fuel];
     [match type of Hfuel with
      | (length (dumps_with enc ?v) <= _)%nat =>
          pose proof (dumps_length_pos v); lia
      end |]).
  - reflexivity.
  - destruct b; reflexivity.
  - destruct (render_int_head z) as (c & t & Hr & Hc).
    destruct (starts_int_head _ Hc) as (_ & _ & Hscan).
    simpl dumps_with. rewrite Hr, <- app_comm_cons, Hscan.
    rewrite app_comm_cons, <- Hr, scan_number_render by exact Hrest.
    reflexivity.
  - simpl dumps_with. unfold dump_string.
    rewrite <- app_comm_cons, <- app_assoc, scan_value_string.
    simpl app. rewrite (encodes_decodes _ _ (enc_dec s)), str_of_text_of.
    reflexivity.
  - destruct l as [| v l]; [reflexivity |].
    rewrite dumps_list_app. change (lit "[" ++ ?x) with (chr 91 :: x).
    rewrite scan_value_list.
    destruct (join_head v l) as (c & t & Hj & Hws & Hb).
    assert (Hskip : skip_ws (join (lit ", ") (map (dumps_with enc) (v :: l))
                             ++ lit "]" ++ rest)
                    = c :: t ++ lit "]" ++ rest).
    { rewrite Hj. simpl. rewrite Hws. reflexivity. }
    rewrite Hskip, Hb. rewrite app_comm_cons, <- Hj.
    change (lit "]" ++ rest) with (chr 93 :: rest).
    rewrite scan_items_join; [reflexivity | exact IH | discriminate |].
    rewrite dumps_list_length in Hfuel. lia.
  - destruct d as [| kv d]; [reflexivity |].
    rewrite dumps_dict_app. change (lit "{" ++ ?x) with (chr 123 :: x).
    rewrite scan_value_dict.
    rewrite (join_entries (kv :: d)) by discriminate.
    rewrite <- app_comm_cons.
    change (skip_ws (ch_quote :: ?x)) with (ch_quote :: x).
    change (ord ch_quote =? 125) with false.
    change (ord ch_quote =? 34) with true. cbv iota.
    change (lit "}" ++ rest) with (chr 125 :: rest).
    rewrite scan_members_text; [reflexivity | exact IH | discriminate |].
    rewrite dumps_dict_length in Hfuel by discriminate. lia.
Qed.

Lemma loads_dumps v :
  json_loads (dumps_with enc v) = Ok (map_strings dec v).
Proof.
  unfold json_loads.
  rewrite <- (app_nil_r (dumps_with enc v)) at 2.
  rewrite skip_ws_dumps, parses_all by (try reflexivity; lia).
  reflexivity.
Qed.

End ParseDumps.

(** ** Token substitution *)

Lemma json_safe_plain s :
  json_safe s = true -> forallb plain_char (text_of s) = true.
Proof. exact (fun H => H). Qed.

Lemma replace_in_str_text old' new s :
  text_of (replace_in_str (str_of (ch_lt :: old')) new s)
  = replace_go (ch_lt :: old') (text_of new) 0 (text_of s).
Proof.
  unfold replace_in_str. rewrite !text_of_str_of. reflexivity.
Qed.

Lemma substituted_text_dumps base_url name cfg :
  substituted_text base_url name cfg
  = dumps_with
      (fun s =>
         replace_token (text_of "name>") (text_of name)
           (replace_token (text_of "base_url>") (text_of base_url)
              (escape (text_of s))))
      cfg.
Proof.
  unfold substituted_text, json_dumps.
  change (str_replace (lit "<name>") ?n ?t)
    with (replace_token (text_of "name>") n t).
  change (str_replace (lit "<base_url>") ?n ?t)
    with (replace_token (text_of "base_url>") n t).
  rewrite <- (app_nil_r (dumps_with _ cfg)).
  rewrite replace_dumps by (apply lacks_char; reflexivity).
  change (replace_token ?o ?n []) with (@nil ascii).
  rewrite replace_dumps by (apply lacks_char; reflexivity).
  change (replace_token ?o ?n []) with (@nil ascii).
  rewrite app_nil_r. reflexivity.
Qed.

Lemma substituted_body_encodes base_url name s :
  json_safe base_url = true -> json_safe name = true ->
  encodes
    (replace_token (text_of "name>") (text_of name)
       (replace_token (text_of "base_url>") (text_of base_url)
          (escape (text_of s))))
    (text_of (replace_in_str "<name>" name
                (replace_in_str "<base_url>" base_url s))).
Proof.
  intros Hb Hn.
  change "<name>" with (str_of (ch_lt :: text_of "name>")).
  change "<base_url>" with (str_of (ch_lt :: text_of "base_url>")).
  rewrite !replace_in_str_text. unfold replace_token.
  apply encodes_replace; [reflexivity | exact Hn |].
  apply encodes_replace; [reflexivity | exact Hb |].
  apply encodes_escape_text.
Qed.



(** The replacement is made in the serialized text and is not escaped.
    The serialized configuration is valid; with a double quote in the
    base URL the text after replacement is not, and [json.loads]
    raises; with a backslash followed by [n] in the plugin name the
    text parses to a value that holds a line feed where the name holds
    those two characters. *)
Lemma substitution_can_corrupt_the_text :
  json_loads (json_dumps templated_config) = Ok templated_config
  /\ json_loads (substituted_text quoted_url "legacy" templated_config)
     = Raise JSONDecodeError
  /\ fst (render_config quoted_url (VStr "legacy") templated_config initial)
     = Raise JSONDecodeError
  /\ dict_get "x" (match substitute_tokens "https://proxy.example.com"
                            backslash_name templated_config with
                   | VDict d => d
                   | _ => []
                   end)
     = Some (VStr backslash_name)
  /\ match json_loads (substituted_text "https://proxy.example.com"
                                        backslash_name templated_config) with
     | Ok (VDict d) =>
         dict_get "x" d = Some (VStr (str_of (text_of "corp" ++ [chr 10]
                                              ++ text_of "idp")))
     | _ => False
     end.
Proof. repeat split; vm_compute; reflexivity. Qed.

(** * Further properties *)

(** ** Scanning a module *)

Lemma getmembers_filter p members :
  Forall (fun m : string * pyobj => exists b, p (snd m) = Ok b) members ->
  getmembers members p
  = Ok (List.filter (fun m => accepts p (snd m)) members).
Proof.
  induction 1 as [| m members [b Hb] _ IH]; [reflexivity |].
  simpl. unfold accepts. rewrite Hb. simpl.
  rewrite IH. simpl. destruct b; reflexivity.
Qed.

Lemma scan_family (P : pyobj -> Prop) (p : pyobj -> result bool) members :
  (forall o, compares_by_identity o ->
             exists b, p o = Ok b /\ (b = true <-> P o)) ->
  Forall (fun m => compares_by_identity (snd m)) members ->
  getmembers members p
  = Ok (List.filter (fun m => accepts p (snd m)) members)
  /\ (forall m, In m members -> (accepts p (snd m) = true <-> P (snd m)))
  /\ Forall (fun m => P (snd m))
            (List.filter (fun m => accepts p (snd m)) members).
Proof.
  intros Hp Hid.
  assert (Hacc : forall m, In m members ->
                           (accepts p (snd m) = true <-> P (snd m))).
  { intros m Hm. rewrite List.Forall_forall in Hid.
    destruct (Hp (snd m) (Hid m Hm)) as (b & Hb & Hiff).
    unfold accepts. rewrite Hb. destruct b; [exact Hiff |].
    split; [discriminate | intros HP; apply Hiff in HP; discriminate]. }
  split; [| split; [exact Hacc |]].
  - apply getmembers_filter.
    apply List.Forall_forall. intros m Hm. rewrite List.Forall_forall in Hid.
    destruct (Hp (snd m) (Hid m Hm)) as (b & Hb & _). eauto.
  - apply List.Forall_forall. intros m Hm.
    apply List.filter_In in Hm as [Hin Hm]. apply (Hacc m Hin), Hm.
Qed.



(** ** The code path, step by step *)

Lemma logging_logging st a b : logging (logging st a) b = logging st (a ++ b).
Proof. unfold logging. simpl. rewrite <- app_assoc. reflexivity. Qed.

Lemma loading_loading st p n e p' n' e' :
  loading (loading st p n e) p' n' e'
  = loading st (p ++ p') (n ++ n') (e ++ e').
Proof. unfold loading. simpl. rewrite <- !app_assoc. reflexivity. Qed.

Lemma loading_nothing st : loading st [] [] [] = st.
Proof. destruct st. unfold loading. simpl. rewrite !app_nil_r. reflexivity. Qed.

Lemma logging_loading st p n e e' :
  logging (loading st p n e) e' = loading st p n (e ++ e').
Proof. unfold logging, loading. simpl. rewrite <- app_assoc. reflexivity. Qed.

Lemma logging_as_loading st e : logging st e = loading st [] [] e.
Proof. unfold logging, loading. rewrite !app_nil_r. reflexivity. Qed.

Lemma instantiate_member W (module_file_name : string) call_args
      (m : string * pyobj) st :
  returns W (snd m) call_args = true ->
  (instance <- call W (snd m) call_args ;;
   append_plugin instance ;;;
   append_name module_file_name) st
  = (Ok tt, loading st [OInst (snd m) call_args] [module_file_name]
                    [Called (snd m) call_args]).
Proof.
  intros Hm. unfold bind at 1. rewrite (call_returns _ _ _ _ Hm). reflexivity.
Qed.

Lemma instantiate_members_exact W (module_file_name : string) call_args found :
  forallb (fun m : string * pyobj => returns W (snd m) call_args) found = true ->
  forall st,
    for_each found
      (fun member =>
         instance <- call W (snd member) call_args ;;
         append_plugin instance ;;;
         append_name module_file_name) st
    = (Ok tt,
       loading st (map (fun m => OInst (snd m) call_args) found)
               (map (fun _ => module_file_name) found)
               (map (fun m => Called (snd m) call_args) found)).
Proof.
  induction found as [| m found IH]; simpl; intros H st.
  - rewrite loading_nothing. reflexivity.
  - apply andb_true_iff in H as [Hm H].
    unfold bind at 1. rewrite (instantiate_member _ _ _ _ _ Hm).
    rewrite (IH H), loading_loading. reflexivity.
Qed.

Lemma scan_paths_absent_exact W G filter_class module_file_name _config paths :
  absent W paths module_file_name = true ->
  forall st,
    scan_paths W G filter_class paths module_file_name _config st
    = (Ok _config, logging st (files_tried paths module_file_name)).
Proof.
  unfold absent.
  induction paths as [| path paths IH]; simpl; intros H st.
  - unfold logging, files_tried. simpl. rewrite app_nil_r. destruct st.
    reflexivity.
  - apply andb_true_iff in H as [Hp H].
    destruct (open_file W (file_of path module_file_name)) as [content | e];
      [discriminate |].
    destruct e; try discriminate.
    unfold bind. simpl. rewrite (IH H). f_equal.
    unfold logging, files_tried. simpl. rewrite <- app_assoc. reflexivity.
Qed.

Lemma fallback_absent W G plugin_path filter_class base_url internal_attributes
      module_file_name reason st :
  absent W plugin_path module_file_name = true ->
  declarative_fallback W G plugin_path filter_class base_url
                       internal_attributes module_file_name reason st
  = (Ok tt, logging st (import_failed module_file_name reason
                        :: files_tried plugin_path module_file_name)).
Proof.
  intros Ha. unfold declarative_fallback. unfold bind at 1. simpl.
  unfold bind at 1.
  rewrite (scan_paths_absent_exact W G filter_class module_file_name VNone
             plugin_path Ha).
  simpl. f_equal. unfold logging. simpl. rewrite <- app_assoc. reflexivity.
Qed.

(** X4: an identifier that is neither an importable module nor a file
    of the search path is passed over, whatever the module's globals
    are: the loop goes on, no plugin and no name is added, and all that
    is left is the debug record of the failed import and one attempt to
    open the file in each directory, in the order of the search path.
    No warning or error is logged for it. *)
Theorem absent_identifier_passed_over
        (W : World) (G : Globals) (plugin_path : list string)
        (plugin_filter : pyobj -> result bool) (filter_class base_url : string)
        (internal_attributes : pyvalue) (args : list pyobj)
        (module_file_name reason : string) (st : state) :
  load_plugin W plugin_path module_file_name = Raise (ImportError reason) ->
  absent W plugin_path module_file_name = true ->
  load_one W G plugin_path plugin_filter filter_class base_url
           internal_attributes args module_file_name st
  = (Ok tt, logging st (import_failed module_file_name reason
                        :: files_tried plugin_path module_file_name)).
Proof.
  intros Hi Ha. rewrite (load_one_import_error _ _ _ _ _ _ _ _ _ _ _ Hi).
  apply fallback_absent, Ha.
Qed.

Lemma absent_identifier_passed_over_witness :
  load_one example_world plugin_loader_globals ["/plugins"; "/etc/satosa"]
           (backend_filter example_mro) "BackendModulePlugin"
           "https://proxy.example.com" VNone [] "no_such_plugin" initial
  = (Ok tt,
     logging initial
       [import_failed "no_such_plugin" "No module named no_such_plugin";
        Opened "/plugins/no_such_plugin";
        Opened "/etc/satosa/no_such_plugin"]).
Proof.
  apply (absent_identifier_passed_over example_world plugin_loader_globals
           ["/plugins"; "/etc/satosa"] (backend_filter example_mro)
           "BackendModulePlugin" "https://proxy.example.com" VNone []
           "no_such_plugin" "No module named no_such_plugin" initial);
    vm_compute; reflexivity.
Defined.

(** X3: when the constructor of one accepted member raises
    [ImportError], the plugins built from the members before it stay in
    the list, the members after it are not built, and the identifier is
    then treated as a failed import: with no same-named file in the
    search path the loop goes on with that partial load. *)
Theorem import_error_in_constructor_keeps_partial_load
        (W : World) (G : Globals) (plugin_path : list string)
        (plugin_filter : pyobj -> result bool) (filter_class base_url : string)
        (internal_attributes : pyvalue) (args : list pyobj)
        (module_file_name reason : string)
        (members before after : list (string * pyobj)) (m : string * pyobj)
        (st : state) :
  load_plugin W plugin_path module_file_name = Ok members ->
  getmembers members plugin_filter = Ok (before ++ m :: after) ->
  forallb (fun x => returns W (snd x) (ostr base_url :: args)) before = true ->
  callable (snd m) = true ->
  call_raises W (snd m) (ostr base_url :: args) = Some (ImportError reason) ->
  absent W plugin_path module_file_name = true ->
  load_one W G plugin_path plugin_filter filter_class base_url
           internal_attributes args module_file_name st
  = (Ok tt,
     loading st
       (map (fun x => OInst (snd x) (ostr base_url :: args)) before)
       (map (fun _ => module_file_name) before)
       (map (fun x => Called (snd x) (ostr base_url :: args)) before
        ++ Called (snd m) (ostr base_url :: args)
        :: import_failed module_file_name reason
        :: files_tried plugin_path module_file_name)).
Proof.
  intros Hl Hg Hb Hc Hr Ha.
  unfold load_one, load_code_plugin, try_except.
  unfold bind at 1. rewrite Hl. simpl. unfold bind at 1. rewrite Hg. simpl.
  rewrite for_each_app, (instantiate_members_exact _ _ _ _ Hb).
  simpl. unfold bind at 1. unfold bind at 1.
  assert (Hcall : forall s,
             call W (snd m) (ostr base_url :: args) s
             = (Raise (ImportError reason),
                logging s [Called (snd m) (ostr base_url :: args)])).
  { intros s. unfold call. destruct (snd m); try discriminate Hc;
      unfold bind; simpl; rewrite Hr; reflexivity. }
  rewrite Hcall. rewrite (fallback_absent _ _ _ _ _ _ _ _ _ Ha).
  rewrite logging_logging, logging_loading. reflexivity.
Qed.

Lemma import_error_in_constructor_keeps_partial_load_witness :
  load_one strict_world plugin_loader_globals ["/plugins"]
           (_response_micro_service_filter example_mro) "ResponseMicroService"
           "" VNone [] "services" initial
  = (Ok tt,
     loading initial
       [OInst (OClass (UserClass "AddAttributes")) [ostr ""]]
       ["services"]
       [Called (OClass (UserClass "AddAttributes")) [ostr ""];
        Called (OClass (UserClass "HashUserId")) [ostr ""];
        import_failed "services" "No module named ldap";
        Opened "/plugins/services"]).
Proof.
  apply (import_error_in_constructor_keeps_partial_load
           strict_world plugin_loader_globals ["/plugins"]
           (_response_micro_service_filter example_mro) "ResponseMicroService"
           "" VNone [] "services" "No module named ldap"
           [("AddAttributes", OClass (UserClass "AddAttributes"));
            ("FilterRequester", OClass (UserClass "FilterRequester"));
            ("HashUserId", OClass (UserClass "HashUserId"));
            ("ResponseMicroService", OClass ResponseMicroService)]
           [("AddAttributes", OClass (UserClass "AddAttributes"))] []
           ("HashUserId", OClass (UserClass "HashUserId")) initial);
    vm_compute; reflexivity.
Defined.

(** X2: when the code path of an identifier raises anything but
    [ImportError] (the import itself, a filter or a constructor), no
    fallback is tried: [_load_plugins] logs and raises
    [SATOSAConfigurationError] naming the identifier, chained from the
    original error, and the identifiers after it are not touched.  An
    exception that is no [Exception] at all (a keyboard interrupt)
    leaves the loader as it is. *)
Theorem code_path_failure_is_configuration_error
        (W : World) (G : Globals) (plugin_path : list string)
        (plugin_filter : pyobj -> result bool) (filter_class base_url : string)
        (internal_attributes : pyvalue) (args : list pyobj)
        (earlier : list string) (module_file_name : string)
        (later : list string) (e : exn) (st st1 st2 : state) :
  for_each earlier
    (load_one W G plugin_path plugin_filter filter_class base_url
              internal_attributes args) (snd (enter st))
  = (Ok tt, st1) ->
  load_code_plugin W plugin_path plugin_filter base_url args
                   module_file_name st1
  = (Raise e, st2) ->
  (forall reason, e <> ImportError reason) ->
  _load_plugins W G plugin_path plugin_filter filter_class base_url
                internal_attributes args
                (earlier ++ module_file_name :: later) st
  = (Raise (wrapped module_file_name e),
     if is_Exception e
     then logging st2 [Logged ERROR "The configuration file %s is corrupt."
                         [module_file_name]]
     else st2).
Proof.
  intros Hearlier Hcode Hne.
  unfold _load_plugins. unfold bind at 1. simpl. unfold bind at 1.
  rewrite for_each_app. simpl in Hearlier. rewrite Hearlier.
  simpl. unfold bind at 1. unfold load_one, try_except. rewrite Hcode.
  unfold wrapped.
  destruct e; try reflexivity. exfalso. eapply Hne. reflexivity.
Qed.

Lemma code_path_failure_is_configuration_error_witness :
  _load_plugins strict_world plugin_loader_globals ["/plugins"]
                (backend_filter example_mro) "BackendModulePlugin"
                "https://proxy.example.com" VNone []
                (["no_such_plugin"] ++ "backend_a" :: ["services"]) initial
  = (Raise (SATOSAConfigurationError
              "The configuration file backend_a is corrupt."
              (ValueError "missing entity id")),
     logging initial
       [import_failed "no_such_plugin" "No module named no_such_plugin";
        Opened "/plugins/no_such_plugin";
        Called (OClass (UserClass "BackendA"))
               [ostr "https://proxy.example.com"];
        Logged ERROR "The configuration file %s is corrupt." ["backend_a"]]).
Proof.
  apply (code_path_failure_is_configuration_error
           strict_world plugin_loader_globals ["/plugins"]
           (backend_filter example_mro) "BackendModulePlugin"
           "https://proxy.example.com" VNone [] ["no_such_plugin"]
           "backend_a" ["services"] (ValueError "missing entity id") initial
           (logging initial
              [import_failed "no_such_plugin" "No module named no_such_plugin";
               Opened "/plugins/no_such_plugin"])
           (logging initial
              [import_failed "no_such_plugin" "No module named no_such_plugin";
               Opened "/plugins/no_such_plugin";
               Called (OClass (UserClass "BackendA"))
                      [ostr "https://proxy.example.com"]]));
    [vm_compute; reflexivity | vm_compute; reflexivity | discriminate].
Defined.

(** ** The assembler and the entry points *)

Lemma key_order_step n names keys :
  key_order names (key_order [n] keys) = key_order (n :: names) keys.
Proof. reflexivity. Qed.

Lemma assemble_exact W base_url callback ia plugins descs :
  Forall2 (fun o p => attributes W o = Some p) plugins descs ->
  Forall (fun p => returns W (module p)
                     (endpoint_args base_url callback ia p) = true) descs ->
  forall rest table keys st,
    assemble W base_url callback ia (plugins ++ rest) table keys st
    = assemble W base_url callback ia rest
               (insert_all base_url callback ia descs table)
               (key_order (map name descs) keys)
               (logging st (map (fun p => Called (module p)
                                            (endpoint_args base_url callback ia p))
                                descs)).
Proof.
  induction 1 as [| o p plugins descs Ho _ IH]; intros Hret rest table keys st.
  - simpl. unfold logging. simpl. rewrite app_nil_r. destruct st. reflexivity.
  - apply Forall_cons in Hret as [Hp Hret]. simpl. rewrite Ho.
    unfold bind at 1. rewrite (call_returns _ _ _ _ Hp).
    rewrite (IH Hret). f_equal.
    unfold logging. simpl. rewrite <- app_assoc. reflexivity.
Qed.

(** X5: the assembler does not guard the construction of the endpoint
    modules.  When the plugins before one all carry their attributes
    and build, and that one either lacks an attribute or has a module
    type whose call raises, the exception leaves
    [_load_endpoint_modules] as it is (it is not turned into a
    configuration error); the modules before it were built, no table is
    returned, and the record of the loaded modules is not logged. *)
Theorem endpoint_construction_failure_propagates
        (W : World) (base_url : string) (callback : pyobj)
        (internal_attributes : pyvalue)
        (before : list pyobj) (descs : list plugin_attributes)
        (plugin : pyobj) (after : list pyobj) (st : state) :
  Forall2 (fun o p => attributes W o = Some p) before descs ->
  Forall (fun p => returns W (module p)
                     (endpoint_args base_url callback internal_attributes p)
                   = true) descs ->
  (attributes W plugin = None ->
   _load_endpoint_modules W base_url (before ++ plugin :: after) callback
                          internal_attributes st
   = (Raise AttributeError,
      logging st (map (fun p => Called (module p)
                                  (endpoint_args base_url callback
                                                 internal_attributes p))
                      descs)))
  /\ (forall p e,
        attributes W plugin = Some p ->
        callable (module p) = true ->
        call_raises W (module p)
                    (endpoint_args base_url callback internal_attributes p)
        = Some e ->
        _load_endpoint_modules W base_url (before ++ plugin :: after) callback
                               internal_attributes st
        = (Raise e,
           logging st (map (fun p => Called (module p)
                                       (endpoint_args base_url callback
                                                      internal_attributes p))
                           (descs ++ [p])))).
Proof.
  intros Hattr Hret. split.
  - intros Hnone. unfold _load_endpoint_modules. unfold bind at 1.
    rewrite (assemble_exact _ _ _ _ _ _ Hattr Hret). simpl. rewrite Hnone.
    reflexivity.
  - intros p e Hsome Hc Hr. unfold _load_endpoint_modules. unfold bind at 1.
    rewrite (assemble_exact _ _ _ _ _ _ Hattr Hret). simpl. rewrite Hsome.
    unfold bind at 1. unfold call.
    fold (endpoint_args base_url callback internal_attributes p).
    destruct (module p) eqn:Hm; try discriminate Hc;
      unfold bind; simpl; rewrite Hr; simpl; f_equal;
      unfold logging; simpl; rewrite map_app, <- app_assoc; simpl;
      rewrite Hm; reflexivity.
Qed.

Lemma endpoint_construction_failure_propagates_witness :
  _load_endpoint_modules strict_world "https://proxy.example.com"
    ([example_plugin "pkg.Saml" "legacy" 1]
     ++ OInst (OClass BackendModulePlugin)
              [OClass (UserClass "BackendA"); ostr "oidc"; OVal VNone]
     :: [example_plugin "pkg.Legacy" "legacy" 3])
    (OOpaque "callback") VNone initial
  = (Raise (ValueError "missing entity id"),
     logging initial
       [Called (OOpaque "pkg.Saml")
               [OOpaque "callback"; OVal VNone; OVal (VDict [("x", VInt 1)]);
                ostr "https://proxy.example.com"; ostr "legacy"];
        Called (OClass (UserClass "BackendA"))
               [OOpaque "callback"; OVal VNone; OVal VNone;
                ostr "https://proxy.example.com"; ostr "oidc"]]).
Proof.
  apply (proj2 (endpoint_construction_failure_propagates
                  strict_world "https://proxy.example.com" (OOpaque "callback")
                  VNone [example_plugin "pkg.Saml" "legacy" 1]
                  [{| module := OOpaque "pkg.Saml"; name := "legacy";
                      config := VDict [("x", VInt 1)] |}]
                  (OInst (OClass BackendModulePlugin)
                         [OClass (UserClass "BackendA"); ostr "oidc";
                          OVal VNone])
                  [example_plugin "pkg.Legacy" "legacy" 3] initial
                  ltac:(repeat constructor) ltac:(repeat constructor))
               {| module := OClass (UserClass "BackendA"); name := "oidc";
                  config := VNone |}
               (ValueError "missing entity id"));
    reflexivity.
Defined.

Lemma load_endpoint_modules_table W base_url callback ia plugins descs st :
  Forall2 (fun o p => attributes W o = Some p) plugins descs ->
  Forall (fun p => returns W (module p)
                     (endpoint_args base_url callback ia p) = true) descs ->
  exists table st',
    _load_endpoint_modules W base_url plugins callback ia st = (Ok table, st')
    /\ dom table = list_to_set (map name descs)
    /\ (forall n,
          table !! n
          = match last_named n descs with
            | Some p => Some (endpoint_instance base_url callback ia p)
            | None => None
            end).
Proof.
  intros Hattr Hret.
  destruct (assemble_runs W base_url callback ia plugins descs Hattr Hret
              ∅ [] st) as (keys & st1 & Hrun).
  unfold _load_endpoint_modules, bind. rewrite Hrun. simpl.
  eexists _, _. split; [reflexivity |].
  assert (Hlook : forall n,
    insert_all base_url callback ia descs ∅ !! n
    = match last_named n descs with
      | Some p => Some (endpoint_instance base_url callback ia p)
      | None => None
      end).
  { intros n. rewrite insert_all_lookup.
    destruct (last_named n descs); [reflexivity | apply lookup_empty]. }
  split; [| exact Hlook].
  apply set_eq. intros n. rewrite elem_of_dom, elem_of_list_to_set, Hlook.
  destruct (last_named n descs) as [p |] eqn:Hl.
  - apply last_named_Some in Hl as [<- Hin]. split; [intros _ | eauto].
    apply list_elem_of_fmap. eauto.
  - apply last_named_None in Hl. split; [intros [x Hx]; discriminate | tauto].
Qed.

(** X6: [load_backends] composes the two stages.  When every backend
    identifier loads as a code module (or is absent), and the plugins
    built carry their attributes and their module types build, the
    result is the table of the endpoint modules of those plugins, keyed
    by plugin name, the last plugin of a name winning.  The plugins are
    built from the base URL alone; the callback and the
    internal-attribute mapping go to the endpoint modules only.
    [load_frontends] does the same with the frontend identifiers and
    filter. *)
Theorem load_backends_builds_table
        (W : World) (G : Globals) (cfg : SATOSAConfig) (callback : pyobj)
        (internal_attributes : pyvalue)
        (ls : list (list pyobj)) (descs : list plugin_attributes)
        (st : state) :
  mapM (contribution W (PLUGIN_PATH cfg) (backend_filter (class_mro W))
          (BASE cfg) []) (BACKEND_MODULES cfg) = Some ls ->
  Forall2 (fun o p => attributes W o = Some p) (concat ls) descs ->
  Forall (fun p => returns W (module p)
                     (endpoint_args (BASE cfg) callback internal_attributes p)
                   = true) descs ->
  (exists table st',
     load_backends W G cfg callback internal_attributes st = (Ok table, st')
     /\ dom table = list_to_set (map name descs)
     /\ (forall n,
           table !! n
           = match last_named n descs with
             | Some p => Some (endpoint_instance (BASE cfg) callback
                                 internal_attributes p)
             | None => None
             end))
  /\ (forall lsf descsf st0,
        mapM (contribution W (PLUGIN_PATH cfg) (frontend_filter (class_mro W))
                (BASE cfg) []) (FRONTEND_MODULES cfg) = Some lsf ->
        Forall2 (fun o p => attributes W o = Some p) (concat lsf) descsf ->
        Forall (fun p => returns W (module p)
                           (endpoint_args (BASE cfg) callback
                                          internal_attributes p)
                         = true) descsf ->
        exists table st',
          load_frontends W G cfg callback internal_attributes st0
          = (Ok table, st')
          /\ dom table = list_to_set (map name descsf)
          /\ (forall n,
                table !! n
                = match last_named n descsf with
                  | Some p => Some (endpoint_instance (BASE cfg) callback
                                      internal_attributes p)
                  | None => None
                  end)).
Proof.
  intros Hls Hattr Hret. split.
  - unfold load_backends. unfold bind at 1.
    edestruct (load_plugins_contributions W G (PLUGIN_PATH cfg)
                 (backend_filter (class_mro W))
                 (class_name BackendModulePlugin) (BASE cfg) VNone []
                 (BACKEND_MODULES cfg) ls Hls st) as (st1 & ->).
    apply load_endpoint_modules_table; assumption.
  - intros lsf descsf st0 Hlsf Hattrf Hretf.
    unfold load_frontends. unfold bind at 1.
    edestruct (load_plugins_contributions W G (PLUGIN_PATH cfg)
                 (frontend_filter (class_mro W))
                 (class_name FrontendModulePlugin) (BASE cfg) VNone []
                 (FRONTEND_MODULES cfg) lsf Hlsf st0) as (st1 & ->).
    apply load_endpoint_modules_table; assumption.
Qed.

Lemma load_backends_builds_table_witness :
  exists table st',
    load_backends code_world plugin_loader_globals example_config
                  (OOpaque "callback") example_internal_attributes initial
    = (Ok table, st')
    /\ dom table = list_to_set ["BackendA"]
    /\ (forall n,
          table !! n
          = match last_named n
                    [{| module := OOpaque "pkg.BackendA"; name := "BackendA";
                        config := VDict [("base",
                                          VStr "https://proxy.example.com")] |}]
            with
            | Some p => Some (endpoint_instance "https://proxy.example.com"
                                (OOpaque "callback")
                                example_internal_attributes p)
            | None => None
            end).
Proof.
  exact (proj1 (load_backends_builds_table
                  code_world plugin_loader_globals example_config
                  (OOpaque "callback") example_internal_attributes
                  [[OInst (OClass (UserClass "BackendA"))
                      [ostr "https://proxy.example.com"]]; []]
                  [{| module := OOpaque "pkg.BackendA"; name := "BackendA";
                      config := VDict [("base",
                                        VStr "https://proxy.example.com")] |}]
                  initial
                  ltac:(vm_compute; reflexivity)
                  ltac:(repeat constructor)
                  ltac:(repeat constructor))).
Defined.

Lemma load_plugins_file_aborts W plugin_path plugin_filter filter_class base_url
      internal_attributes args earlier module_file_name later reason ls st :
  mapM (contribution W plugin_path plugin_filter base_url args) earlier
  = Some ls ->
  load_plugin W plugin_path module_file_name = Raise (ImportError reason) ->
  present W plugin_path module_file_name = true ->
  exists st',
    _load_plugins W plugin_loader_globals plugin_path plugin_filter
                  filter_class base_url internal_attributes args
                  (earlier ++ module_file_name :: later) st
    = (Raise (NameError "_config_loader"), st')
    /\ loaded_plugins st' = concat ls.
Proof.
  intros Hls Himport Hpresent.
  unfold _load_plugins. unfold bind at 1. simpl. unfold bind at 1.
  rewrite for_each_app.
  edestruct (for_each_contributions W plugin_loader_globals plugin_path
               plugin_filter filter_class base_url internal_attributes args
               earlier ls Hls) as (st1 & -> & Hl1 & _).
  simpl. unfold bind at 1.
  rewrite (load_one_import_error _ _ _ _ _ _ _ _ _ _ _ Himport).
  edestruct (fallback_present W plugin_path filter_class base_url
               internal_attributes module_file_name reason st1 Hpresent)
    as (st2 & -> & Hl2 & _).
  eexists. split; [reflexivity |]. rewrite Hl2, Hl1. reflexivity.
Qed.

(** X7: a declarative plugin file stops every entry point.  When an
    identifier of the list fails to import and a file of its name is
    in the search path, and the identifiers before it load as code
    modules, [load_backends], [load_frontends] and
    [load_micro_services] of the module as it is written each raise
    [NameError] for [_config_loader]: no endpoint module is built from
    the plugins loaded before the file, and for the micro-services the
    failure comes from the pass for the request services, whichever
    kind of service the file describes. *)
Theorem declarative_file_stops_entry_points
        (W : World) (cfg : SATOSAConfig) (callback : pyobj)
        (internal_attributes : pyvalue)
        (module_file_name reason : string) (later : list string) (st : state) :
  load_plugin W (PLUGIN_PATH cfg) module_file_name
  = Raise (ImportError reason) ->
  present W (PLUGIN_PATH cfg) module_file_name = true ->
  (forall earlier ls,
     mapM (contribution W (PLUGIN_PATH cfg) (backend_filter (class_mro W))
             (BASE cfg) []) earlier = Some ls ->
     BACKEND_MODULES cfg = earlier ++ module_file_name :: later ->
     exists st',
       load_backends W plugin_loader_globals cfg callback internal_attributes st
       = (Raise (NameError "_config_loader"), st')
       /\ loaded_plugins st' = concat ls)
  /\ (forall earlier ls,
        mapM (contribution W (PLUGIN_PATH cfg) (frontend_filter (class_mro W))
                (BASE cfg) []) earlier = Some ls ->
        FRONTEND_MODULES cfg = earlier ++ module_file_name :: later ->
        exists st',
          load_frontends W plugin_loader_globals cfg callback
                         internal_attributes st
          = (Raise (NameError "_config_loader"), st')
          /\ loaded_plugins st' = concat ls)
  /\ (forall earlier ls,
        mapM (contribution W (PLUGIN_PATH cfg)
                (_request_micro_service_filter (class_mro W)) "" []) earlier
        = Some ls ->
        exists st',
          load_micro_services W plugin_loader_globals (PLUGIN_PATH cfg)
                              (earlier ++ module_file_name :: later)
                              internal_attributes st
          = (Raise (NameError "_config_loader"), st')
          /\ loaded_plugins st' = concat ls).
Proof.
  intros Himport Hpresent. split; [| split].
  - intros earlier ls Hls Hlist. unfold load_backends. unfold bind at 1.
    rewrite Hlist.
    edestruct (load_plugins_file_aborts W (PLUGIN_PATH cfg)
                 (backend_filter (class_mro W))
                 (class_name BackendModulePlugin) (BASE cfg) VNone []
                 earlier module_file_name later reason ls st Hls Himport
                 Hpresent) as (st' & -> & Hl).
    eauto.
  - intros earlier ls Hls Hlist. unfold load_frontends. unfold bind at 1.
    rewrite Hlist.
    edestruct (load_plugins_file_aborts W (PLUGIN_PATH cfg)
                 (frontend_filter (class_mro W))
                 (class_name FrontendModulePlugin) (BASE cfg) VNone []
                 earlier module_file_name later reason ls st Hls Himport
                 Hpresent) as (st' & -> & Hl).
    eauto.
  - intros earlier ls Hls. unfold load_micro_services. unfold bind at 1.
    edestruct (load_plugins_file_aborts W (PLUGIN_PATH cfg)
                 (_request_micro_service_filter (class_mro W))
                 (class_name RequestMicroService) "" VNone []
                 earlier module_file_name later reason ls st Hls Himport
                 Hpresent) as (st' & -> & Hl).
    eauto.
Qed.

Lemma declarative_file_stops_entry_points_witness :
  exists st',
    load_frontends example_world plugin_loader_globals example_config
                   (OOpaque "callback") example_internal_attributes initial
    = (Raise (NameError "_config_loader"), st')
    /\ loaded_plugins st' = concat [[]].
Proof.
  exact (proj1 (proj2 (declarative_file_stops_entry_points
                         example_world example_config (OOpaque "callback")
                         example_internal_attributes "legacy_backend.conf"
                         "No module named legacy_backend.conf" ["backend_a"]
                         initial
                         ltac:(vm_compute; reflexivity)
                         ltac:(vm_compute; reflexivity)))
               ["missing"] [[]]
               ltac:(vm_compute; reflexivity) ltac:(reflexivity)).
Defined.

(** ** The file reader *)

(** X12: [_readfile] never hands its input back.  For a path that is
    no file the result is [None] and nothing is opened, where the
    docstring promises the input itself; the content comes back only
    when the path names a file that opens and reads; a file that cannot
    be opened or read gives [None], the error being dropped, whatever
    [Exception] it is; and no [Exception] leaves the function in any
    case. *)
Theorem readfile_returns_content_or_None
        (W : World) (isfile : string -> bool) (config : string) (st : state) :
  (isfile config = false -> _readfile W isfile config st = (Ok None, st))
  /\ (forall data,
        isfile config = true -> open_file W config = Ok (Ok data) ->
        _readfile W isfile config st
        = (Ok (Some data), logging st [Opened config]))
  /\ (forall e,
        isfile config = true ->
        open_file W config = Raise e \/ open_file W config = Ok (Raise e) ->
        is_Exception e = true ->
        _readfile W isfile config st = (Ok None, logging st [Opened config]))
  /\ (forall e, fst (_readfile W isfile config st) = Raise e ->
                is_Exception e = false).
Proof.
  unfold _readfile, try_except, bind, lift, emit, ret, raise, logging.
  repeat split.
  - intros ->. reflexivity.
  - intros data -> ->. reflexivity.
  - intros e -> [-> | ->] He; simpl; rewrite He; reflexivity.
  - intros e. destruct (isfile config); simpl; [| discriminate].
    destruct (open_file W config) as [[data | e'] | e']; simpl;
      try discriminate;
      (destruct (is_Exception e') eqn:He'; simpl; [discriminate |]);
      intros [= <-]; exact He'.
Qed.

(** ** Configurations without tokens *)

Lemma escape_char_lacks_lt c :
  Ascii.eqb c ch_lt = false ->
  forallb (fun x => negb (Ascii.eqb x ch_lt)) (escape_char c) = true.
Proof.
  intros Hc. destruct (verbatim_char c) eqn:Hv.
  - rewrite (escape_char_verbatim _ Hv). simpl. rewrite Hc. reflexivity.
  - apply (escape_char_escaped _ Hv).
Qed.

Lemma escape_lacks_lt t :
  forallb (fun x => negb (Ascii.eqb x ch_lt)) t = true ->
  forallb (fun x => negb (Ascii.eqb x ch_lt)) (escape t) = true.
Proof.
  induction t as [| c t IH]; [reflexivity |].
  intros H. apply andb_prop in H as [Hc Ht].
  unfold escape. simpl. rewrite forallb_app.
  apply negb_true_iff in Hc.
  rewrite (escape_char_lacks_lt _ Hc). exact (IH Ht).
Qed.

Lemma replace_token_without_lt old' new t :
  forallb (fun x => negb (Ascii.eqb x ch_lt)) t = true ->
  replace_token old' new t = t.
Proof.
  intros H. unfold replace_token.
  rewrite <- (app_nil_r t) at 1.
  rewrite (replace_go_without_head _ _ _ _ _ (lacks_char _ _ H)).
  rewrite replace_go_nil. apply app_nil_r.
Qed.

Lemma dumps_with_agree (enc enc' : string -> text) :
  (forall s, lacks_lt s = true -> enc s = enc' s) ->
  forall v, token_free v = true -> dumps_with enc v = dumps_with enc' v.
Proof.
  intros Hagree.
  induction v as [| b | z | s | l IH | d IH] using pyvalue_induction;
    intros Hfree; try reflexivity.
  - simpl. unfold dump_string. rewrite (Hagree s Hfree). reflexivity.
  - simpl. do 2 f_equal. f_equal.
    simpl in Hfree. induction IH as [| v l Hv _ IHl]; [reflexivity |].
    apply andb_prop in Hfree as [Hv' Hl]. simpl.
    rewrite (Hv Hv'), (IHl Hl). reflexivity.
  - simpl. do 2 f_equal. f_equal.
    simpl in Hfree. induction IH as [| [k v] d Hv _ IHd]; [reflexivity |].
    apply andb_prop in Hfree as [Hkv Hd].
    apply andb_prop in Hkv as [Hk Hv']. simpl in *.
    unfold dump_string.
    rewrite (Hagree k Hk), (Hv Hv'), (IHd Hd). reflexivity.
Qed.

Lemma dict_set_fresh {V} (k : string) (v : V) acc :
  existsb (String.eqb k) (map fst acc) = false ->
  dict_set k v acc = acc ++ [(k, v)].
Proof.
  induction acc as [| [k' v'] acc IH]; [reflexivity |].
  simpl. intros H. apply orb_false_iff in H as [Hk Hacc].
  rewrite Hk, (IH Hacc). reflexivity.
Qed.

Lemma fold_dict_set_distinct {V} (l : list (string * V)) :
  forall acc,
    distinct (map fst (acc ++ l)) = true ->
    fold_left (fun d kv => dict_set (fst kv) (snd kv) d) l acc = acc ++ l.
Proof.
  induction l as [| [k v] l IH]; intros acc H.
  - symmetry. apply app_nil_r.
  - simpl. rewrite dict_set_fresh.
    + rewrite IH; rewrite <- app_assoc; [reflexivity | exact H].
    + clear IH. induction acc as [| [k' v'] acc IHacc]; [reflexivity |].
      simpl in *. apply andb_prop in H as [Hk' Hrest].
      rewrite (IHacc Hrest), orb_false_r.
      apply negb_true_iff in Hk'.
      rewrite map_app, existsb_app in Hk'.
      apply orb_false_iff in Hk' as [_ Hk']. simpl in Hk'.
      apply orb_false_iff in Hk' as [Hk' _].
      rewrite String.eqb_sym. exact Hk'.
Qed.

Lemma dict_of_pairs_distinct {V} (l : list (string * V)) :
  distinct (map fst l) = true -> dict_of_pairs l = l.
Proof. intros H. exact (fold_dict_set_distinct l [] H). Qed.

Lemma map_strings_same v :
  unique_keys v = true -> map_strings (fun s => s) v = v.
Proof.
  induction v as [| b | z | s | l IH | d IH] using pyvalue_induction;
    intros H; try reflexivity.
  - simpl. f_equal. simpl in H.
    induction IH as [| v l Hv _ IHl]; [reflexivity |].
    apply andb_prop in H as [Hv' Hl]. simpl.
    rewrite (Hv Hv'), (IHl Hl). reflexivity.
  - simpl in *. apply andb_prop in H as [Hkeys Hvals].
    assert (Hmap : map (fun kv : string * pyvalue =>
                          (fst kv, map_strings (fun s => s) (snd kv))) d = d).
    { clear Hkeys. induction IH as [| [k v] d Hv _ IHd]; [reflexivity |].
      simpl in *. apply andb_prop in Hvals as [Hv' Hd].
      rewrite (Hv Hv'), (IHd Hd). reflexivity. }
    rewrite Hmap, (dict_of_pairs_distinct _ Hkeys). reflexivity.
Qed.

Lemma substituted_text_without_tokens base_url name cfg :
  token_free cfg = true ->
  substituted_text base_url name cfg = json_dumps cfg.
Proof.
  intros Hfree. rewrite substituted_text_dumps. unfold json_dumps.
  apply dumps_with_agree; [| exact Hfree].
  intros s Hs.
  assert (He : forallb (fun x => negb (Ascii.eqb x ch_lt))
                       (escape (text_of s)) = true)
    by (apply escape_lacks_lt; exact Hs).
  rewrite (replace_token_without_lt _ _ _ He).
  apply replace_token_without_lt. exact He.
Qed.



(** ** The declarative branch *)

Lemma render_config_safe base_url name cfg st :
  json_safe base_url = true -> json_safe name = true ->
  render_config base_url (VStr name) cfg st
  = (Ok (substitute_tokens base_url name cfg),
     {| loaded_plugins := loaded_plugins st;
        loaded_plugin_names := loaded_plugin_names st;
        local_config := Some (substitute_tokens base_url name cfg);
        trace := trace st |}).
Proof.
  intros Hb Hn.
  assert (H : json_loads (substituted_text base_url name cfg)
              = Ok (substitute_tokens base_url name cfg)).
  { rewrite substituted_text_dumps. unfold substitute_tokens.
    apply loads_dumps. intros s. apply substituted_body_encodes; assumption. }
  unfold render_config, bind, assign_config, lift. simpl. rewrite H.
  reflexivity.
Qed.

Lemma getitem_dict _config key v :
  py_getitem _config key = Ok v ->
  exists d, _config = VDict d /\ dict_get key d = Some v.
Proof.
  destruct _config as [| | | | | d]; try discriminate. simpl.
  destruct (dict_get key d) as [v' |] eqn:Hk; [| discriminate].
  intros [= ->]. eauto.
Qed.

(** X9: a declarative micro-service file that resolves.  When the
    parsed file is of the micro-service category, its [module] entry is
    a path that [locate] resolves, and the object found can be called,
    the branch builds one instance from the internal attributes,
    followed by the [config] entry of the file when there is one, and
    appends it to the loaded plugins.  The base URL is not given to it,
    and the identifier is not added to the names of the loaded plugins,
    so that the record of the loaded plugins leaves it out. *)
Theorem declarative_micro_service_loaded
        (W : World) (G : Globals) (base_url : string)
        (internal_attributes : pyvalue) (module_file_name : string)
        (_config : pyvalue) (path : string) (module_class : pyobj)
        (st : state) :
  is_micro_service _config = Ok true ->
  py_getitem _config "module" = Ok (VStr path) ->
  locate W path = Ok module_class ->
  returns W module_class (service_args internal_attributes _config) = true ->
  declarative_branch W G base_url internal_attributes module_file_name
                     _config st
  = (Ok tt,
     loading st
       [OInst module_class (service_args internal_attributes _config)] []
       [Located path;
        Called module_class (service_args internal_attributes _config)]).
Proof.
  intros Hms Hmod Hloc Hret.
  apply getitem_dict in Hmod as (d & -> & Hmod).
  rewrite branch_category by exact (dict_get_truthy _ _ _ Hmod).
  unfold try_except. unfold bind at 1. unfold lift at 1. rewrite Hms.
  unfold load_micro_service_from.
  assert (Hplugin : exists p, dict_get "plugin" d = Some p).
  { unfold is_micro_service in Hms. simpl in Hms.
    destruct (dict_get "plugin" d); [eauto | discriminate]. }
  destruct Hplugin as (p & Hplugin).
  unfold bind at 1. unfold lift at 1. simpl all_in. rewrite Hplugin, Hmod.
  simpl.
  unfold bind at 1. unfold lift at 1. simpl py_getitem. rewrite Hmod.
  unfold bind at 1. unfold locate_value. unfold bind at 1. simpl emit.
  unfold lift at 1. rewrite Hloc.
  unfold returns in Hret. apply andb_prop in Hret as [Hc Hr].
  unfold service_args in *. simpl py_getitem in *.
  unfold bind at 1. unfold lift at 1. simpl py_contains.
  destruct (dict_get "config" d) as [cfg |] eqn:Hcfg.
  - unfold bind at 1. unfold bind at 1. unfold lift at 1. simpl py_getitem.
    try rewrite Hcfg. unfold call.
    destruct (call_raises W module_class
                [OVal internal_attributes; OVal cfg]) eqn:Hcall;
      [discriminate |].
    destruct module_class; try discriminate Hc;
      unfold bind; simpl; rewrite Hcall; simpl; unfold loading; simpl;
      rewrite app_nil_r, <- app_assoc; reflexivity.
  - unfold bind at 1. unfold call.
    destruct (call_raises W module_class [OVal internal_attributes])
      eqn:Hcall; [discriminate |].
    destruct module_class; try discriminate Hc;
      unfold bind; simpl; rewrite Hcall; simpl; unfold loading; simpl;
      rewrite app_nil_r, <- app_assoc; reflexivity.
Qed.

Lemma declarative_micro_service_loaded_witness :
  declarative_branch strict_world plugin_loader_globals
                     "https://proxy.example.com" example_internal_attributes
                     "hash.yaml" hash_service_config initial
  = (Ok tt,
     loading initial
       [OInst (OClass (UserClass "HashService"))
          [OVal example_internal_attributes;
           OVal (VDict [("salt", VStr "<name>")])]]
       []
       [Located "pkg.HashService";
        Called (OClass (UserClass "HashService"))
          [OVal example_internal_attributes;
           OVal (VDict [("salt", VStr "<name>")])]]).
Proof.
  exact (declarative_micro_service_loaded
           strict_world plugin_loader_globals "https://proxy.example.com"
           example_internal_attributes "hash.yaml" hash_service_config
           "pkg.HashService" (OClass (UserClass "HashService")) initial
           ltac:(vm_compute; reflexivity) ltac:(vm_compute; reflexivity)
           ltac:(vm_compute; reflexivity) ltac:(vm_compute; reflexivity)).
Defined.

Lemma endpoint_prelude W G base_url module_file_name d name plugin plugin_class
      path module_class cfg (k : M unit) st :
  dict_get "name" d = Some name ->
  dict_get "plugin" d = Some (VStr plugin) ->
  module_attr G plugin = Some plugin_class ->
  dict_get "module" d = Some (VStr path) ->
  locate W path = Ok module_class ->
  truthy_obj module_class = true ->
  dict_get "config" d = Some cfg ->
  load_endpoint_from W G base_url module_file_name (VDict d) st
  = (config <- render_config base_url name cfg ;;
     module <- call W plugin_class [module_class; OVal name; OVal config] ;;
     append_plugin module ;;;
     append_name module_file_name)
      (logging st [Resolved plugin; Located path]).
Proof.
  intros Hname Hplugin Hattr Hmod Hloc Htruthy Hcfg.
  unfold load_endpoint_from.
  unfold bind at 1. unfold lift at 1. simpl all_in.
  rewrite Hname, Hplugin, Hmod, Hcfg. simpl.
  unfold bind at 1. unfold lift at 1. simpl py_getitem. rewrite Hplugin.
  unfold bind at 1. unfold getattr_module. unfold bind at 1. simpl emit.
  rewrite Hattr. simpl ret.
  unfold bind at 1. unfold lift at 1. simpl py_getitem. rewrite Hmod.
  unfold bind at 1. unfold locate_value. unfold bind at 1. simpl emit.
  unfold lift at 1. rewrite Hloc. unfold emit, ret. cbv iota beta.
  rewrite Htruthy. simpl negb. cbv iota.
  unfold bind at 1. unfold lift at 1. rewrite Hname.
  unfold bind at 1. unfold lift at 1. rewrite Hcfg.
  simpl negb. cbv beta iota.
  f_equal. unfold logging. simpl. rewrite <- app_assoc. reflexivity.
Qed.



(** X13: a declarative endpoint file whose name is no string.  The
    attribute and the module are looked up first; the replacement of
    [<name>] then fails with [TypeError], which the handler of the
    branch logs and drops: the call returns normally, nothing is added
    to the loaded plugins or their names, no plugin is built, and the
    local [config] stays bound to the serialized text in which only
    [<base_url>] has been replaced. *)
Theorem endpoint_name_must_be_text
        (W : World) (G : Globals) (base_url : string)
        (internal_attributes : pyvalue) (module_file_name : string)
        (_config name : pyvalue) (plugin : string) (plugin_class : pyobj)
        (path : string) (module_class : pyobj) (cfg : pyvalue) (st : state) :
  is_micro_service _config = Ok false ->
  py_getitem _config "name" = Ok name ->
  is_string name = false ->
  py_getitem _config "plugin" = Ok (VStr plugin) ->
  module_attr G plugin = Some plugin_class ->
  py_getitem _config "module" = Ok (VStr path) ->
  locate W path = Ok module_class ->
  truthy_obj module_class = true ->
  py_getitem _config "config" = Ok cfg ->
  declarative_branch W G base_url internal_attributes module_file_name
                     _config st
  = (Ok tt,
     {| loaded_plugins := loaded_plugins st;
        loaded_plugin_names := loaded_plugin_names st;
        local_config :=
          Some (VStr (str_of (str_replace (lit "<base_url>")
                                (text_of base_url) (json_dumps cfg))));
        trace :=
          trace st
          ++ [Resolved plugin; Located path;
              cannot_create module_file_name] |}).
Proof.
  intros Hms Hname Hstr Hplugin Hattr Hmod Hloc Htruthy Hcfg.
  apply getitem_dict in Hname as (d & -> & Hname).
  simpl in Hplugin, Hmod, Hcfg.
  destruct (dict_get "plugin" d) as [p |] eqn:Hp; [| discriminate].
  injection Hplugin as ->.
  destruct (dict_get "module" d) as [m |] eqn:Hm; [| discriminate].
  injection Hmod as ->.
  destruct (dict_get "config" d) as [c |] eqn:Hc; [| discriminate].
  injection Hcfg as ->.
  rewrite branch_category by exact (dict_get_truthy _ _ _ Hname).
  unfold try_except. unfold bind at 1. unfold lift at 1. rewrite Hms.
  rewrite (endpoint_prelude W G base_url module_file_name d name plugin
             plugin_class path module_class cfg (ret tt) st
             Hname Hp Hattr Hm Hloc Htruthy Hc).
  unfold bind at 1. unfold render_config.
  destruct name; try discriminate Hstr;
    unfold bind, assign_config, raise; simpl; unfold emit; simpl;
    f_equal; f_equal; symmetry; apply (app_assoc _ [_; _] [_]).
Qed.

Lemma endpoint_name_must_be_text_witness :
  declarative_branch strict_world plugin_loader_globals
                     "https://proxy.example.com" example_internal_attributes
                     "numbered.conf" numbered_config initial
  = (Ok tt,
     {| loaded_plugins := [];
        loaded_plugin_names := [];
        local_config :=
          Some (VStr (str_of (str_replace (lit "<base_url>")
                                (text_of "https://proxy.example.com")
                                (json_dumps
                                   (VDict [("x",
                                            VStr "<base_url>/<name>")])))));
        trace :=
          [Resolved "BackendModulePlugin"; Located "pkg.Legacy";
           cannot_create "numbered.conf"] |}).
Proof.
  exact (endpoint_name_must_be_text
           strict_world plugin_loader_globals "https://proxy.example.com"
           example_internal_attributes "numbered.conf" numbered_config
           (VInt 7) "BackendModulePlugin" (OClass BackendModulePlugin)
           "pkg.Legacy" (OOpaque "pkg.Legacy")
           (VDict [("x", VStr "<base_url>/<name>")]) initial
           ltac:(vm_compute; reflexivity) ltac:(vm_compute; reflexivity)
           ltac:(vm_compute; reflexivity) ltac:(vm_compute; reflexivity)
           ltac:(vm_compute; reflexivity) ltac:(vm_compute; reflexivity)
           ltac:(vm_compute; reflexivity) ltac:(vm_compute; reflexivity)
           ltac:(vm_compute; reflexivity)).
Defined.

Lemma keeps_plugins_refl st : keeps_plugins st st.
Proof. split; reflexivity. Qed.

Lemma quiet_lift {A} (r : result A) : quiet (lift r).
Proof. intros st. apply keeps_plugins_refl. Qed.

Lemma quiet_emit e : quiet (emit e).
Proof. intros st. split; reflexivity. Qed.

Lemma quiet_raise {A} e : quiet (@raise A e).
Proof. intros st. split; reflexivity. Qed.

Lemma quiet_assign v : quiet (assign_config v).
Proof. intros st. split; reflexivity. Qed.

Lemma quiet_bind {A B} (m : M A) (k : A -> M B) :
  quiet m -> (forall a, quiet (k a)) -> quiet (bind m k).
Proof.
  intros Hm Hk st. unfold bind. specialize (Hm st).
  destruct (m st) as [[a | e] st1]; [| exact Hm].
  specialize (Hk a st1). destruct Hm as [H1 H2], Hk as [H3 H4].
  simpl in *. split; congruence.
Qed.

Lemma quiet_body_ok id (m : M unit) : quiet m -> body_ok id m.
Proof.
  intros Hm st. specialize (Hm st). destruct (m st) as [[a | e] st1];
    [left |]; exact Hm.
Qed.

Lemma body_ok_bind {A} id (m : M A) (k : A -> M unit) :
  quiet m -> (forall a, body_ok id (k a)) -> body_ok id (bind m k).
Proof.
  intros Hm Hk st. unfold bind. specialize (Hm st).
  destruct (m st) as [[a | e] st1]; [| exact Hm].
  specialize (Hk a st1). destruct Hm as [H1 H2]. simpl in *.
  unfold keeps_plugins, adds_one in *.
  destruct (k a st1) as [[u | e] st2]; rewrite <- H1, <- H2; exact Hk.
Qed.

Lemma quiet_locate_value W v : quiet (locate_value W v).
Proof.
  destruct v; try apply quiet_raise.
  apply quiet_bind; [apply quiet_emit | intros _; apply quiet_lift].
Qed.

Lemma quiet_getattr_module G v : quiet (getattr_module G v).
Proof.
  destruct v; try apply quiet_raise.
  apply quiet_bind; [apply quiet_emit | intros _].
  simpl. destruct (module_attr G s); [| apply quiet_raise].
  intros st. apply keeps_plugins_refl.
Qed.

Lemma quiet_render_config base_url name cfg :
  quiet (render_config base_url name cfg).
Proof.
  unfold render_config.
  apply quiet_bind; [apply quiet_assign | intros _].
  apply quiet_bind; [apply quiet_assign | intros _].
  destruct name; try apply quiet_raise.
  apply quiet_bind; [apply quiet_assign | intros _].
  apply quiet_bind; [apply quiet_lift | intros parsed].
  apply quiet_bind; [apply quiet_assign | intros _].
  intros st. apply keeps_plugins_refl.
Qed.

Lemma call_then_append W id f args (named : bool) :
  body_ok id (instance <- call W f args ;;
              append_plugin instance ;;;
              if named then append_name id else ret tt).
Proof.
  intros st. unfold call, bind.
  destruct f; simpl; try apply keeps_plugins_refl;
    destruct (call_raises W _ args); simpl;
    try (split; reflexivity);
    destruct named; simpl; right; eexists _, _;
    (split; [reflexivity | split; [apply last_snoc | auto]]).
Qed.

Lemma micro_service_from_ok W internal_attributes id _config :
  body_ok id (load_micro_service_from W internal_attributes id _config).
Proof.
  unfold load_micro_service_from.
  apply body_ok_bind; [apply quiet_lift | intros [|]];
    [| apply quiet_body_ok, quiet_emit].
  apply body_ok_bind; [apply quiet_lift | intros path].
  apply body_ok_bind; [apply quiet_locate_value | intros module_class].
  apply body_ok_bind; [apply quiet_lift | intros [|]].
  - intros st. unfold bind at 1. unfold bind at 1. unfold lift at 1.
    destruct (py_getitem _config "config") as [cfg | e];
      [| apply keeps_plugins_refl].
    pose proof (call_then_append W id module_class
                  [OVal internal_attributes; OVal cfg] false st) as H.
    unfold bind in *. simpl in *.
    destruct (call W module_class [OVal internal_attributes; OVal cfg] st)
      as [[inst | e] st1]; exact H.
  - intros st.
    pose proof (call_then_append W id module_class
                  [OVal internal_attributes] false st) as H.
    unfold bind in *. simpl in *.
    destruct (call W module_class [OVal internal_attributes] st)
      as [[inst | e] st1]; exact H.
Qed.

Lemma endpoint_from_ok W G base_url id _config :
  body_ok id (load_endpoint_from W G base_url id _config).
Proof.
  unfold load_endpoint_from.
  apply body_ok_bind; [apply quiet_lift | intros [|]];
    [| apply quiet_body_ok, quiet_emit].
  apply body_ok_bind; [apply quiet_lift | intros plugin].
  apply body_ok_bind; [apply quiet_getattr_module | intros plugin_class].
  apply body_ok_bind; [apply quiet_lift | intros path].
  apply body_ok_bind; [apply quiet_locate_value | intros module_class].
  destruct (negb (truthy_obj module_class)).
  - destruct path; apply quiet_body_ok, quiet_raise.
  - apply body_ok_bind; [apply quiet_lift | intros name].
    apply body_ok_bind; [apply quiet_lift | intros cfg].
    apply body_ok_bind; [apply quiet_render_config | intros config].
    intros st.
    pose proof (call_then_append W id plugin_class
                  [module_class; OVal name; OVal config] true st) as H.
    exact H.
Qed.

(** X8: what the declarative branch can do, whatever the parsed file,
    the module and the world are.  No [Exception] leaves it: it returns
    normally, or is left by an exception that is none (an interrupt of
    a constructor, say).  And it is all or nothing for the loaded
    plugins: either they and their names are left as they were, or the
    branch returned normally and added exactly one instance, the one
    built by the last call of the trace; nothing is ever added by a
    branch that failed, and never a name without an instance. *)
Theorem declarative_branch_all_or_nothing
        (W : World) (G : Globals) (base_url : string)
        (internal_attributes : pyvalue) (module_file_name : string)
        (_config : pyvalue) (st : state) :
  match declarative_branch W G base_url internal_attributes module_file_name
                           _config st with
  | (Ok _, st') =>
      keeps_plugins st st' \/ adds_one module_file_name st st'
  | (Raise e, st') => is_Exception e = false /\ keeps_plugins st st'
  end.
Proof.
  unfold declarative_branch. destruct (truthy _config) eqn:Ht;
    [| left; apply keeps_plugins_refl].
  unfold try_except.
  match goal with
  | |- context [match ?body st with _ => _ end] =>
      assert (Hbody : body_ok module_file_name body)
  end.
  { apply body_ok_bind; [apply quiet_lift | intros has_plugin].
    apply body_ok_bind.
    - destruct has_plugin; [| intros st0; apply keeps_plugins_refl].
      apply quiet_bind; [apply quiet_lift | intros plugin; apply quiet_lift].
    - intros [|]; [apply micro_service_from_ok | apply endpoint_from_ok]. }
  specialize (Hbody st).
  match goal with
  | |- context [match ?body st with _ => _ end] =>
      destruct (body st) as [[u | e] st1]
  end; [exact Hbody |].
  unfold skip_handler. destruct (is_Exception e) eqn:He.
  - simpl. left. exact Hbody.
  - split; [exact He | exact Hbody].
Qed.

(** ** What the loader can raise *)

Lemma load_one_failure_kinds W plugin_path plugin_filter filter_class base_url
      internal_attributes args module_file_name st e :
  fst (load_one W plugin_loader_globals plugin_path plugin_filter filter_class
                base_url internal_attributes args module_file_name st)
  = Raise e ->
  e = NameError "_config_loader"
  \/ is_Exception e = false
  \/ (exists cause,
        is_Exception cause = true
        /\ (forall reason, cause <> ImportError reason)
        /\ e = SATOSAConfigurationError
                 ("The configuration file " +:+ module_file_name
                  +:+ " is corrupt.") cause)
  \/ (exists path,
        path ∈ plugin_path
        /\ open_file W (file_of path module_file_name) = Raise e
        /\ e <> IOError).
Proof.
  unfold load_one, try_except.
  destruct (load_code_plugin W plugin_path plugin_filter base_url args
              module_file_name st) as [[u | cause] st1]; [discriminate |].
  destruct cause;
    try (unfold bind, emit, raise; simpl; intros [= <-]; right; right; left;
         refine (ex_intro _ _ (conj _ (conj _ eq_refl)));
         [reflexivity | congruence]).
  - destruct (fallback_as_written W plugin_path filter_class base_url
                internal_attributes module_file_name msg st1)
      as (r & st2 & -> & _ & _
          & [[-> _] | [[-> _] | (e' & p & -> & _ & _ & Hne & Hin & Ho)]]);
      simpl; [discriminate | intros [= <-]; left; reflexivity |].
    intros [= <-]. right. right. right. exists p. auto.
  - simpl. intros [= <-]. right. left. reflexivity.
Qed.

(** X14: the exceptions of [_load_plugins] as it is written.  Whatever
    the world, the filter and the identifiers are, an exception that
    leaves [_load_plugins] is one of four: [NameError] for
    [_config_loader], raised by the fallback on a file that is present;
    [SATOSAConfigurationError] naming an identifier of the list as
    corrupt, with for its cause an [Exception] that is no [ImportError]
    and that the code path of that identifier raised; an exception
    other than [IOError] that [open] raised for an identifier of the
    list in a directory of the search path (a [ValueError] for a name
    that holds a NUL character, say), passed on as it is; or an
    exception that is no [Exception], passed on as it is.  No
    [ImportError] and no other plain error of a plugin reaches the
    caller. *)
Theorem load_plugins_failure_kinds
        (W : World) (plugin_path : list string)
        (plugin_filter : pyobj -> result bool) (filter_class base_url : string)
        (internal_attributes : pyvalue) (args : list pyobj)
        (plugins : list string) (st : state) (e : exn) :
  fst (_load_plugins W plugin_loader_globals plugin_path plugin_filter
                     filter_class base_url internal_attributes args plugins st)
  = Raise e ->
  e = NameError "_config_loader"
  \/ is_Exception e = false
  \/ (exists module_file_name cause,
        module_file_name ∈ plugins
        /\ is_Exception cause = true
        /\ (forall reason, cause <> ImportError reason)
        /\ e = SATOSAConfigurationError
                 ("The configuration file " +:+ module_file_name
                  +:+ " is corrupt.") cause)
  \/ (exists module_file_name path,
        module_file_name ∈ plugins
        /\ path ∈ plugin_path
        /\ open_file W (file_of path module_file_name) = Raise e
        /\ e <> IOError).
Proof.
  assert (Hloop : forall st1,
    fst (for_each plugins
           (load_one W plugin_loader_globals plugin_path plugin_filter
                     filter_class base_url internal_attributes args) st1)
    = Raise e ->
    e = NameError "_config_loader"
    \/ is_Exception e = false
    \/ (exists module_file_name cause,
          module_file_name ∈ plugins
          /\ is_Exception cause = true
          /\ (forall reason, cause <> ImportError reason)
          /\ e = SATOSAConfigurationError
                   ("The configuration file " +:+ module_file_name
                    +:+ " is corrupt.") cause)
    \/ (exists module_file_name path,
          module_file_name ∈ plugins
          /\ path ∈ plugin_path
          /\ open_file W (file_of path module_file_name) = Raise e
          /\ e <> IOError)).
  { induction plugins as [| id rest IH]; intros st1; [discriminate |].
    simpl. unfold bind at 1.
    pose proof (load_one_failure_kinds W plugin_path plugin_filter
                  filter_class base_url internal_attributes args id st1 e)
      as Hone.
    destruct (load_one W plugin_loader_globals plugin_path plugin_filter
                filter_class base_url internal_attributes args id st1)
      as [[u | e1] st2].
    - intros Hrest. destruct (IH st2 Hrest) as [H | [H | [H | H]]]; auto.
      + destruct H as (id' & cause & Hin & H). right. right. left.
        exists id', cause. split; [apply elem_of_cons; auto | exact H].
      + destruct H as (id' & p & Hin & H). right. right. right.
        exists id', p. split; [apply elem_of_cons; auto | exact H].
    - intros Hraise. destruct (Hone Hraise) as [H | [H | [H | H]]]; auto.
      + destruct H as (cause & H). right. right. left.
        exists id, cause. split; [apply elem_of_cons; auto | exact H].
      + destruct H as (p & H). right. right. right.
        exists id, p. split; [apply elem_of_cons; auto | exact H]. }
  unfold _load_plugins. unfold bind at 1. simpl. unfold bind at 1.
  match goal with
  | |- context [for_each plugins ?f ?s] =>
      specialize (Hloop s); destruct (for_each plugins f s) as [[u | e1] st2]
  end; [unfold bind; simpl; discriminate |].
  simpl in *. intros [= <-]. apply Hloop. reflexivity.
Qed.

Lemma load_plugins_failure_kinds_witness :
  ValueError "embedded null byte" = NameError "_config_loader"
  \/ is_Exception (ValueError "embedded null byte") = false
  \/ (exists module_file_name cause,
        module_file_name ∈ ["services"; nul_text; "backend_a"]
        /\ is_Exception cause = true
        /\ (forall reason, cause <> ImportError reason)
        /\ ValueError "embedded null byte"
           = SATOSAConfigurationError
               ("The configuration file " +:+ module_file_name
                +:+ " is corrupt.") cause)
  \/ (exists module_file_name path,
        module_file_name ∈ ["services"; nul_text; "backend_a"]
        /\ path ∈ ["/plugins"]
        /\ open_file declarative_world (file_of path module_file_name)
           = Raise (ValueError "embedded null byte")
        /\ ValueError "embedded null byte" <> IOError).
Proof.
  exact (load_plugins_failure_kinds
           declarative_world ["/plugins"] (backend_filter example_mro)
           "BackendModulePlugin" "https://proxy.example.com" VNone []
           ["services"; nul_text; "backend_a"] initial
           (ValueError "embedded null byte")
           ltac:(vm_compute; reflexivity)).
Defined.

(** ** What the assembler does on the way *)

Lemma key_order_elements names :
  forall seen n, n ∈ key_order names seen <-> n ∈ seen \/ n ∈ names.
Proof.
  induction names as [| m names IH]; intros seen n; simpl.
  - split; [auto | intros [H | H]; [exact H | inversion H]].
  - rewrite IH. rewrite elem_of_cons.
    destruct (existsb (String.eqb m) seen) eqn:Hm.
    + apply existsb_exists in Hm as (x & Hx & Heq).
      apply String.eqb_eq in Heq as <-.
      split; [tauto |]. intros [H | [-> | H]]; auto.
      left. apply list_elem_of_In. exact Hx.
    + rewrite elem_of_app, list_elem_of_singleton. tauto.
Qed.

Lemma key_order_NoDup names :
  forall seen, NoDup seen -> NoDup (key_order names seen).
Proof.
  induction names as [| m names IH]; intros seen Hseen; [exact Hseen |].
  simpl. apply IH.
  destruct (existsb (String.eqb m) seen) eqn:Hm; [exact Hseen |].
  apply NoDup_app. split; [exact Hseen | split; [| apply NoDup_singleton]].
  intros x Hx Hx'. apply list_elem_of_singleton in Hx' as ->.
  assert (Ht : existsb (String.eqb m) seen = true); [| congruence].
  apply existsb_exists. exists m. split; [| apply String.eqb_refl].
  apply list_elem_of_In. exact Hx.
Qed.

(** X15: what [_load_endpoint_modules] does besides returning the
    table.  When every plugin carries its attributes and every module
    type builds, the module type of every plugin of the list is called,
    once each and in the order of the list, also for a plugin whose
    name a later plugin takes over and whose instance is therefore not
    in the table; after the last call one record of the loaded modules
    is logged, which lists every name of the list once. *)
Theorem every_endpoint_module_is_built
        (W : World) (base_url : string) (callback : pyobj)
        (internal_attributes : pyvalue)
        (plugins : list pyobj) (descs : list plugin_attributes) (st : state) :
  Forall2 (fun o p => attributes W o = Some p) plugins descs ->
  Forall (fun p => returns W (module p)
                     (endpoint_args base_url callback internal_attributes p)
                   = true) descs ->
  _load_endpoint_modules W base_url plugins callback internal_attributes st
  = (Ok (insert_all base_url callback internal_attributes descs ∅),
     logging st
       (map (fun p => Called (module p)
                        (endpoint_args base_url callback
                                       internal_attributes p)) descs
        ++ [Logged INFO "Loaded modules: %s"
                   (key_order (map name descs) [])]))
  /\ NoDup (key_order (map name descs) [])
  /\ (forall n, n ∈ key_order (map name descs) [] <-> n ∈ map name descs).
Proof.
  intros Hattr Hret. split; [| split].
  - unfold _load_endpoint_modules. unfold bind at 1.
    rewrite <- (app_nil_r plugins).
    rewrite (assemble_exact _ _ _ _ _ _ Hattr Hret). simpl.
    unfold bind, emit, ret, logging. simpl.
    rewrite <- app_assoc. reflexivity.
  - apply key_order_NoDup. constructor.
  - intros n. rewrite key_order_elements. split; [| auto].
    intros [H | H]; [inversion H | exact H].
Qed.

Lemma every_endpoint_module_is_built_witness :
  _load_endpoint_modules example_world "https://proxy.example.com"
                         example_plugins (OOpaque "callback")
                         example_internal_attributes initial
  = (Ok (insert_all "https://proxy.example.com" (OOpaque "callback")
                    example_internal_attributes example_descriptors ∅),
     logging initial
       (map (fun p => Called (module p)
                        (endpoint_args "https://proxy.example.com"
                                       (OOpaque "callback")
                                       example_internal_attributes p))
            example_descriptors
        ++ [Logged INFO "Loaded modules: %s"
                   (key_order (map name example_descriptors) [])])).
Proof.
  exact (proj1 (every_endpoint_module_is_built
                  example_world "https://proxy.example.com"
                  (OOpaque "callback") example_internal_attributes
                  example_plugins example_descriptors initial
                  ltac:(repeat constructor) ltac:(repeat constructor))).
Defined.
